(** * Enterprise AI Gateway ([app.py]): a shallow embedding and its properties

    The gateway is a Streamlit script.  On every submitted prompt it
    counts tokens (tiktoken), estimates the price of the prompt on the
    expensive model, scans the prompt for PII (presidio), picks a model
    by token count, adds the saving to a session total, and chooses the
    text that is sent on according to the compliance mode.

    Python data is modelled as the interpreter has it: [int] as [Z],
    [float] as IEEE 754 binary64 ([spec_float] at precision 53), [str] as
    [string] (the bytes of its UTF-8 form), exceptions as an error monad,
    [st.session_state] and [os.environ] as finite maps.  tiktoken and
    presidio are external packages; they enter as the operations of two
    interfaces, and the operations of tiktoken can raise. *)

From Stdlib Require Import ZArith Lia Bool List.
From Stdlib Require Import Floats.SpecFloat.
From stdpp Require Import base option list gmap strings pretty.

Local Open Scope Z_scope.

(** ** Python exceptions *)

Inductive exn : Set :=
  | KeyError
  | ValueError
  | OverflowError
  | ZeroDivisionError
  | AttributeError.

Inductive result (A : Type) : Type :=
  | Ok (a : A)
  | Raise (e : exn).
Arguments Ok {A} a.
Arguments Raise {A} e.

#[global] Instance exn_eq_dec : EqDecision exn.
Proof. solve_decision. Defined.

(** [try: body except e: handler] *)
Definition try_except {A : Type} (body : result A) (e : exn) (handler : result A) : result A :=
  match body with
  | Ok a => Ok a
  | Raise e' => if decide (e' = e) then handler else Raise e'
  end.

#[global] Instance result_ret : MRet result := fun _ a => Ok a.
#[global] Instance result_bind : MBind result := fun _ _ f m =>
  match m with
  | Ok a => f a
  | Raise e => Raise e
  end.

(** ** Python floats: IEEE 754 binary64, round to nearest even *)

Module F64.

Definition prec : Z := 53.
Definition emax : Z := 1024.

Definition float : Set := spec_float.

Definition zero : float := S754_zero false.

Definition mul : float -> float -> float := SFmul prec emax.
Definition add : float -> float -> float := SFadd prec emax.
Definition sub : float -> float -> float := SFsub prec emax.

Definition ltb : float -> float -> bool := SFltb.
Definition leb : float -> float -> bool := SFleb.

(** [nearest sgn a b] is the binary64 nearest to [a / b] for positive
    integers [a] and [b] (ties to even), infinite when the quotient is
    out of range. *)
Definition nearest (sgn : bool) (a b : Z) : float :=
  let '(q, e, l) := SFdiv_core_binary prec emax a 0 b 0 in
  binary_round_aux prec emax sgn q e l.

(** [a / b] on two Python ints: the correctly rounded quotient;
    [ZeroDivisionError] on a zero divisor, [OverflowError] when the
    quotient does not fit a float. *)
Definition int_truediv (a b : Z) : result float :=
  if b =? 0 then Raise ZeroDivisionError
  else
    let sgn := xorb (a <? 0) (b <? 0) in
    if a =? 0 then Ok (S754_zero sgn)
    else
      match nearest sgn (Z.abs a) (Z.abs b) with
      | S754_infinity _ => Raise OverflowError
      | q => Ok q
      end.

(** An amount of money: [+0.0], a positive number of the format, or
    [+inf]. *)
Definition amount (x : float) : bool :=
  match x with
  | S754_zero s => negb s
  | S754_finite s m e => negb s && bounded prec emax m e
  | S754_infinity s => negb s
  | S754_nan => false
  end.

(** Rounding, as [binary_round_aux] does it: [shift m e] is the number
    of low bits that [m * 2^e] loses, [pack] builds the result from the
    rounded mantissa. *)
Definition shift (m e : Z) : Z :=
  Z.max 0 (fexp prec emax (Zdigits2 m + e) - e).

Definition pack (s : bool) (m e : Z) : float :=
  match m with
  | Z0 => S754_zero s
  | Zpos p => if e <=? emax - prec then S754_finite s p e else S754_infinity s
  | Zneg _ => S754_nan
  end.

(** A decimal literal [n / 10^k] denotes the nearest binary64. *)
Definition literal (n : Z) (k : Z) : float := nearest false n (10 ^ k).

End F64.

Abbreviation float := F64.float.

(** ** Configuration (app.py, lines 10-13) *)

Record config : Set := Config {
  PRICE_GPT4 : float;
  PRICE_MINI : float;
  TOKEN_THRESHOLD : Z;
  WARN_COST : float
}.

(** The literals of the source: [0.03], [0.00015], [50], [0.0002]. *)
Definition app_config : config :=
  {| PRICE_GPT4 := S754_finite false 8646911284551352 (-58);
     PRICE_MINI := S754_finite false 5534023222112865 (-65);
     TOKEN_THRESHOLD := 50;
     WARN_COST := S754_finite false 7378697629483821 (-65) |}.

Definition set_WARN_COST (w : float) (cfg : config) : config :=
  {| PRICE_GPT4 := PRICE_GPT4 cfg;
     PRICE_MINI := PRICE_MINI cfg;
     TOKEN_THRESHOLD := TOKEN_THRESHOLD cfg;
     WARN_COST := w |}.

(** ** External packages *)

(** tiktoken: [encoding_for_model] raises [KeyError] on a model it does
    not know; [get_encoding] looks an encoding up by name and can raise as
    well; [encode] turns text into token ids, and raises [ValueError] on
    text that holds a special token such as [<|endoftext|>] (its default,
    [disallowed_special="all"]). *)
Class Tiktoken : Type := {
  Encoding : Type;
  encoding_for_model : string -> result Encoding;
  get_encoding : string -> result Encoding;
  encode : Encoding -> string -> result (list Z);
  decode_single_token_bytes : Encoding -> Z -> string
}.

(** Byte-pair encodings cut the text into non-empty pieces and lose
    nothing: where [encode] returns, the pieces of the tokens, joined,
    are the text. *)
Definition lossless `{Tiktoken} (enc : Encoding) : Prop :=
  forall (text : string) (toks : list Z),
    encode enc text = Ok toks ->
    String.concat EmptyString (map (decode_single_token_bytes enc) toks) = text
    /\ Forall (fun t => decode_single_token_bytes enc t <> EmptyString) toks.

(** presidio: a finding of the analyzer; then the analyzer and the
    anonymizer, both taken to return. *)
Record RecognizerResult : Set := {
  entity_type : string;
  start : Z;
  end_ : Z;
  score : float
}.

Class Presidio : Type := {
  analyze : string -> list string -> string -> list RecognizerResult;
  anonymize : string -> list RecognizerResult -> string
}.

(** ** Helper functions (app.py, lines 20-38) *)

Definition len {A : Type} (l : list A) : Z := Z.of_nat (length l).

(** Only the lookup of the model is inside the [try]; [get_encoding] runs
    in the handler and [encode] after it (line 26), so what they raise
    goes to the caller. *)
Definition get_token_count `{Tiktoken} (text : string) (model : string) : result Z :=
  encoding ← try_except (encoding_for_model model)
               KeyError (get_encoding "cl100k_base");
  toks ← encode encoding text;
  mret (len toks).

Definition entities : list string :=
  ["PHONE_NUMBER"; "EMAIL_ADDRESS"; "CREDIT_CARD"; "US_SSN"].

Definition scan_and_redact `{Presidio} (text : string) : string * Z :=
  let results := analyze text entities "en" in
  let anonymized_result := anonymize text results in
  (anonymized_result, len results).

(** ** The script (app.py, lines 40-130) *)

(** What the script shows: one constructor per Streamlit call. *)
Inductive notice : Set :=
  | st_write (body : string)
  | st_warning (body : string)
  | st_success (body : string)
  | st_error (body : string)
  | st_info (body : string)
  | st_caption (body : string)
  | st_status (label : string)
  | status_update (label : string).

#[global] Instance notice_eq_dec : EqDecision notice.
Proof. solve_decision. Defined.

(** The values of the widgets on one run of the script:
    [st.radio], [st.text_input] and [st.chat_input]. *)
Record widgets : Set := {
  compliance_mode : string;
  api_key : string;
  prompt : option string
}.

Definition Strict : string := "Strict (Block & Redact)".
Definition AuditOnly : string := "Audit Only (Log It)".

(** Truth value of a [str]. *)
Definition truthy (s : string) : bool := negb (String.eqb s EmptyString).

(** Sidebar, session state (lines 55-56): the session total starts at
    [0.0]. *)
Definition sidebar (session_state : gmap string float) : gmap string float :=
  match session_state !! "total_savings" with
  | None => <["total_savings" := F64.zero]> session_state
  | Some _ => session_state
  end.

(** [os.environ[name] = value]: the value goes to [putenv], which raises
    [ValueError] ("embedded null byte") on a value with a NUL byte. *)
Definition has_nul (s : string) : bool :=
  existsb (Ascii.eqb Ascii.zero) (String.list_ascii_of_string s).

Definition setenv (environ : gmap string string) (name value : string)
  : result (gmap string string) :=
  if has_nul value then Raise ValueError else Ok (<[name := value]> environ).

(** Sidebar, key box (lines 61-63): a key that is not empty is written to
    the environment of the process. *)
Definition key_box (w : widgets) (environ : gmap string string)
  : result (gmap string string) :=
  if truthy (api_key w) then setenv environ "OPENAI_API_KEY" (api_key w)
  else Ok environ.

(** The price of [tokens] tokens at [price] per thousand:
    [(tokens / 1000) * price] (lines 71 and 79). *)
Definition est_cost (tokens : Z) (price : float) : result float :=
  per_thousand ← F64.int_truediv tokens 1000;
  mret (F64.mul per_thousand price).

(** 1. Analysis layer (lines 70-73). *)
Record analysis : Set := {
  tokens : Z;
  est_cost_high : float;
  clean_prompt : string;
  pii_count : Z
}.

Definition analysis_layer `{Tiktoken} `{Presidio} (cfg : config) (prompt : string)
  : result analysis :=
  tokens ← get_token_count prompt "gpt-4o";
  est_cost_high ← est_cost tokens (PRICE_GPT4 cfg);
  let '(clean_prompt, pii_count) := scan_and_redact prompt in
  mret {| tokens := tokens; est_cost_high := est_cost_high;
          clean_prompt := clean_prompt; pii_count := pii_count |}.

(** 2. Routing logic (lines 77-86). *)
Record routing : Set := {
  model_used : string;
  est_cost_actual : float;
  route_reason : string;
  savings : float
}.

Definition routing_logic (cfg : config) (tokens : Z) (est_cost_high : float)
  : result routing :=
  chosen ← (if tokens <? TOKEN_THRESHOLD cfg then
              est_cost_actual ← est_cost tokens (PRICE_MINI cfg);
              mret ("gpt-4o-mini", est_cost_actual, "Low complexity (Token count < 50)")
            else
              mret ("gpt-4o", est_cost_high, "High complexity"));
  let '(model_used, est_cost_actual, route_reason) := chosen in
  let savings := F64.sub est_cost_high est_cost_actual in
  mret {| model_used := model_used; est_cost_actual := est_cost_actual;
          route_reason := route_reason; savings := savings |}.

(** [st.session_state.total_savings += savings] (line 87). *)
Definition add_savings (session_state : gmap string float) (savings : float)
  : result (gmap string float) :=
  match session_state !! "total_savings" with
  | Some total => Ok (<["total_savings" := F64.add total savings]> session_state)
  | None => Raise AttributeError
  end.

(** 3. Display of the decision (lines 90-108); it also fixes the text
    that goes on to the model. *)
Definition redaction_notice : notice :=
  st_success "✅ PII Redacted automatically before sending to OpenAI.".

Definition audit_notice : notice :=
  st_error "🛑 Logging violation for Audit. Sending raw data (NOT RECOMMENDED).".

Definition pii_check (compliance_mode prompt clean_prompt : string) (pii_count : Z)
  : string * list notice :=
  if 0 <? pii_count then
    let found := st_warning ("⚠️ **PII DETECTED:** " +:+ pretty pii_count
                             +:+ " sensitive entities found.") in
    if String.eqb compliance_mode Strict then
      (clean_prompt, [found; redaction_notice])
    else
      (prompt, [found; audit_notice])
  else
    (prompt, [st_info "✅ No PII detected. Safe to send."]).

Definition display_decision (compliance_mode prompt : string) (a : analysis) (r : routing)
  : string * list notice :=
  let '(final_prompt, checked) :=
    pii_check compliance_mode prompt (clean_prompt a) (pii_count a) in
  (final_prompt,
   [st_status "🚦 Gateway Processing...";
    st_write ("**Token Audit:** " +:+ pretty (tokens a) +:+ " tokens detected.")]
   ++ checked
   ++ [st_write ("**Routing Decision:** Sending to `" +:+ model_used r +:+ "`");
       st_caption ("Reason: " +:+ route_reason r);
       status_update "Request Authorized & Sent"]).

(** 4. Execution layer (lines 112-130): without a key the prompt is only
    echoed, with one it is sent to the chosen model. *)
Inductive dispatch : Set :=
  | Simulated (model text : string)
  | ChatCompletion (key model text : string).

Definition execution_layer (api_key model_used final_prompt : string) : dispatch :=
  if truthy api_key then ChatCompletion api_key model_used final_prompt
  else Simulated model_used final_prompt.

Definition forwarded (d : dispatch) : string :=
  match d with
  | Simulated _ text => text
  | ChatCompletion _ _ text => text
  end.

(** Everything one processed prompt leaves behind. *)
Record decision : Set := {
  analysed : analysis;
  routed : routing;
  final_prompt : string;
  notices : list notice;
  sent : dispatch
}.

(** The body of [if prompt:] on the session state left by the sidebar. *)
Definition gateway `{Tiktoken} `{Presidio} (cfg : config) (w : widgets)
    (prompt : string) (session_state : gmap string float)
  : result (gmap string float * decision) :=
  a ← analysis_layer cfg prompt;
  r ← routing_logic cfg (tokens a) (est_cost_high a);
  session_state ← add_savings session_state (savings r);
  let '(final_prompt, shown) := display_decision (compliance_mode w) prompt a r in
  mret (session_state,
        {| analysed := a; routed := r; final_prompt := final_prompt;
           notices := shown;
           sent := execution_layer (api_key w) (model_used r) final_prompt |}).

(** One run of the script on the session state: the session part of the
    sidebar (lines 55-56) and the chat input with all that hangs on it
    (lines 66-130).  An exception ends the run; what the sidebar wrote to
    the session state stays.  The key box of the sidebar (lines 61-63)
    works on the environment of the process and is left to [script]
    below, which is the whole run. *)
Definition run `{Tiktoken} `{Presidio} (cfg : config) (w : widgets)
    (session_state : gmap string float)
  : gmap string float * result (option decision) :=
  let session_state := sidebar session_state in
  match prompt w with
  | Some p =>
      if truthy p then
        match gateway cfg w p session_state with
        | Ok (session_state', d) => (session_state', Ok (Some d))
        | Raise e => (session_state, Raise e)
        end
      else (session_state, Ok None)
  | None => (session_state, Ok None)
  end.

(** The session total after the run. *)
Definition total_savings (session_state : gmap string float) : option float :=
  session_state !! "total_savings".

(** What outlives a run: the environment of the process and the session
    state of the browser session. *)
Record process : Type := {
  environ : gmap string string;
  session_state : gmap string float
}.

(** The whole script, top to bottom: the session total is initialised
    (lines 55-56), the key box is read and a key written to the
    environment (lines 61-63), then the chat input is handled (lines
    66-130).  When line 63 raises, the run ends there: the prompt is not
    read.  ([run] begins with the initialisation of the session total,
    which changes nothing when done twice.) *)
Definition script `{Tiktoken} `{Presidio} (cfg : config) (w : widgets) (ps : process)
  : process * result (option decision) :=
  let initialised := sidebar (session_state ps) in
  match key_box w (environ ps) with
  | Raise e => ({| environ := environ ps; session_state := initialised |}, Raise e)
  | Ok environ' =>
      let '(session_state', outcome) := run cfg w initialised in
      ({| environ := environ'; session_state := session_state' |}, outcome)
  end.

(** The session after a list of runs, each with its own widget values. *)
Fixpoint session `{Tiktoken} `{Presidio} (cfg : config) (runs : list widgets)
    (session_state : gmap string float) : gmap string float :=
  match runs with
  | [] => session_state
  | w :: runs => session cfg runs (fst (run cfg w session_state))
  end.

(** ** Test doubles for the external packages

    They let the model run on concrete prompts: a tokenizer with one
    token per byte that knows the model [gpt-4o] only and, as tiktoken
    does, refuses text with the special token [<|endoftext|>]; and a
    recognizer that reports every decimal digit as part of a telephone
    number and blanks it out. *)
Module Fake.

Definition special_token : string := "<|endoftext|>".

Fixpoint contains (needle hay : string) : bool :=
  String.prefix needle hay
  || match hay with
     | EmptyString => false
     | String _ rest => contains needle rest
     end.

Definition bytes (s : string) : list Z :=
  map (fun c => Z.of_N (Ascii.N_of_ascii c)) (String.list_ascii_of_string s).

Definition byte (t : Z) : string :=
  String (Ascii.ascii_of_N (Z.to_N t)) EmptyString.

Definition tiktoken : Tiktoken := {|
  Encoding := string;
  encoding_for_model model :=
    if String.eqb model "gpt-4o" then Ok "o200k_base" else Raise KeyError;
  get_encoding name :=
    if String.eqb name "cl100k_base" || String.eqb name "o200k_base"
    then Ok name else Raise ValueError;
  encode _ text :=
    if contains special_token text then Raise ValueError else Ok (bytes text);
  decode_single_token_bytes _ t := byte t
|}.

Definition is_digit (c : Ascii.ascii) : bool :=
  let n := Ascii.N_of_ascii c in ((48 <=? n) && (n <=? 57))%N.

Fixpoint digits_from (i : Z) (cs : list Ascii.ascii) : list RecognizerResult :=
  match cs with
  | [] => []
  | c :: cs =>
      (if is_digit c
       then [{| entity_type := "PHONE_NUMBER"; start := i; end_ := i + 1;
                score := S754_finite false 4503599627370496 (-52) |}]
       else []) ++ digits_from (i + 1) cs
  end.

Definition blank (c : Ascii.ascii) : Ascii.ascii :=
  if is_digit c then Ascii.ascii_of_N 35 else c.

Definition presidio : Presidio := {|
  analyze text entities language :=
    if existsb (String.eqb "PHONE_NUMBER") entities
    then digits_from 0 (String.list_ascii_of_string text) else [];
  anonymize text results :=
    match results with
    | [] => text
    | _ => String.string_of_list_ascii (map blank (String.list_ascii_of_string text))
    end
|}.

Definition call_me : string := "Call me at 555-0199 about the Project X budget".
Definition hello : string := "Summarise the attached quarterly report".

Definition submit (mode text : string) : widgets :=
  {| compliance_mode := mode; api_key := EmptyString; prompt := Some text |}.

Definition run_fake : config -> widgets -> gmap string float ->
                      gmap string float * result (option decision) :=
  @run tiktoken presidio.

End Fake.

(** ** Observations on a decision *)

(** The script keeps no flags.  What it shows tells the outcomes apart:
    a request is flagged for audit when the logging violation is shown
    (line 100), and redacted when the redaction is reported (line 97). *)
Definition audit_flagged (d : decision) : bool :=
  existsb (fun n => bool_decide (n = audit_notice)) (notices d).

Definition redacted (d : decision) : bool :=
  existsb (fun n => bool_decide (n = redaction_notice)) (notices d).

(** The same widget values under another compliance mode. *)
Definition with_mode (mode : string) (w : widgets) : widgets :=
  {| compliance_mode := mode; api_key := api_key w; prompt := prompt w |}.

(** The two cost variables of a run: [est_cost_high], [est_cost_actual]. *)
Definition costs_computed (est_cost_high : float) (r : routing) : list float :=
  [est_cost_high; est_cost_actual r].

(** The saving on [t] tokens under the shipped configuration is an amount. *)
Definition saving_is_amount (t : Z) : bool :=
  match est_cost t (PRICE_GPT4 app_config) with
  | Ok h =>
      match routing_logic app_config t h with
      | Ok r => F64.amount (savings r)
      | Raise _ => false
      end
  | Raise _ => false
  end.

(** The same widget values with another key in the key box. *)
Definition with_key (key : string) (w : widgets) : widgets :=
  {| compliance_mode := compliance_mode w; api_key := key; prompt := prompt w |}.


(** On [t] tokens under the shipped configuration the actual cost is at
    most the expensive one, and the saving is positive unless [t] is 0. *)
Definition cheap_route_check (t : Z) : bool :=
  match est_cost t (PRICE_GPT4 app_config) with
  | Ok h =>
      match routing_logic app_config t h with
      | Ok r =>
          F64.leb (est_cost_actual r) h
          && Bool.eqb (F64.ltb F64.zero (savings r)) (0 <? t)
      | Raise _ => false
      end
  | Raise _ => false
  end.

(** Rounding to nearest, ties to even, of the fraction [A / B]: what
    [binary_round_aux] does to a mantissa that stands for [A / B]. *)
Definition rne (A B : Z) : Z :=
  A / B + match 2 * (A mod B) ?= B with
          | Lt => 0
          | Eq => if Z.even (A / B) then 0 else 1
          | Gt => 1
          end.

(** A shift record stands for the fraction [A / B]: its mantissa is the
    integer part, its round bit says whether the rest is at least a half,
    its sticky bit whether the rest is neither nothing nor a half. *)
Definition located (mrs : shr_record) (A B : Z) : Prop :=
  0 <= A /\ 0 < B
  /\ shr_m mrs = A / B
  /\ shr_r mrs = (B <=? 2 * (A mod B))
  /\ shr_s mrs = negb (A mod B =? 0) && negb (2 * (A mod B) =? B).

(** Two processed prompts, the first with no more tokens than the second:
    are the costs in the same order? *)
Definition costs_ordered (d1 d2 : decision) : Prop :=
  F64.leb (est_cost_high (analysed d1)) (est_cost_high (analysed d2)) = true
  /\ F64.leb (est_cost_actual (routed d1)) (est_cost_actual (routed d2)) = true.

(** ** Rate tables *)

(** A float as Python has it: a finite one is in canonical form. *)
Definition valid_float (x : float) : bool := valid_binary F64.prec F64.emax x.

Definition finite_float (x : float) : bool :=
  match x with
  | S754_zero _ | S754_finite _ _ _ => true
  | S754_infinity _ | S754_nan => false
  end.

Definition sign_bit (x : float) : bool :=
  match x with
  | S754_zero s | S754_infinity s | S754_finite s _ _ => s
  | S754_nan => false
  end.

(** A correctly ordered rate table: the two rates are finite floats, of
    either sign, and the cheap one is at most the expensive one. *)
Definition rate_table_ordered (cfg : config) : Prop :=
  valid_float (PRICE_MINI cfg) = true
  /\ valid_float (PRICE_GPT4 cfg) = true
  /\ finite_float (PRICE_MINI cfg) = true
  /\ finite_float (PRICE_GPT4 cfg) = true
  /\ F64.leb (PRICE_MINI cfg) (PRICE_GPT4 cfg) = true.

(** An ordered rate table with rates so high that the price of 2000
    tokens is beyond the largest float: both rates are 2^1023. *)
Definition steep_rates : config :=
  {| PRICE_GPT4 := S754_finite false 4503599627370496 971;
     PRICE_MINI := S754_finite false 4503599627370496 971;
     TOKEN_THRESHOLD := 50;
     WARN_COST := WARN_COST app_config |}.

(** More test doubles: a tokenizer whose model lookup fails with an
    exception that is no [KeyError], a prompt of more than 50 bytes, a
    key that is one NUL byte, and a process that has just started. *)
Module Stub.

Definition tiktoken : Tiktoken := {|
  Encoding := string;
  encoding_for_model model := Raise ValueError;
  get_encoding name := Ok name;
  encode _ text := Ok (Fake.bytes text);
  decode_single_token_bytes _ t := Fake.byte t
|}.

Definition long_prompt : string :=
  "Please summarise the attached quarterly report for the board meeting".

Definition nul_key : string := String Ascii.zero EmptyString.

Definition fresh : process := {| environ := ∅; session_state := ∅ |}.

End Stub.

(** One step of the error monad in a proof. *)
Ltac run_step := cbn [mbind result_bind mret result_ret].

(** * Binary64 rounding *)

Section Rounding.

Import F64.

(** The constants of [app_config] are the floats that Python reads from
    the literals [0.03], [0.00015] and [0.0002]. *)
Lemma app_config_literals :
  PRICE_GPT4 app_config = literal 3 2
  /\ PRICE_MINI app_config = literal 15 5
  /\ WARN_COST app_config = literal 2 4.
Proof. vm_compute. repeat split. Qed.

Lemma digits2_pos_size (p : positive) : digits2_pos p = Pos.size p.
Proof. induction p; simpl; congruence. Qed.

Lemma Zdigits2_log2 (m : Z) : 0 < m -> Zdigits2 m = Z.log2 m + 1.
Proof.
  destruct m as [|p|p]; try lia. intros _.
  unfold Zdigits2. rewrite digits2_pos_size.
  destruct p; simpl; lia.
Qed.

Lemma Zdigits2_nonneg (m : Z) : 0 <= Zdigits2 m.
Proof. destruct m; simpl; lia. Qed.

Lemma Zdigits2_pos (m : Z) : 0 < m -> 0 < Zdigits2 m.
Proof. destruct m; simpl; lia. Qed.

Lemma Zdigits2_bounds (m : Z) :
  0 < m -> 2 ^ (Zdigits2 m - 1) <= m < 2 ^ Zdigits2 m.
Proof.
  intros Hm. rewrite Zdigits2_log2 by lia.
  replace (Z.log2 m + 1 - 1) with (Z.log2 m) by lia.
  replace (Z.log2 m + 1) with (Z.succ (Z.log2 m)) by lia.
  apply Z.log2_spec. lia.
Qed.

Lemma Zdigits2_unique (m d : Z) :
  0 < d -> 2 ^ (d - 1) <= m < 2 ^ d -> Zdigits2 m = d.
Proof.
  intros Hd Hm.
  assert (0 < m) by (pose proof (Z.pow_pos_nonneg 2 (d - 1)); lia).
  rewrite Zdigits2_log2 by lia.
  rewrite (Z.log2_unique m (d - 1)); [lia|lia|].
  replace (Z.succ (d - 1)) with d by lia. lia.
Qed.

Lemma Zdigits2_le (a b : Z) : 0 <= a <= b -> Zdigits2 a <= Zdigits2 b.
Proof.
  intros [Ha Hab].
  destruct (Z.eq_dec a 0) as [->|]; [apply Zdigits2_nonneg|].
  rewrite !Zdigits2_log2 by lia.
  pose proof (Z.log2_le_mono a b). lia.
Qed.

Lemma Zdigits2_div_pow2 (m n : Z) :
  0 < m -> 0 <= n < Zdigits2 m -> Zdigits2 (m / 2 ^ n) = Zdigits2 m - n.
Proof.
  intros Hm Hn.
  pose proof (Zdigits2_bounds m Hm) as [Hlo Hhi].
  apply Zdigits2_unique; [lia|].
  assert (0 < 2 ^ n) by (apply Z.pow_pos_nonneg; lia).
  split.
  - apply Z.div_le_lower_bound; [lia|].
    rewrite <- Z.pow_add_r by lia.
    replace (n + (Zdigits2 m - n - 1)) with (Zdigits2 m - 1) by lia. lia.
  - apply Z.div_lt_upper_bound; [lia|].
    rewrite <- Z.pow_add_r by lia.
    replace (n + (Zdigits2 m - n)) with (Zdigits2 m) by lia. lia.
Qed.

Lemma Zdigits2_mul_pow2 (m n : Z) :
  0 < m -> 0 <= n -> Zdigits2 (m * 2 ^ n) = Zdigits2 m + n.
Proof.
  intros Hm Hn.
  pose proof (Zdigits2_bounds m Hm) as [Hlo Hhi].
  pose proof (Zdigits2_pos m Hm).
  assert (0 < 2 ^ n) by (apply Z.pow_pos_nonneg; lia).
  apply Zdigits2_unique; [lia|].
  replace (Zdigits2 m + n - 1) with ((Zdigits2 m - 1) + n) by lia.
  rewrite !Z.pow_add_r by lia. nia.
Qed.

(** Shifting right. *)

Lemma shr_1_m (mrs : shr_record) :
  0 <= shr_m mrs -> shr_m (shr_1 mrs) = shr_m mrs / 2.
Proof.
  destruct mrs as [m r s]. simpl. intros Hm.
  destruct m as [|p|p]; try lia; [reflexivity|].
  destruct p as [p|p|]; simpl shr_m.
  - rewrite Pos2Z.inj_xI. apply (Z.div_unique _ _ _ 1); lia.
  - rewrite Pos2Z.inj_xO. apply (Z.div_unique _ _ _ 0); lia.
  - reflexivity.
Qed.

Lemma iter_shr_1_m (p : positive) (mrs : shr_record) :
  0 <= shr_m mrs -> shr_m (SpecFloat.iter_pos shr_1 p mrs) = shr_m mrs / 2 ^ Z.pos p.
Proof.
  revert mrs. induction p as [p IH|p IH|]; intros mrs Hm; simpl SpecFloat.iter_pos.
  - assert (H1 : 0 <= shr_m (shr_1 mrs)).
    { rewrite shr_1_m by lia. apply Z.div_pos; lia. }
    assert (H2 : 0 <= shr_m (SpecFloat.iter_pos shr_1 p (shr_1 mrs))).
    { rewrite IH by lia. apply Z.div_pos; lia. }
    rewrite IH, IH, shr_1_m by lia.
    rewrite !Z.div_div by lia.
    replace (Z.pos p~1) with (1 + Z.pos p + Z.pos p) by lia.
    rewrite !Z.pow_add_r by lia. f_equal. lia.
  - assert (H2 : 0 <= shr_m (SpecFloat.iter_pos shr_1 p mrs)).
    { rewrite IH by lia. apply Z.div_pos; lia. }
    rewrite IH, IH by lia.
    rewrite !Z.div_div by lia.
    replace (Z.pos p~0) with (Z.pos p + Z.pos p) by lia.
    rewrite !Z.pow_add_r by lia. f_equal.
  - rewrite shr_1_m by lia. reflexivity.
Qed.

Lemma shr_m_shr (mrs : shr_record) (e n : Z) :
  0 <= shr_m mrs ->
  shr_m (fst (shr mrs e n)) = shr_m mrs / 2 ^ Z.max 0 n
  /\ snd (shr mrs e n) = e + Z.max 0 n.
Proof.
  intros Hm. destruct n as [|p|p]; simpl shr; simpl fst; simpl snd.
  - rewrite Z.div_1_r. lia.
  - rewrite iter_shr_1_m by lia. rewrite Z.max_r by lia. lia.
  - rewrite Z.max_l by lia. rewrite Z.div_1_r. lia.
Qed.

Lemma shr_record_of_loc_m (m : Z) (l : location) :
  shr_m (shr_record_of_loc m l) = m.
Proof. destruct l as [|[]]; reflexivity. Qed.

Lemma round_nearest_even_bounds (m : Z) (l : location) :
  m <= round_nearest_even m l <= m + 1.
Proof.
  destruct l as [|[]]; simpl; try lia. destruct (Z.even m); lia.
Qed.

Lemma binary_round_aux_spec (s : bool) (m e : Z) (l : location) :
  0 <= m ->
  exists m1 : Z,
    m / 2 ^ shift m e <= m1 <= m / 2 ^ shift m e + 1
    /\ binary_round_aux prec emax s m e l
       = pack s (m1 / 2 ^ shift m1 (e + shift m e))
                (e + shift m e + shift m1 (e + shift m e)).
Proof.
  intros Hm. unfold binary_round_aux, shr_fexp.
  pose proof (shr_m_shr (shr_record_of_loc m l) e
                (fexp prec emax (Zdigits2 m + e) - e)) as H1.
  rewrite shr_record_of_loc_m in H1. specialize (H1 Hm).
  destruct (shr (shr_record_of_loc m l) e _) as [mrs1 e1].
  simpl in H1. destruct H1 as [H1m H1e]. fold (shift m e) in H1m, H1e.
  set (m1 := round_nearest_even (shr_m mrs1) (loc_of_shr_record mrs1)).
  pose proof (round_nearest_even_bounds (shr_m mrs1) (loc_of_shr_record mrs1)) as Hr.
  fold m1 in Hr. rewrite H1m in Hr.
  assert (0 <= m / 2 ^ shift m e).
  { apply Z.div_pos; [lia|]. apply Z.pow_pos_nonneg; unfold shift; lia. }
  pose proof (shr_m_shr (shr_record_of_loc m1 loc_Exact) e1
                (fexp prec emax (Zdigits2 m1 + e1) - e1)) as H2.
  rewrite shr_record_of_loc_m in H2. specialize (H2 ltac:(lia)).
  destruct (shr (shr_record_of_loc m1 loc_Exact) e1 _) as [mrs2 e2].
  simpl in H2. destruct H2 as [H2m H2e]. fold (shift m1 e1) in H2m, H2e.
  exists m1. split; [lia|].
  rewrite H2m, H2e, H1e. reflexivity.
Qed.

Lemma fexp_eq (k : Z) : fexp prec emax k = Z.max (k - 53) (-1074).
Proof. reflexivity. Qed.

Lemma shift_eq (m e : Z) :
  shift m e = Z.max 0 (Z.max (Zdigits2 m + e - 53) (-1074) - e).
Proof. reflexivity. Qed.

(** In the normal range the result has a full mantissa, and its
    exponent is the one of the exact value or one more. *)
Lemma binary_round_aux_normal (s : bool) (m e : Z) (l : location) :
  0 < m ->
  53 <= Zdigits2 m ->
  (-1074) <= e + Zdigits2 m - 53 ->
  exists (mf : positive) (ef : Z),
    binary_round_aux prec emax s m e l
    = (if ef <=? 971 then S754_finite s mf ef else S754_infinity s)
    /\ Z.pos (digits2_pos mf) = 53
    /\ e + Zdigits2 m - 53 <= ef <= e + Zdigits2 m - 52.
Proof.
  intros Hm Hd He.
  destruct (binary_round_aux_spec s m e l ltac:(lia)) as (m1 & Hm1 & ->).
  set (d := Zdigits2 m) in *.
  assert (Hn : shift m e = d - 53) by (rewrite shift_eq; fold d; lia).
  rewrite Hn in *.
  assert (Hd' : Zdigits2 (m / 2 ^ (d - 53)) = 53).
  { rewrite Zdigits2_div_pow2; fold d; lia. }
  assert (Hq : 0 < m / 2 ^ (d - 53)).
  { destruct (m / 2 ^ (d - 53)) eqn:E; try lia; simpl in Hd'; try discriminate.
    pose proof (Z.div_pos m (2 ^ (d - 53)) ltac:(lia)
                  ltac:(apply Z.pow_pos_nonneg; lia)). lia. }
  pose proof (Zdigits2_bounds _ Hq) as Hb. rewrite Hd' in Hb.
  destruct (Z.eq_dec m1 (2 ^ 53)) as [Hc|Hc].
  - (* the mantissa rounds up to the next binade *)
    assert (Hd1 : Zdigits2 m1 = 54) by (rewrite Hc; reflexivity).
    assert (Hn1 : shift m1 (e + (d - 53)) = 1) by (rewrite shift_eq, Hd1; lia).
    rewrite Hn1, Hc.
    exists (2 ^ 52)%positive, (e + (d - 53) + 1).
    split; [|split]; [reflexivity|reflexivity|lia].
  - assert (Hd1 : Zdigits2 m1 = 53).
    { apply Zdigits2_unique; [lia|]. change (2 ^ 53) with (2 * 2 ^ 52) in *.
      change (2 ^ (53 - 1)) with (2 ^ 52) in *. lia. }
    assert (Hn1 : shift m1 (e + (d - 53)) = 0) by (rewrite shift_eq, Hd1; lia).
    rewrite Hn1, Z.div_1_r, Z.add_0_r.
    destruct m1 as [|p1|p1]; try lia.
    exists p1, (e + (d - 53)).
    split; [|split]; [reflexivity|exact Hd1|lia].
Qed.

Lemma Zdigits2_between (m lo hi : Z) :
  0 <= lo -> 2 ^ lo <= m < 2 ^ hi -> lo < Zdigits2 m <= hi.
Proof.
  intros Hlo [H1 H2].
  assert (0 < m) by (pose proof (Z.pow_pos_nonneg 2 lo); lia).
  pose proof (Zdigits2_bounds m ltac:(lia)) as [H3 H4].
  pose proof (Zdigits2_pos m ltac:(lia)).
  split.
  - apply (Z.pow_lt_mono_r_iff 2); lia.
  - assert (Zdigits2 m - 1 < hi); [|lia].
    apply (Z.pow_lt_mono_r_iff 2); try lia.
    destruct (Z.le_gt_cases 0 hi); [lia|].
    rewrite (Z.pow_neg_r 2 hi) in H2; lia.
Qed.

(** ** Multiplication of two normal numbers *)

Lemma mul_normal (mx my : positive) (ex ey : Z) :
  Z.pos (digits2_pos mx) = 53 ->
  Z.pos (digits2_pos my) = 53 ->
  (-1126) <= ex + ey ->
  ex + ey <= 917 ->
  exists (mf : positive) (ef : Z),
    mul (S754_finite false mx ex) (S754_finite false my ey) = S754_finite false mf ef
    /\ Z.pos (digits2_pos mf) = 53
    /\ ex + ey + 52 <= ef <= ex + ey + 54.
Proof.
  intros Hx Hy Hlo Hhi.
  pose proof (Zdigits2_bounds (Z.pos mx) ltac:(lia)) as Bx.
  pose proof (Zdigits2_bounds (Z.pos my) ltac:(lia)) as By.
  simpl Zdigits2 in Bx, By. rewrite Hx in Bx. rewrite Hy in By.
  change (2 ^ (53 - 1)) with (2 ^ 52) in *.
  assert (Hd : 104 < Zdigits2 (Z.pos (mx * my)) <= 106).
  { apply Zdigits2_between; [lia|]. rewrite Pos2Z.inj_mul.
    change (2 ^ 104) with (2 ^ 52 * 2 ^ 52).
    change (2 ^ 106) with (2 ^ 53 * 2 ^ 53). nia. }
  destruct (binary_round_aux_normal false (Z.pos (mx * my)) (ex + ey) loc_Exact)
    as (mf & ef & Hr & Hdf & Hef); try lia.
  exists mf, ef. unfold mul, SFmul. simpl xorb. rewrite Hr.
  assert ((ef <=? 971) = true) as -> by lia.
  split; [reflexivity|]. split; [exact Hdf|lia].
Qed.

(** ** Division of a token count by 1000 *)

Lemma div_eucl_div (a b : Z) : Z.div_eucl a b = (a / b, a mod b).
Proof. unfold Z.div, Z.modulo. destruct (Z.div_eucl a b); reflexivity. Qed.

Lemma div_core_1000 (t : Z) :
  0 < t ->
  exists (q e : Z) (l : location),
    SFdiv_core_binary prec emax t 0 1000 0 = (q, e, l)
    /\ 0 < q
    /\ 53 <= Zdigits2 q
    /\ (-62) <= e + Zdigits2 q - 53
    /\ (t < 2 ^ 63 -> e + Zdigits2 q - 52 <= 2).
Proof.
  intros Ht. unfold SFdiv_core_binary.
  pose proof (Zdigits2_bounds t ltac:(lia)) as Hb.
  pose proof (Zdigits2_pos t ltac:(lia)) as Hd0.
  set (d := Zdigits2 t) in *.
  change (Zdigits2 1000) with 10. rewrite fexp_eq, div_eucl_div.
  destruct (Z.le_gt_cases d 63) as [Hd|Hd].
  - (* the count is scaled up to 63 bits *)
    replace (Z.min (Z.max (d + 0 - (10 + 0) - 53) (-1074)) (0 - 0)) with (d - 63) by lia.
    replace (0 - 0 - (d - 63)) with (63 - d) by lia.
    set (m' := match 63 - d with
               | 0 => t
               | Z.pos _ => Z.shiftl t (63 - d)
               | Z.neg _ => 0
               end).
    assert (Hm' : m' = t * 2 ^ (63 - d)).
    { subst m'. destruct (63 - d) as [|p|p] eqn:E; try lia.
      apply Z.shiftl_mul_pow2. lia. }
    assert (Hbm : 2 ^ 62 <= m' < 2 ^ 63).
    { rewrite Hm'.
      replace (2 ^ 62) with (2 ^ (d - 1) * 2 ^ (63 - d))
        by (rewrite <- Z.pow_add_r by lia; f_equal; lia).
      replace (2 ^ 63) with (2 ^ d * 2 ^ (63 - d))
        by (rewrite <- Z.pow_add_r by lia; f_equal; lia).
      assert (0 < 2 ^ (63 - d)) by (apply Z.pow_pos_nonneg; lia). nia. }
    clearbody m'.
    pose proof (Z.div_le_mono (2 ^ 62) m' 1000 ltac:(lia) ltac:(lia)) as Hq1.
    pose proof (Z.div_le_mono m' (2 ^ 63) 1000 ltac:(lia) ltac:(lia)) as Hq2.
    change (2 ^ 62 / 1000) with 4611686018427387 in Hq1.
    change (2 ^ 63 / 1000) with 9223372036854775 in Hq2.
    assert (Hq : 2 ^ 52 <= m' / 1000 < 2 ^ 54).
    { change (2 ^ 52) with 4503599627370496.
      change (2 ^ 54) with 18014398509481984. lia. }
    pose proof (Zdigits2_between _ 52 54 ltac:(lia) Hq) as Hdq.
    exists (m' / 1000), (d - 63), (new_location 1000 (m' mod 1000)).
    split; [reflexivity|]. repeat split; lia.
  - (* the count has more than 63 bits *)
    replace (Z.min (Z.max (d + 0 - (10 + 0) - 53) (-1074)) (0 - 0)) with 0 by lia.
    change (0 - 0 - 0) with 0. cbv iota.
    assert (Hq : 2 ^ (d - 11) <= t / 1000 < 2 ^ (d - 9)).
    { assert (0 < 2 ^ (d - 11)) by (apply Z.pow_pos_nonneg; lia).
      assert (E1 : 2 ^ (d - 1) = 1024 * 2 ^ (d - 11)).
      { change 1024 with (2 ^ 10). rewrite <- Z.pow_add_r by lia. f_equal. lia. }
      assert (E2 : 2 ^ d = 2048 * 2 ^ (d - 11)).
      { change 2048 with (2 ^ 11). rewrite <- Z.pow_add_r by lia. f_equal. lia. }
      assert (E3 : 2 ^ (d - 9) = 4 * 2 ^ (d - 11)).
      { change 4 with (2 ^ 2). rewrite <- Z.pow_add_r by lia. f_equal. lia. }
      split.
      - apply Z.div_le_lower_bound; lia.
      - apply Z.div_lt_upper_bound; lia. }
    pose proof (Zdigits2_between _ (d - 11) (d - 9) ltac:(lia) Hq) as Hdq.
    assert (0 < t / 1000).
    { assert (0 < 2 ^ (d - 11)) by (apply Z.pow_pos_nonneg; lia). lia. }
    exists (t / 1000), 0, (new_location 1000 (t mod 1000)).
    split; [reflexivity|]. repeat split; try lia.
    intros Hlt. exfalso.
    assert (2 ^ 63 <= 2 ^ (d - 1)) by (apply Z.pow_le_mono_r; lia). lia.
Qed.

Lemma nearest_1000 (t : Z) :
  0 < t ->
  exists (mf : positive) (ef : Z),
    nearest false t 1000
    = (if ef <=? 971 then S754_finite false mf ef else S754_infinity false)
    /\ Z.pos (digits2_pos mf) = 53
    /\ (-62) <= ef
    /\ (t < 2 ^ 63 -> ef <= 2).
Proof.
  intros Ht. unfold nearest.
  destruct (div_core_1000 t Ht) as (q & e & l & -> & Hq & Hd & Hlo & Hhi).
  destruct (binary_round_aux_normal false q e l)
    as (mf & ef & Hr & Hdf & Hef); try lia.
  exists mf, ef. rewrite Hr. repeat split; try lia.
Qed.

(** Where [tokens / 1000] has a value, it is a normal number. *)
Lemma int_truediv_1000 (t : Z) :
  0 < t ->
  (t < 2 ^ 63 \/ exists q, int_truediv t 1000 = Ok q) ->
  exists (mf : positive) (ef : Z),
    int_truediv t 1000 = Ok (S754_finite false mf ef)
    /\ Z.pos (digits2_pos mf) = 53
    /\ (-62) <= ef <= 971.
Proof.
  intros Ht Hok. destruct (nearest_1000 t Ht) as (mf & ef & Hn & Hd & Hlo & Hhi).
  exists mf, ef.
  assert (E : int_truediv t 1000 =
              match nearest false t 1000 with
              | S754_infinity _ => Raise OverflowError
              | q => Ok q
              end).
  { unfold int_truediv. cbv zeta. change (1000 =? 0) with false. cbv iota.
    assert ((t <? 0) = false) as -> by lia.
    assert ((t =? 0) = false) as -> by lia.
    change (xorb false (1000 <? 0)) with false.
    rewrite Z.abs_eq by lia. reflexivity. }
  rewrite E, Hn in *.
  destruct (Z.leb_spec ef 971) as [Hfin|Hinf].
  - split; [reflexivity|]. split; [exact Hd|lia].
  - exfalso. destruct Hok as [Hok|[q Hok]]; [lia|discriminate].
Qed.

Lemma int_truediv_0 : int_truediv 0 1000 = Ok zero.
Proof. reflexivity. Qed.

(** ** Addition of amounts *)

Lemma pos_iter_xO (m d : positive) :
  Z.pos (Pos.iter xO m d) = Z.pos m * 2 ^ Z.pos d.
Proof.
  induction d as [|d IH] using Pos.peano_ind.
  - simpl. lia.
  - rewrite Pos.iter_succ, Pos2Z.inj_xO, IH, Pos2Z.inj_succ, Z.pow_succ_r by lia. lia.
Qed.

Lemma shl_align_fst (m : positive) (e e' : Z) :
  e' <= e -> Z.pos (fst (shl_align m e e')) = Z.pos m * 2 ^ (e - e').
Proof.
  intros H. unfold shl_align.
  destruct (e' - e) as [|d|d] eqn:E; try lia; simpl fst.
  - replace (e - e') with 0 by lia. lia.
  - rewrite pos_iter_xO. f_equal. f_equal. lia.
Qed.

Lemma shl_align_id (m : positive) (e e' : Z) :
  e <= e' -> shl_align m e e' = (m, e).
Proof.
  intros H. unfold shl_align. destruct (e' - e) eqn:E; try lia; reflexivity.
Qed.

Lemma bounded_spec (m : positive) (e : Z) :
  bounded prec emax m e = true <->
  Z.max (Z.pos (digits2_pos m) + e - 53) (-1074) = e /\ e <= 971.
Proof.
  unfold bounded, canonical_mantissa. rewrite fexp_eq.
  change (emax - prec) with 971.
  rewrite andb_true_iff, Z.eqb_eq, Z.leb_le. reflexivity.
Qed.

Lemma compare_finite_le (m1 m2 : positive) (e1 e2 : Z) :
  e1 < e2 \/ (e1 = e2 /\ (m1 <= m2)%positive) ->
  leb (S754_finite false m1 e1) (S754_finite false m2 e2) = true.
Proof.
  intros H. unfold leb, SFleb, SFcompare.
  destruct (Z.compare_spec e1 e2) as [E|E|E]; try reflexivity; try lia.
  destruct H as [H|[_ H]]; [lia|].
  change (Pos.compare_cont Eq m1 m2) with (Pos.compare m1 m2).
  destruct (Pos.compare_spec m1 m2); try reflexivity. lia.
Qed.

(** The sum of two positive numbers of the format, rounded, is a number
    of the format (or infinity) that is not below the first one. *)
Lemma add_finite (mx my : positive) (ex ey : Z) :
  bounded prec emax mx ex = true ->
  bounded prec emax my ey = true ->
  amount (add (S754_finite false mx ex) (S754_finite false my ey)) = true
  /\ leb (S754_finite false mx ex)
         (add (S754_finite false mx ex) (S754_finite false my ey)) = true.
Proof.
  intros Bx By. apply bounded_spec in Bx, By.
  destruct Bx as [Cx Ex], By as [Cy Ey].
  unfold add, SFadd. simpl cond_Zopp.
  set (ez := Z.min ex ey).
  rewrite !shl_align_fst by lia.
  set (M := Z.pos mx * 2 ^ (ex - ez) + Z.pos my * 2 ^ (ey - ez)).
  assert (Px : 0 < 2 ^ (ex - ez)) by (apply Z.pow_pos_nonneg; lia).
  assert (Py : 0 < 2 ^ (ey - ez)) by (apply Z.pow_pos_nonneg; lia).
  assert (HMx : Z.pos mx * 2 ^ (ex - ez) <= M) by (subst M; nia).
  assert (HMy : Z.pos my * 2 ^ (ey - ez) <= M) by (subst M; nia).
  assert (HM : 0 < M) by nia.
  assert (Hx0 : 0 <= Z.pos mx * 2 ^ (ex - ez)) by nia.
  assert (Hy0 : 0 <= Z.pos my * 2 ^ (ey - ez)) by nia.
  pose proof (Zdigits2_le _ _ (conj Hx0 HMx)) as Dx.
  pose proof (Zdigits2_le _ _ (conj Hy0 HMy)) as Dy.
  rewrite Zdigits2_mul_pow2 in Dx, Dy by lia.
  simpl Zdigits2 in Dx, Dy.
  clearbody M. destruct M as [|pM|pM]; try lia.
  unfold binary_normalize, binary_round.
  change (Z.pos (digits2_pos pM)) with (Zdigits2 (Z.pos pM)).
  set (dM := Zdigits2 (Z.pos pM)) in *.
  assert (He1 : ez <= fexp prec emax (dM + ez)) by (rewrite fexp_eq; lia).
  rewrite shl_align_id by exact He1.
  set (M := Z.pos pM) in *.
  destruct (binary_round_aux_spec false M ez loc_Exact ltac:(lia))
    as (m1 & Hm1 & ->).
  assert (Hn : shift M ez = Z.max (dM - 53) (-1074 - ez)).
  { rewrite shift_eq. fold dM. lia. }
  set (n := shift M ez) in *.
  assert (HdM : 0 < dM) by (apply Zdigits2_pos; lia).
  assert (Hn0 : 0 <= n < dM) by lia.
  assert (Pn : 0 < 2 ^ n) by (apply Z.pow_pos_nonneg; lia).
  assert (Hd' : Zdigits2 (M / 2 ^ n) = dM - n).
  { apply Zdigits2_div_pow2; fold dM; lia. }
  assert (HM' : 0 < M / 2 ^ n).
  { destruct (M / 2 ^ n) eqn:E; try lia; simpl in Hd'; try lia.
    pose proof (Z.div_pos M (2 ^ n) ltac:(lia) Pn). lia. }
  assert (Hm1pos : 0 < m1) by lia.
  pose proof (Zdigits2_le (M / 2 ^ n) m1 ltac:(lia)) as Hd1.
  rewrite Hd' in Hd1.
  set (e1 := ez + n) in *.
  set (d1 := Zdigits2 m1) in *.
  assert (Hn2 : shift m1 e1 = Z.max (d1 + e1 - 53) (-1074) - e1).
  { rewrite shift_eq. fold d1. lia. }
  set (n2 := shift m1 e1) in *.
  assert (Hn2' : 0 <= n2 < d1) by lia.
  assert (Pn2 : 0 < 2 ^ n2) by (apply Z.pow_pos_nonneg; lia).
  assert (Hdf : Zdigits2 (m1 / 2 ^ n2) = d1 - n2).
  { apply Zdigits2_div_pow2; fold d1; lia. }
  assert (Hmf : 0 < m1 / 2 ^ n2).
  { destruct (m1 / 2 ^ n2) eqn:E; try lia; simpl in Hdf; try lia.
    pose proof (Z.div_pos m1 (2 ^ n2) ltac:(lia) Pn2). lia. }
  destruct (m1 / 2 ^ n2) as [|pf|pf] eqn:Ef; try lia.
  simpl Zdigits2 in Hdf. unfold pack. change (emax - prec) with 971.
  destruct (Z.leb_spec (e1 + n2) 971) as [Hfin|Hinf].
  - split.
    + simpl. apply bounded_spec. lia.
    + apply compare_finite_le.
      destruct (Z.eq_dec ex (e1 + n2)) as [Heq|Hne]; [right|left; lia].
      split; [exact Heq|].
      assert (n2 = 0) by lia. assert (n = ex - ez) by lia.
      assert (Hm1' : m1 = Z.pos pf).
      { rewrite <- Ef. replace n2 with 0 by lia. rewrite Z.div_1_r. reflexivity. }
      assert (Z.pos mx <= M / 2 ^ n).
      { apply Z.div_le_lower_bound; [lia|]. replace n with (ex - ez) by lia. lia. }
      lia.
  - split; reflexivity.
Qed.

Lemma leb_refl_finite (m : positive) (e : Z) :
  leb (S754_finite false m e) (S754_finite false m e) = true.
Proof. apply compare_finite_le. right. split; [reflexivity|lia]. Qed.

Lemma add_comm (x y : float) : add x y = add y x.
Proof.
  destruct x as [sx|sx| |sx mx ex], y as [sy|sy| |sy my ey];
    try reflexivity; try (destruct sx, sy; reflexivity).
  unfold add, SFadd. rewrite (Z.min_comm ex ey).
  f_equal. apply Z.add_comm.
Qed.

Lemma add_zero_l (d : float) : amount d = true -> add zero d = d.
Proof. destruct d as [[]|[]| |[] m e]; intros Hd; try discriminate Hd; reflexivity. Qed.

Lemma leb_zero_amount (d : float) : amount d = true -> leb zero d = true.
Proof. destruct d as [[]|[]| |[] m e]; intros Hd; try discriminate Hd; reflexivity. Qed.

Lemma add_amount (a b : float) :
  amount a = true -> amount b = true ->
  amount (add a b) = true /\ leb a (add a b) = true.
Proof.
  destruct a as [[]|[]| |[] ma ea]; try discriminate;
    destruct b as [[]|[]| |[] mb eb]; try discriminate;
    intros Ha Hb; try (split; [exact Hb|reflexivity]);
    try (split; reflexivity).
  - split; [exact Ha|apply leb_refl_finite].
  - apply add_finite; [exact Ha|exact Hb].
Qed.

Lemma sub_self (s : bool) (m : positive) (e : Z) :
  sub (S754_finite s m e) (S754_finite s m e) = zero.
Proof.
  unfold sub, SFsub. rewrite Z.min_id, shl_align_id by lia.
  simpl fst. rewrite Z.sub_diag. reflexivity.
Qed.

(** ** The price of a prompt *)

Lemma est_cost_eq (t : Z) (q price : float) :
  int_truediv t 1000 = Ok q -> est_cost t price = Ok (mul q price).
Proof. intros E. unfold est_cost. rewrite E. reflexivity. Qed.

Lemma est_cost_inv (t : Z) (price c : float) :
  est_cost t price = Ok c ->
  exists q, int_truediv t 1000 = Ok q /\ c = mul q price.
Proof.
  unfold est_cost. destruct (int_truediv t 1000) as [q|e]; [|discriminate].
  intros [= <-]. eauto.
Qed.

Lemma est_cost_ok (t : Z) (price : float) :
  0 <= t < 2 ^ 63 ->
  exists q, int_truediv t 1000 = Ok q /\ est_cost t price = Ok (mul q price).
Proof.
  intros Ht. destruct (Z.eq_dec t 0) as [->|Hne].
  - exists zero. split; reflexivity.
  - destruct (int_truediv_1000 t ltac:(lia) ltac:(left; lia)) as (mf & ef & E & _).
    eexists. split; [exact E|]. apply est_cost_eq, E.
Qed.

(** At a price that is a normal number the cost of a positive count
    is a normal number, with an exponent close to the sum of the two. *)
Lemma mul_price (mq mp : positive) (eq ep : Z) :
  Z.pos (digits2_pos mq) = 53 ->
  Z.pos (digits2_pos mp) = 53 ->
  (-62) <= eq <= 971 ->
  (-1064) <= ep <= -54 ->
  exists (mf : positive) (ef : Z),
    mul (S754_finite false mq eq) (S754_finite false mp ep) = S754_finite false mf ef
    /\ amount (S754_finite false mf ef) = true
    /\ eq + ep + 52 <= ef <= eq + ep + 54.
Proof.
  intros Hq Hp Heq Hep.
  destruct (mul_normal mq mp eq ep Hq Hp) as (mf & ef & E & Hd & He); try lia.
  exists mf, ef. split; [exact E|]. split; [|lia].
  simpl. apply bounded_spec. lia.
Qed.

End Rounding.

(** * Rounding is monotone *)

Section Monotone.

Import F64.

Lemma shr_1_r (mrs : shr_record) :
  0 <= shr_m mrs -> shr_r (shr_1 mrs) = Z.odd (shr_m mrs).
Proof.
  destruct mrs as [m r s]. simpl. intros Hm.
  destruct m as [|[p|p|]|p]; try lia; reflexivity.
Qed.

Lemma shr_1_s (mrs : shr_record) :
  shr_s (shr_1 mrs) = shr_r mrs || shr_s mrs.
Proof. destruct mrs as [m r s]. simpl. destruct m as [|[p|p|]|[p|p|]]; reflexivity. Qed.

Lemma located_shr_1 (mrs : shr_record) (A B : Z) :
  located mrs A B -> located (shr_1 mrs) A (B * 2).
Proof.
  intros (HA & HB & Hm & Hr & Hs).
  pose proof (Z.mod_pos_bound A B HB) as Hrem.
  assert (Hq : 0 <= A / B) by (apply Z.div_pos; lia).
  assert (Hmod : A mod (B * 2) = A mod B + B * ((A / B) mod 2)).
  { apply Z.rem_mul_r; lia. }
  rewrite Zmod_odd in Hmod.
  unfold located. rewrite shr_1_m, shr_1_r, shr_1_s by lia.
  rewrite Hm, Hr, Hs, Hmod, <- Z.div_div by lia.
  split; [exact HA|]. split; [lia|]. split; [reflexivity|].
  destruct (Z.odd (A / B));
    repeat match goal with
           | |- context [?a =? ?b] => destruct (Z.eqb_spec a b)
           | |- context [?a <=? ?b] => destruct (Z.leb_spec a b)
           end; simpl; split; try reflexivity; lia.
Qed.

Lemma located_B (mrs : shr_record) (A B B' : Z) :
  B = B' -> located mrs A B -> located mrs A B'.
Proof. intros ->. exact id. Qed.

Lemma located_iter (A : Z) (p : positive) :
  forall (mrs : shr_record) (B : Z),
    located mrs A B -> located (SpecFloat.iter_pos shr_1 p mrs) A (B * 2 ^ Z.pos p).
Proof.
  induction p as [p IH|p IH|]; intros mrs B H; simpl SpecFloat.iter_pos.
  - apply (located_B _ _ (B * 2 * 2 ^ Z.pos p * 2 ^ Z.pos p)).
    + replace (Z.pos p~1) with (1 + Z.pos p + Z.pos p) by lia.
      rewrite !Z.pow_add_r by lia. change (2 ^ 1) with 2. ring.
    + apply IH, IH, located_shr_1, H.
  - apply (located_B _ _ (B * 2 ^ Z.pos p * 2 ^ Z.pos p)).
    + replace (Z.pos p~0) with (Z.pos p + Z.pos p) by lia.
      rewrite !Z.pow_add_r by lia. ring.
    + apply IH, IH, H.
  - apply (located_B _ _ (B * 2)); [reflexivity|]. apply located_shr_1, H.
Qed.

Lemma located_shr (mrs : shr_record) (A B e n : Z) :
  located mrs A B -> located (fst (shr mrs e n)) A (B * 2 ^ Z.max 0 n).
Proof.
  intros H. destruct n as [|p|p]; simpl shr; simpl fst.
  - apply (located_B _ _ B); [rewrite Z.max_l, Z.pow_0_r by lia; lia|exact H].
  - rewrite Z.max_r by lia. apply located_iter, H.
  - apply (located_B _ _ B); [rewrite Z.max_l, Z.pow_0_r by lia; lia|exact H].
Qed.

Lemma located_rne (mrs : shr_record) (A B : Z) :
  located mrs A B ->
  round_nearest_even (shr_m mrs) (loc_of_shr_record mrs) = rne A B.
Proof.
  intros (HA & HB & Hm & Hr & Hs). destruct mrs as [m r s].
  simpl in Hm, Hr, Hs. subst m. unfold rne.
  revert Hr Hs.
  destruct (Z.compare_spec (2 * (A mod B)) B) as [E|E|E];
    destruct (Z.leb_spec B (2 * (A mod B))); try lia;
    destruct (Z.eqb_spec (2 * (A mod B)) B); try lia;
    destruct (Z.eqb_spec (A mod B) 0); try lia;
    intros -> ->; simpl; try lia.
  destruct (Z.even (A / B)); simpl; lia.
Qed.

Lemma located_exact (m : Z) :
  0 <= m -> located (shr_record_of_loc m loc_Exact) m 1.
Proof.
  intros Hm. unfold located. simpl. rewrite Z.div_1_r, Z.mod_1_r.
  repeat split; lia.
Qed.

Lemma located_new_location (A B : Z) :
  0 <= A -> 0 < B -> Z.even B = true ->
  located (shr_record_of_loc (A / B) (new_location B (A mod B))) A B.
Proof.
  intros HA HB Hev. unfold new_location. rewrite Hev. unfold new_location_even.
  pose proof (Z.mod_pos_bound A B HB) as Hrem.
  unfold located.
  destruct (Z.eqb_spec (A mod B) 0) as [E0|E0].
  - simpl. rewrite E0. repeat split; lia.
  - destruct (Z.compare_spec (2 * (A mod B)) B) as [E|E|E]; simpl;
      destruct (Z.leb_spec B (2 * (A mod B))); try lia;
      destruct (Z.eqb_spec (2 * (A mod B)) B); try lia;
      repeat split; lia.
Qed.

Lemma rne_bounds (A B : Z) : A / B <= rne A B <= A / B + 1.
Proof.
  unfold rne. destruct (2 * (A mod B) ?= B); [destruct (Z.even (A / B))| |]; lia.
Qed.

(** Rounding fractions to nearest even keeps their order. *)
Lemma rne_mono (A1 B1 A2 B2 : Z) :
  0 < B1 -> 0 < B2 -> A1 * B2 <= A2 * B1 -> rne A1 B1 <= rne A2 B2.
Proof.
  intros HB1 HB2 Hle.
  pose proof (Z.div_mod A1 B1 ltac:(lia)) as E1.
  pose proof (Z.div_mod A2 B2 ltac:(lia)) as E2.
  pose proof (Z.mod_pos_bound A1 B1 HB1) as R1.
  pose proof (Z.mod_pos_bound A2 B2 HB2) as R2.
  pose proof (rne_bounds A1 B1) as N1.
  pose proof (rne_bounds A2 B2) as N2.
  set (q1 := A1 / B1) in *. set (q2 := A2 / B2) in *.
  set (r1 := A1 mod B1) in *. set (r2 := A2 mod B2) in *.
  assert (Hq : q1 <= q2).
  { destruct (Z.le_gt_cases q1 q2) as [H|H]; [exact H|exfalso].
    assert (B1 * (q2 + 1) <= B1 * q1) by nia.
    assert (A2 * B1 < (B1 * (q2 + 1)) * B2) by nia.
    assert ((B1 * (q2 + 1)) * B2 <= A1 * B2) by nia.
    lia. }
  destruct (Z.eq_dec q1 q2) as [Heq|Hne]; [|lia].
  assert (Hr : r1 * B2 <= r2 * B1) by nia.
  unfold rne. fold q1 q2 r1 r2. rewrite <- Heq.
  destruct (Z.compare_spec (2 * r1) B1) as [C1|C1|C1];
    destruct (Z.compare_spec (2 * r2) B2) as [C2|C2|C2];
    destruct (Z.even q1); try lia; exfalso; nia.
Qed.

Lemma binary_round_aux_rne (s : bool) (m e : Z) (l : location) (A B : Z) :
  located (shr_record_of_loc m l) A B ->
  binary_round_aux prec emax s m e l
  = pack s (rne A (B * 2 ^ shift m e)
            / 2 ^ shift (rne A (B * 2 ^ shift m e)) (e + shift m e))
           (e + shift m e + shift (rne A (B * 2 ^ shift m e)) (e + shift m e)).
Proof.
  intros Hloc.
  assert (Hm : 0 <= m).
  { destruct Hloc as (HA & HB & Hm & _). rewrite shr_record_of_loc_m in Hm.
    rewrite Hm. apply Z.div_pos; lia. }
  unfold binary_round_aux, shr_fexp.
  pose proof (shr_m_shr (shr_record_of_loc m l) e
                (fexp prec emax (Zdigits2 m + e) - e)) as H1.
  rewrite shr_record_of_loc_m in H1. specialize (H1 Hm).
  pose proof (located_shr _ _ _ e (fexp prec emax (Zdigits2 m + e) - e) Hloc) as L1.
  destruct (shr (shr_record_of_loc m l) e _) as [mrs1 e1].
  simpl in H1, L1. destruct H1 as [H1m H1e]. fold (shift m e) in H1m, H1e, L1.
  rewrite (located_rne _ _ _ L1).
  set (m1 := rne A (B * 2 ^ shift m e)).
  assert (Hm1 : 0 <= m1).
  { pose proof (rne_bounds A (B * 2 ^ shift m e)) as Hb. fold m1 in Hb.
    destruct L1 as (HA & HB & _).
    pose proof (Z.div_pos A (B * 2 ^ shift m e) HA HB). lia. }
  pose proof (shr_m_shr (shr_record_of_loc m1 loc_Exact) e1
                (fexp prec emax (Zdigits2 m1 + e1) - e1)) as H2.
  rewrite shr_record_of_loc_m in H2. specialize (H2 Hm1).
  destruct (shr (shr_record_of_loc m1 loc_Exact) e1 _) as [mrs2 e2].
  simpl in H2. destruct H2 as [H2m H2e]. fold (shift m1 e1) in H2m, H2e.
  rewrite H2m, H2e, H1e. reflexivity.
Qed.

(** In the normal range: the mantissa is the fraction, scaled into
    [2^52, 2^53) and rounded to nearest even; when it rounds up to 2^53
    the result is the first number of the next binade. *)
Lemma round_normal (s : bool) (m e : Z) (l : location) (A B : Z) :
  located (shr_record_of_loc m l) A B ->
  0 < m -> 53 <= Zdigits2 m -> (-1074) <= e + Zdigits2 m - 53 ->
  2 ^ 52 * (B * 2 ^ (Zdigits2 m - 53)) <= A < 2 ^ 53 * (B * 2 ^ (Zdigits2 m - 53))
  /\ 2 ^ 52 <= rne A (B * 2 ^ (Zdigits2 m - 53)) <= 2 ^ 53
  /\ binary_round_aux prec emax s m e l
     = (if rne A (B * 2 ^ (Zdigits2 m - 53)) =? 2 ^ 53
        then pack s (2 ^ 52) (e + (Zdigits2 m - 53) + 1)
        else pack s (rne A (B * 2 ^ (Zdigits2 m - 53))) (e + (Zdigits2 m - 53))).
Proof.
  intros Hloc Hm Hd He.
  rewrite (binary_round_aux_rne s m e l A B Hloc).
  destruct Hloc as (HA & HB & Hq & _). rewrite shr_record_of_loc_m in Hq.
  set (d := Zdigits2 m) in *.
  assert (Hn : shift m e = d - 53) by (rewrite shift_eq; fold d; lia).
  rewrite Hn.
  assert (Pn : 0 < 2 ^ (d - 53)) by (apply Z.pow_pos_nonneg; lia).
  set (D := B * 2 ^ (d - 53)) in *.
  assert (HD : 0 < D) by (subst D; nia).
  assert (Hfl : A / D = m / 2 ^ (d - 53)).
  { subst D. rewrite <- Z.div_div by lia. rewrite Hq. reflexivity. }
  assert (Hd' : Zdigits2 (A / D) = 53).
  { rewrite Hfl, Zdigits2_div_pow2; fold d; lia. }
  assert (Hpos : 0 < A / D).
  { destruct (A / D) eqn:E; try lia; simpl in Hd'; try discriminate.
    pose proof (Z.div_pos A D HA HD). lia. }
  pose proof (Zdigits2_bounds _ Hpos) as Hb. rewrite Hd' in Hb.
  change (2 ^ (53 - 1)) with (2 ^ 52) in Hb.
  pose proof (Z.div_mod A D ltac:(lia)) as EA.
  pose proof (Z.mod_pos_bound A D HD) as RA.
  pose proof (rne_bounds A D) as Hr.
  set (m1 := rne A D) in *.
  split; [|split].
  - change (2 ^ 53) with 9007199254740992 in *.
    change (2 ^ 52) with 4503599627370496 in *. nia.
  - lia.
  - destruct (Z.eqb_spec m1 (2 ^ 53)) as [Hc|Hc].
    + assert (Hd1 : Zdigits2 m1 = 54) by (rewrite Hc; reflexivity).
      assert (Hn1 : shift m1 (e + (d - 53)) = 1) by (rewrite shift_eq, Hd1; lia).
      rewrite Hn1, Hc. reflexivity.
    + assert (Hd1 : Zdigits2 m1 = 53).
      { apply Zdigits2_unique; [lia|]. change (2 ^ 53) with (2 * 2 ^ 52) in *.
        change (2 ^ (53 - 1)) with (2 ^ 52) in *. lia. }
      assert (Hn1 : shift m1 (e + (d - 53)) = 0) by (rewrite shift_eq, Hd1; lia).
      rewrite Hn1, Z.div_1_r, Z.add_0_r. reflexivity.
Qed.

Lemma pack_finite_inv (s s' : bool) (m e : Z) (mf : positive) (ef : Z) :
  pack s m e = S754_finite s' mf ef -> m = Z.pos mf /\ e = ef.
Proof.
  unfold pack. destruct m as [|p|p]; try discriminate.
  destruct (e <=? emax - prec); [|discriminate].
  intros [= _ -> ->]. split; reflexivity.
Qed.

(** Two roundings in the normal range: when the exact values are in
    order, so are the results. *)
Lemma round_mono (m1 e1 : Z) (l1 : location) (A1 B1 : Z)
    (m2 e2 : Z) (l2 : location) (A2 B2 c : Z)
    (mf1 mf2 : positive) (ef1 ef2 : Z) :
  located (shr_record_of_loc m1 l1) A1 B1 ->
  0 < m1 -> 53 <= Zdigits2 m1 -> (-1074) <= e1 + Zdigits2 m1 - 53 ->
  located (shr_record_of_loc m2 l2) A2 B2 ->
  0 < m2 -> 53 <= Zdigits2 m2 -> (-1074) <= e2 + Zdigits2 m2 - 53 ->
  c <= e1 -> c <= e2 ->
  A1 * B2 * 2 ^ (e1 - c) <= A2 * B1 * 2 ^ (e2 - c) ->
  binary_round_aux prec emax false m1 e1 l1 = S754_finite false mf1 ef1 ->
  binary_round_aux prec emax false m2 e2 l2 = S754_finite false mf2 ef2 ->
  ef1 < ef2 \/ (ef1 = ef2 /\ (mf1 <= mf2)%positive).
Proof.
  intros L1 Hm1 Hd1 He1 L2 Hm2 Hd2 He2 Hc1 Hc2 Hle R1 R2.
  destruct (round_normal false m1 e1 l1 A1 B1 L1 Hm1 Hd1 He1) as (HA1 & HM1 & E1).
  destruct (round_normal false m2 e2 l2 A2 B2 L2 Hm2 Hd2 He2) as (HA2 & HM2 & E2).
  rewrite E1 in R1. rewrite E2 in R2. clear E1 E2.
  destruct L1 as (_ & HB1 & _). destruct L2 as (_ & HB2 & _).
  set (n1 := Zdigits2 m1 - 53) in *. set (n2 := Zdigits2 m2 - 53) in *.
  assert (PN1 : 0 < 2 ^ n1) by (apply Z.pow_pos_nonneg; lia).
  assert (PN2 : 0 < 2 ^ n2) by (apply Z.pow_pos_nonneg; lia).
  assert (PP1 : 0 < 2 ^ (e1 - c)) by (apply Z.pow_pos_nonneg; lia).
  assert (PP2 : 0 < 2 ^ (e2 - c)) by (apply Z.pow_pos_nonneg; lia).
  assert (Q1 : 2 ^ (e1 + n1 - c) = 2 ^ (e1 - c) * 2 ^ n1).
  { rewrite <- Z.pow_add_r by lia. f_equal. lia. }
  assert (Q2 : 2 ^ (e2 + n2 - c) = 2 ^ (e2 - c) * 2 ^ n2).
  { rewrite <- Z.pow_add_r by lia. f_equal. lia. }
  set (D1 := B1 * 2 ^ n1) in *. set (D2 := B2 * 2 ^ n2) in *.
  assert (PD1 : 0 < D1) by (subst D1; nia).
  assert (PD2 : 0 < D2) by (subst D2; nia).
  assert (Hstar : A1 * D2 * 2 ^ (e1 + n1 - c) <= A2 * D1 * 2 ^ (e2 + n2 - c)).
  { rewrite Q1, Q2. subst D1 D2.
    replace (A1 * (B2 * 2 ^ n2) * (2 ^ (e1 - c) * 2 ^ n1))
      with (A1 * B2 * 2 ^ (e1 - c) * (2 ^ n1 * 2 ^ n2)) by ring.
    replace (A2 * (B1 * 2 ^ n1) * (2 ^ (e2 - c) * 2 ^ n2))
      with (A2 * B1 * 2 ^ (e2 - c) * (2 ^ n1 * 2 ^ n2)) by ring.
    apply Z.mul_le_mono_nonneg_r; [nia|exact Hle]. }
  set (E1 := e1 + n1) in *. set (E2 := e2 + n2) in *.
  change (2 ^ 53) with (2 * 2 ^ 52) in *.
  assert (PK : 0 < 2 ^ 52) by reflexivity.
  set (K := 2 ^ 52) in *.
  assert (Hord : E1 < E2 \/ (E1 = E2 /\ rne A1 D1 <= rne A2 D2)).
  { destruct (Z.lt_trichotomy E1 E2) as [H|[H|H]]; [left; exact H| |exfalso].
    - right. split; [exact H|]. apply rne_mono; try lia.
      rewrite H in Hstar.
      assert (PQ : 0 < 2 ^ (E2 - c)) by (apply Z.pow_pos_nonneg; lia).
      nia.
    - assert (PQ : 0 < 2 ^ (E2 - c)) by (apply Z.pow_pos_nonneg; lia).
      assert (HQ : 2 * 2 ^ (E2 - c) <= 2 ^ (E1 - c)).
      { replace (E1 - c) with ((E1 - E2) + (E2 - c)) by lia.
        rewrite Z.pow_add_r by lia.
        assert (2 ^ 1 <= 2 ^ (E1 - E2)) by (apply Z.pow_le_mono_r; lia).
        change (2 ^ 1) with 2 in *. nia. }
      clearbody K D1 D2 E1 E2. clear Q1 Q2 Hle R1 R2.
      set (X := 2 ^ (E1 - c)) in *. set (Y := 2 ^ (E2 - c)) in *. clearbody X Y.
      assert (A2 * D1 * Y < 2 * K * D2 * D1 * Y).
      { apply Z.mul_lt_mono_pos_r; [lia|].
        apply Z.mul_lt_mono_pos_r; [lia|]. lia. }
      assert (K * D1 * D2 * (2 * Y) <= A1 * D2 * X).
      { transitivity (A1 * D2 * (2 * Y)).
        - apply Z.mul_le_mono_nonneg_r; [lia|].
          apply Z.mul_le_mono_nonneg_r; [lia|]. lia.
        - apply Z.mul_le_mono_nonneg_l; [nia|lia]. }
      nia. }
  set (M1 := rne A1 D1) in *. set (M2 := rne A2 D2) in *.
  clearbody M1 M2 E1 E2 K.
  destruct (Z.eqb_spec M1 (2 * K)) as [C1|C1];
    destruct (Z.eqb_spec M2 (2 * K)) as [C2|C2];
    apply pack_finite_inv in R1 as [F1 G1];
    apply pack_finite_inv in R2 as [F2 G2]; lia.
Qed.

(** The division [t / 1000]: the count, scaled by a power of two, is
    divided with remainder, and the remainder decides the rounding. *)
Lemma div_core_1000_exact (t : Z) :
  0 < t ->
  exists e : Z,
    (-62) <= e <= 0
    /\ SFdiv_core_binary prec emax t 0 1000 0
       = (t * 2 ^ (- e) / 1000, e, new_location 1000 ((t * 2 ^ (- e)) mod 1000)).
Proof.
  intros Ht. unfold SFdiv_core_binary.
  pose proof (Zdigits2_pos t Ht) as Hd.
  change (Zdigits2 1000) with 10. rewrite fexp_eq.
  set (e := Z.min (Z.max (Zdigits2 t + 0 - (10 + 0) - 53) (-1074)) (0 - 0)).
  assert (He : (-62) <= e <= 0) by (subst e; lia).
  exists e. split; [exact He|].
  assert (Hm : match 0 - 0 - e with
               | 0 => t
               | Z.pos _ => Z.shiftl t (0 - 0 - e)
               | Z.neg _ => 0
               end = t * 2 ^ (- e)).
  { replace (0 - 0 - e) with (- e) by lia.
    destruct (- e) as [|p|p] eqn:E; try lia.
    apply Z.shiftl_mul_pow2. lia. }
  rewrite Hm, div_eucl_div. reflexivity.
Qed.

Lemma nearest_mono (t1 t2 : Z) (mf1 mf2 : positive) (ef1 ef2 : Z) :
  0 < t1 <= t2 ->
  nearest false t1 1000 = S754_finite false mf1 ef1 ->
  nearest false t2 1000 = S754_finite false mf2 ef2 ->
  ef1 < ef2 \/ (ef1 = ef2 /\ (mf1 <= mf2)%positive).
Proof.
  intros Ht. unfold nearest.
  destruct (div_core_1000 t1 ltac:(lia)) as (q1 & e1 & l1 & C1 & Hq1 & Hd1 & Hlo1 & _).
  destruct (div_core_1000 t2 ltac:(lia)) as (q2 & e2 & l2 & C2 & Hq2 & Hd2 & Hlo2 & _).
  destruct (div_core_1000_exact t1 ltac:(lia)) as (e1' & He1 & X1).
  destruct (div_core_1000_exact t2 ltac:(lia)) as (e2' & He2 & X2).
  rewrite C1 in X1. rewrite C2 in X2.
  injection X1 as -> <- ->. injection X2 as -> <- ->.
  rewrite C1, C2. intros R1 R2.
  assert (P1 : 0 < 2 ^ (- e1)) by (apply Z.pow_pos_nonneg; lia).
  assert (P2 : 0 < 2 ^ (- e2)) by (apply Z.pow_pos_nonneg; lia).
  apply (round_mono _ _ _ (t1 * 2 ^ (- e1)) 1000 _ _ _ (t2 * 2 ^ (- e2)) 1000 (-62)
           _ _ _ _) with (12 := R1) (13 := R2); try lia.
  - apply located_new_location; [nia|lia|reflexivity].
  - apply located_new_location; [nia|lia|reflexivity].
  - replace (t1 * 2 ^ (- e1) * 1000 * 2 ^ (e1 - -62)) with (t1 * 1000 * 2 ^ 62).
    + replace (t2 * 2 ^ (- e2) * 1000 * 2 ^ (e2 - -62)) with (t2 * 1000 * 2 ^ 62).
      * lia.
      * replace (2 ^ 62) with (2 ^ (- e2) * 2 ^ (e2 - -62)); [ring|].
        rewrite <- Z.pow_add_r by lia. f_equal. lia.
    + replace (2 ^ 62) with (2 ^ (- e1) * 2 ^ (e1 - -62)); [ring|].
      rewrite <- Z.pow_add_r by lia. f_equal. lia.
Qed.

Lemma int_truediv_nearest (t : Z) (q : float) :
  0 < t -> int_truediv t 1000 = Ok q -> nearest false t 1000 = q.
Proof.
  intros Ht. unfold int_truediv. cbv zeta. change (1000 =? 0) with false. cbv iota.
  assert ((t <? 0) = false) as -> by lia.
  assert ((t =? 0) = false) as -> by lia.
  change (xorb false (1000 <? 0)) with false.
  rewrite Z.abs_eq by lia. change (Z.abs 1000) with 1000.
  destruct (nearest false t 1000); congruence.
Qed.

(** Multiplying by a price keeps the order of two normal numbers. *)
Lemma mul_mono (mq1 mq2 mp : positive) (eq1 eq2 ep : Z) (mf1 mf2 : positive) (ef1 ef2 : Z) :
  Z.pos (digits2_pos mq1) = 53 ->
  Z.pos (digits2_pos mq2) = 53 ->
  Z.pos (digits2_pos mp) = 53 ->
  (-1126) <= eq1 + ep -> (-1126) <= eq2 + ep ->
  eq1 < eq2 \/ (eq1 = eq2 /\ (mq1 <= mq2)%positive) ->
  mul (S754_finite false mq1 eq1) (S754_finite false mp ep) = S754_finite false mf1 ef1 ->
  mul (S754_finite false mq2 eq2) (S754_finite false mp ep) = S754_finite false mf2 ef2 ->
  ef1 < ef2 \/ (ef1 = ef2 /\ (mf1 <= mf2)%positive).
Proof.
  intros H1 H2 Hp Hlo1 Hlo2 Hord R1 R2.
  pose proof (Zdigits2_bounds (Z.pos mq1) ltac:(lia)) as B1.
  pose proof (Zdigits2_bounds (Z.pos mq2) ltac:(lia)) as B2.
  pose proof (Zdigits2_bounds (Z.pos mp) ltac:(lia)) as Bp.
  simpl Zdigits2 in B1, B2, Bp. rewrite H1 in B1. rewrite H2 in B2. rewrite Hp in Bp.
  change (2 ^ (53 - 1)) with (2 ^ 52) in *.
  assert (D1 : 104 < Zdigits2 (Z.pos (mq1 * mp)) <= 106).
  { apply Zdigits2_between; [lia|]. rewrite Pos2Z.inj_mul.
    change (2 ^ 104) with (2 ^ 52 * 2 ^ 52).
    change (2 ^ 106) with (2 ^ 53 * 2 ^ 53). nia. }
  assert (D2 : 104 < Zdigits2 (Z.pos (mq2 * mp)) <= 106).
  { apply Zdigits2_between; [lia|]. rewrite Pos2Z.inj_mul.
    change (2 ^ 104) with (2 ^ 52 * 2 ^ 52).
    change (2 ^ 106) with (2 ^ 53 * 2 ^ 53). nia. }
  unfold mul, SFmul in R1, R2. simpl xorb in R1, R2.
  apply (round_mono _ _ _ (Z.pos (mq1 * mp)) 1 _ _ _ (Z.pos (mq2 * mp)) 1 (eq1 + ep)
           _ _ _ _) with (12 := R1) (13 := R2); try lia.
  - apply located_exact. lia.
  - apply located_exact. lia.
  - replace (eq1 + ep - (eq1 + ep)) with 0 by lia.
    replace (eq2 + ep - (eq1 + ep)) with (eq2 - eq1) by lia.
    rewrite !Pos2Z.inj_mul, Z.pow_0_r, !Z.mul_1_r.
    destruct Hord as [Hlt|[Heq Hle]].
    + assert (2 ^ 1 <= 2 ^ (eq2 - eq1)) by (apply Z.pow_le_mono_r; lia).
      change (2 ^ 1) with 2 in *. change (2 ^ 53) with (2 * 2 ^ 52) in *.
      set (X := 2 ^ (eq2 - eq1)) in *. clearbody X.
      assert (Z.pos mq1 <= Z.pos mq2 * X) by nia.
      replace (Z.pos mq2 * Z.pos mp * X) with (Z.pos mq2 * X * Z.pos mp) by ring.
      apply Z.mul_le_mono_nonneg_r; lia.
    + rewrite Heq, Z.sub_diag, Z.pow_0_r, Z.mul_1_r.
      apply Z.mul_le_mono_nonneg_r; lia.
Qed.

(** The cost of a count at a price that is a normal number below 1:
    more tokens never cost less. *)
Lemma cost_order (t1 t2 : Z) (q1 q2 : float) (mp : positive) (ep : Z) :
  Z.pos (digits2_pos mp) = 53 -> (-1064) <= ep <= -54 ->
  0 <= t1 <= t2 ->
  int_truediv t1 1000 = Ok q1 -> int_truediv t2 1000 = Ok q2 ->
  amount (mul q1 (S754_finite false mp ep)) = true
  /\ amount (mul q2 (S754_finite false mp ep)) = true
  /\ leb (mul q1 (S754_finite false mp ep)) (mul q2 (S754_finite false mp ep)) = true.
Proof.
  intros Hp Hep Ht E1 E2.
  assert (Hpos : forall t q, 0 < t -> int_truediv t 1000 = Ok q ->
            exists mq eq mf ef,
              q = S754_finite false mq eq
              /\ nearest false t 1000 = S754_finite false mq eq
              /\ Z.pos (digits2_pos mq) = 53 /\ (-62) <= eq <= 971
              /\ mul q (S754_finite false mp ep) = S754_finite false mf ef
              /\ amount (S754_finite false mf ef) = true).
  { intros t q H0 E.
    destruct (int_truediv_1000 t H0 ltac:(right; eauto)) as (mq & eq & E' & Hd & He).
    rewrite E' in E. injection E as <-.
    destruct (mul_price mq mp eq ep Hd Hp He Hep) as (mf & ef & Em & Ha & _).
    exists mq, eq, mf, ef. repeat split; try assumption; try lia.
    apply int_truediv_nearest; assumption. }
  destruct (Z.eq_dec t2 0) as [Hz2|Hz2].
  - assert (t1 = 0) by lia. subst t1 t2.
    rewrite int_truediv_0 in E1, E2. injection E1 as <-. injection E2 as <-.
    repeat split.
  - destruct (Hpos t2 q2 ltac:(lia) E2)
      as (mq2 & eq2 & mf2 & ef2 & -> & N2 & Hd2 & He2 & M2 & A2).
    destruct (Z.eq_dec t1 0) as [Hz1|Hz1].
    + subst t1. rewrite int_truediv_0 in E1. injection E1 as <-.
      rewrite M2. repeat split. exact A2.
    + destruct (Hpos t1 q1 ltac:(lia) E1)
        as (mq1 & eq1 & mf1 & ef1 & -> & N1 & Hd1 & He1 & M1 & A1).
      pose proof (nearest_mono t1 t2 _ _ _ _ ltac:(lia) N1 N2) as Hq.
      pose proof (mul_mono mq1 mq2 mp eq1 eq2 ep mf1 mf2 ef1 ef2
                    Hd1 Hd2 Hp ltac:(lia) ltac:(lia) Hq M1 M2)
        as Hc.
      rewrite M1, M2. split; [exact A1|]. split; [exact A2|].
      apply compare_finite_le, Hc.
Qed.

Lemma leb_finite_inv (m1 m2 : positive) (e1 e2 : Z) :
  leb (S754_finite false m1 e1) (S754_finite false m2 e2) = true ->
  e1 < e2 \/ (e1 = e2 /\ (m1 <= m2)%positive).
Proof.
  unfold leb, SFleb, SFcompare.
  destruct (Z.compare_spec e1 e2) as [E|E|E]; try discriminate; [|left; exact E].
  change (Pos.compare_cont Eq m1 m2) with (Pos.compare m1 m2).
  destruct (Pos.compare_spec m1 m2); try discriminate; intros _; right; lia.
Qed.

Lemma leb_trans_amount (a b c : float) :
  amount a = true -> amount b = true -> amount c = true ->
  leb a b = true -> leb b c = true -> leb a c = true.
Proof.
  destruct a as [[]|[]| |[] ma ea]; try discriminate;
    destruct b as [[]|[]| |[] mb eb]; try discriminate;
    destruct c as [[]|[]| |[] mc ec]; try discriminate;
    intros _ _ _ Hab Hbc; try reflexivity; try discriminate Hab; try discriminate Hbc.
  apply leb_finite_inv in Hab, Hbc. apply compare_finite_le. lia.
Qed.

Lemma mini_le_gpt4 (t : Z) (q : float) :
  0 <= t -> int_truediv t 1000 = Ok q ->
  leb (mul q (PRICE_MINI app_config)) (mul q (PRICE_GPT4 app_config)) = true.
Proof.
  intros Ht E. destruct (Z.eq_dec t 0) as [->|Hne].
  - rewrite int_truediv_0 in E. injection E as <-. reflexivity.
  - destruct (int_truediv_1000 t ltac:(lia) ltac:(right; eauto))
      as (mq & eq & E' & Hd & He).
    rewrite E' in E. injection E as <-.
    destruct (mul_price mq 5534023222112865 eq (-65) Hd eq_refl He ltac:(lia))
      as (ml & el & El & _ & Hel).
    destruct (mul_price mq 8646911284551352 eq (-58) Hd eq_refl He ltac:(lia))
      as (mh & eh & Eh & _ & Heh).
    change (PRICE_MINI app_config) with (S754_finite false 5534023222112865 (-65)).
    change (PRICE_GPT4 app_config) with (S754_finite false 8646911284551352 (-58)).
    rewrite El, Eh. apply compare_finite_le. lia.
Qed.

(** X10.  At a price that is a positive normal number below 1 (a full
    53-bit mantissa, exponent between -1064 and -54, as both shipped
    prices are) the cost estimate never goes down when the token count
    goes up: the two roundings, of [tokens / 1000] and of the product with
    the price, keep the order.  Counts below 2^63 do have a cost. *)
Theorem est_cost_monotone (t1 t2 : Z) (mp : positive) (ep : Z) :
  Z.pos (digits2_pos mp) = 53 -> (-1064) <= ep <= -54 ->
  0 <= t1 <= t2 ->
  (t2 < 2 ^ 63 ->
   exists c1 c2 : float,
     est_cost t1 (S754_finite false mp ep) = Ok c1
     /\ est_cost t2 (S754_finite false mp ep) = Ok c2)
  /\ (forall c1 c2 : float,
        est_cost t1 (S754_finite false mp ep) = Ok c1 ->
        est_cost t2 (S754_finite false mp ep) = Ok c2 ->
        amount c1 = true /\ amount c2 = true /\ leb c1 c2 = true).
Proof.
  intros Hp Hep Ht. split.
  - intros Hb.
    destruct (est_cost_ok t1 (S754_finite false mp ep) ltac:(lia)) as (q1 & _ & E1).
    destruct (est_cost_ok t2 (S754_finite false mp ep) ltac:(lia)) as (q2 & _ & E2).
    eauto.
  - intros c1 c2 E1 E2.
    destruct (est_cost_inv _ _ _ E1) as (q1 & Q1 & ->).
    destruct (est_cost_inv _ _ _ E2) as (q2 & Q2 & ->).
    exact (cost_order t1 t2 q1 q2 mp ep Hp Hep Ht Q1 Q2).
Qed.

End Monotone.

(** * Rounding in every range *)

Section General.

Import F64.

(** The general case of [round_normal]: a mantissa with enough digits
    for its exponent is scaled to the exponent [E] of the format and
    rounded to nearest even; in the subnormal range [E] is -1074 and the
    mantissa may be short. *)
Lemma round_general (s : bool) (m e : Z) (l : location) (A B : Z) :
  located (shr_record_of_loc m l) A B ->
  0 < m -> e <= fexp prec emax (Zdigits2 m + e) ->
  (-1074) <= fexp prec emax (Zdigits2 m + e)
  /\ 0 < B * 2 ^ (fexp prec emax (Zdigits2 m + e) - e)
  /\ A < 2 ^ 53 * (B * 2 ^ (fexp prec emax (Zdigits2 m + e) - e))
  /\ ((-1074) < fexp prec emax (Zdigits2 m + e) ->
      2 ^ 52 * (B * 2 ^ (fexp prec emax (Zdigits2 m + e) - e)) <= A)
  /\ binary_round_aux prec emax s m e l
     = (if rne A (B * 2 ^ (fexp prec emax (Zdigits2 m + e) - e)) =? 2 ^ 53
        then pack s (2 ^ 52) (fexp prec emax (Zdigits2 m + e) + 1)
        else pack s (rne A (B * 2 ^ (fexp prec emax (Zdigits2 m + e) - e)))
                    (fexp prec emax (Zdigits2 m + e))).
Proof.
  intros Hloc Hm He.
  rewrite (binary_round_aux_rne s m e l A B Hloc).
  destruct Hloc as (HA & HB & Hq & _). rewrite shr_record_of_loc_m in Hq.
  pose proof (Zdigits2_bounds m Hm) as [Hlo Hhi].
  pose proof (Zdigits2_pos m Hm) as Hdpos.
  set (d := Zdigits2 m) in *.
  assert (HE : fexp prec emax (d + e) = Z.max (d + e - 53) (-1074)) by apply fexp_eq.
  set (E := fexp prec emax (d + e)) in *.
  assert (Hn : shift m e = E - e).
  { unfold shift. fold d. fold E. lia. }
  rewrite Hn.
  set (n := E - e) in *.
  assert (Hn0 : 0 <= n) by lia.
  assert (Pn : 0 < 2 ^ n) by (apply Z.pow_pos_nonneg; lia).
  set (D := B * 2 ^ n) in *.
  assert (HD : 0 < D) by (subst D; nia).
  assert (Hfl : A / D = m / 2 ^ n).
  { subst D. rewrite <- Z.div_div by lia. rewrite Hq. reflexivity. }
  assert (Hup : m / 2 ^ n < 2 ^ 53).
  { apply Z.div_lt_upper_bound; [lia|].
    rewrite <- Z.pow_add_r by lia.
    assert (2 ^ d <= 2 ^ (n + 53)) by (apply Z.pow_le_mono_r; lia). lia. }
  assert (Hdown : (-1074) < E -> 2 ^ 52 <= m / 2 ^ n).
  { intros HEn. apply Z.div_le_lower_bound; [lia|].
    rewrite <- Z.pow_add_r by lia.
    replace (n + 52) with (d - 1) by lia. lia. }
  assert (Hfl0 : 0 <= m / 2 ^ n) by (apply Z.div_pos; lia).
  pose proof (Z.div_mod A D ltac:(lia)) as EA.
  pose proof (Z.mod_pos_bound A D HD) as RA.
  pose proof (rne_bounds A D) as Hr.
  rewrite Hfl in EA, Hr.
  set (f := m / 2 ^ n) in *. set (M := rne A D) in *.
  assert (P52 : 2 ^ 53 = 2 * 2 ^ 52) by reflexivity.
  assert (PK : 0 < 2 ^ 52) by reflexivity.
  split; [lia|]. split; [exact HD|].
  split; [rewrite P52 in *; set (K := 2 ^ 52) in *; nia|].
  split; [intros HEn; specialize (Hdown HEn); set (K := 2 ^ 52) in *; nia|].
  destruct (Z.eqb_spec M (2 ^ 53)) as [Hc|Hc].
  - assert (Hd1 : Zdigits2 M = 54) by (rewrite Hc; reflexivity).
    assert (Hn1 : shift M (e + n) = 1).
    { rewrite shift_eq, Hd1. replace (e + n) with E by lia. lia. }
    rewrite Hn1, Hc. replace (e + n) with E by lia. reflexivity.
  - assert (Hd1 : Zdigits2 M <= 53).
    { destruct (Z.eq_dec M 0) as [->|HM0]; [simpl; lia|].
      pose proof (Zdigits2_bounds M ltac:(lia)) as [B1 _].
      destruct (Z.le_gt_cases (Zdigits2 M) 53) as [H|H]; [exact H|exfalso].
      assert (2 ^ 53 <= 2 ^ (Zdigits2 M - 1)) by (apply Z.pow_le_mono_r; lia). lia. }
    assert (Hn1 : shift M (e + n) = 0).
    { rewrite shift_eq. replace (e + n) with E by lia. lia. }
    rewrite Hn1, Z.div_1_r, Z.add_0_r. replace (e + n) with E by lia. reflexivity.
Qed.

Lemma pack_leb (M1 E1 M2 E2 : Z) :
  0 <= M1 -> 0 <= M2 ->
  (E1 < E2 /\ 0 < M2) \/ (E1 = E2 /\ M1 <= M2) ->
  leb (pack false M1 E1) (pack false M2 E2) = true.
Proof.
  intros H1 H2 Hord. unfold pack. change (emax - prec) with 971.
  destruct M1 as [|p1|p1]; try lia; destruct M2 as [|p2|p2]; try lia;
    destruct (Z.leb_spec E1 971); destruct (Z.leb_spec E2 971);
    try reflexivity; try lia.
  apply compare_finite_le. lia.
Qed.

Lemma pack_amount (M E : Z) :
  0 <= M < 2 ^ 53 -> (-1074) <= E -> ((-1074) < E -> 2 ^ 52 <= M) ->
  amount (pack false M E) = true.
Proof.
  intros HM HE Hn. unfold pack. change (emax - prec) with 971.
  destruct M as [|p|p]; try lia; [reflexivity|].
  destruct (Z.leb_spec E 971); [|reflexivity].
  simpl. apply bounded_spec. split; [|lia].
  change (Z.pos (digits2_pos p)) with (Zdigits2 (Z.pos p)).
  pose proof (Zdigits2_bounds (Z.pos p) ltac:(lia)) as [B1 B2].
  assert (Hd : Zdigits2 (Z.pos p) <= 53).
  { destruct (Z.le_gt_cases (Zdigits2 (Z.pos p)) 53) as [H'|H']; [exact H'|exfalso].
    assert (2 ^ 53 <= 2 ^ (Zdigits2 (Z.pos p) - 1)) by (apply Z.pow_le_mono_r; lia). lia. }
  destruct (Z.eq_dec E (-1074)) as [->|HEn]; [lia|].
  assert (Hd' : 53 <= Zdigits2 (Z.pos p)).
  { destruct (Z.le_gt_cases 53 (Zdigits2 (Z.pos p))) as [H'|H']; [exact H'|exfalso].
    assert (2 ^ Zdigits2 (Z.pos p) <= 2 ^ 52) by (apply Z.pow_le_mono_r; lia).
    specialize (Hn ltac:(lia)). lia. }
  lia.
Qed.

Lemma pack_sign (s : bool) (M E : Z) :
  0 <= M -> sign_bit (pack s M E) = s /\ pack s M E <> S754_nan.
Proof.
  intros HM. unfold pack. destruct M as [|p|p]; try lia.
  - split; [reflexivity|discriminate].
  - destruct (E <=? emax - prec); split; first [reflexivity|discriminate].
Qed.

(** The result of a rounding with enough digits, with its parts named. *)
Lemma round_parts (s : bool) (m e : Z) (l : location) (A B : Z) :
  located (shr_record_of_loc m l) A B ->
  0 < m -> e <= fexp prec emax (Zdigits2 m + e) ->
  exists M E : Z,
    binary_round_aux prec emax s m e l = pack s M E
    /\ 0 <= M < 2 ^ 53 /\ (-1074) <= E /\ ((-1074) < E -> 2 ^ 52 <= M).
Proof.
  intros Hloc Hm He.
  destruct (round_general s m e l A B Hloc Hm He) as (HE & HD & Hup & Hdown & ->).
  set (E := fexp prec emax (Zdigits2 m + e)) in *.
  set (D := B * 2 ^ (E - e)) in *.
  pose proof (rne_bounds A D) as Hr.
  pose proof (Z.div_mod A D ltac:(lia)) as EA.
  pose proof (Z.mod_pos_bound A D HD) as RA.
  destruct Hloc as (HA & _).
  assert (Hq0 : 0 <= A / D) by (apply Z.div_pos; lia).
  assert (Hq1 : A / D < 2 ^ 53).
  { apply Z.div_lt_upper_bound; lia. }
  destruct (Z.eqb_spec (rne A D) (2 ^ 53)) as [Hc|Hc].
  - exists (2 ^ 52), (E + 1). split; [reflexivity|].
    split; [split; [|reflexivity]; intros H; discriminate H|]. split; [lia|].
    intros _. lia.
  - exists (rne A D), E. split; [reflexivity|]. split; [lia|]. split; [lia|].
    intros HEn. specialize (Hdown HEn).
    assert (2 ^ 52 <= A / D) by (apply Z.div_le_lower_bound; lia). lia.
Qed.

Lemma round_amount (m e : Z) (l : location) (A B : Z) :
  located (shr_record_of_loc m l) A B ->
  0 < m -> e <= fexp prec emax (Zdigits2 m + e) ->
  amount (binary_round_aux prec emax false m e l) = true.
Proof.
  intros Hloc Hm He.
  destruct (round_parts false m e l A B Hloc Hm He) as (M & E & -> & HM & HE & Hn).
  apply pack_amount; assumption.
Qed.

(** Two roundings with enough digits: when the exact values are in
    order, so are the results, in the subnormal range and up to
    infinity. *)
Lemma round_mono_gen (m1 e1 : Z) (l1 : location) (A1 B1 : Z)
    (m2 e2 : Z) (l2 : location) (A2 B2 c : Z) :
  located (shr_record_of_loc m1 l1) A1 B1 ->
  0 < m1 -> e1 <= fexp prec emax (Zdigits2 m1 + e1) ->
  located (shr_record_of_loc m2 l2) A2 B2 ->
  0 < m2 -> e2 <= fexp prec emax (Zdigits2 m2 + e2) ->
  c <= e1 -> c <= e2 ->
  A1 * B2 * 2 ^ (e1 - c) <= A2 * B1 * 2 ^ (e2 - c) ->
  leb (binary_round_aux prec emax false m1 e1 l1)
      (binary_round_aux prec emax false m2 e2 l2) = true.
Proof.
  intros L1 Hm1 He1 L2 Hm2 He2 Hc1 Hc2 Hle.
  destruct (round_general false m1 e1 l1 A1 B1 L1 Hm1 He1) as (HE1 & PD1 & Hup1 & Hdn1 & ->).
  destruct (round_general false m2 e2 l2 A2 B2 L2 Hm2 He2) as (HE2 & PD2 & Hup2 & Hdn2 & ->).
  destruct L1 as (HA1 & HB1 & _). destruct L2 as (HA2 & HB2 & _).
  set (E1 := fexp prec emax (Zdigits2 m1 + e1)) in *.
  set (E2 := fexp prec emax (Zdigits2 m2 + e2)) in *.
  clearbody E1 E2.
  assert (PN1 : 0 < 2 ^ (E1 - e1)) by (apply Z.pow_pos_nonneg; lia).
  assert (PN2 : 0 < 2 ^ (E2 - e2)) by (apply Z.pow_pos_nonneg; lia).
  assert (PP1 : 0 < 2 ^ (e1 - c)) by (apply Z.pow_pos_nonneg; lia).
  assert (PP2 : 0 < 2 ^ (e2 - c)) by (apply Z.pow_pos_nonneg; lia).
  assert (Q1 : 2 ^ (E1 - c) = 2 ^ (e1 - c) * 2 ^ (E1 - e1)).
  { rewrite <- Z.pow_add_r by lia. f_equal. lia. }
  assert (Q2 : 2 ^ (E2 - c) = 2 ^ (e2 - c) * 2 ^ (E2 - e2)).
  { rewrite <- Z.pow_add_r by lia. f_equal. lia. }
  set (D1 := B1 * 2 ^ (E1 - e1)) in *. set (D2 := B2 * 2 ^ (E2 - e2)) in *.
  assert (Hstar : A1 * D2 * 2 ^ (E1 - c) <= A2 * D1 * 2 ^ (E2 - c)).
  { rewrite Q1, Q2. subst D1 D2.
    replace (A1 * (B2 * 2 ^ (E2 - e2)) * (2 ^ (e1 - c) * 2 ^ (E1 - e1)))
      with (A1 * B2 * 2 ^ (e1 - c) * (2 ^ (E1 - e1) * 2 ^ (E2 - e2))) by ring.
    replace (A2 * (B1 * 2 ^ (E1 - e1)) * (2 ^ (e2 - c) * 2 ^ (E2 - e2)))
      with (A2 * B1 * 2 ^ (e2 - c) * (2 ^ (E1 - e1) * 2 ^ (E2 - e2))) by ring.
    apply Z.mul_le_mono_nonneg_r; [nia|exact Hle]. }
  pose proof (rne_bounds A1 D1) as N1. pose proof (rne_bounds A2 D2) as N2.
  assert (F1 : 0 <= A1 / D1 < 2 ^ 53).
  { split; [apply Z.div_pos; lia|apply Z.div_lt_upper_bound; lia]. }
  assert (F2 : 0 <= A2 / D2 < 2 ^ 53).
  { split; [apply Z.div_pos; lia|apply Z.div_lt_upper_bound; lia]. }
  assert (G2 : (-1074) < E2 -> 2 ^ 52 <= A2 / D2).
  { intros H. specialize (Hdn2 H). apply Z.div_le_lower_bound; lia. }
  change (2 ^ 53) with (2 * 2 ^ 52) in *.
  assert (PK : 0 < 2 ^ 52) by reflexivity.
  set (K := 2 ^ 52) in *.
  assert (Hord : E1 < E2 \/ (E1 = E2 /\ rne A1 D1 <= rne A2 D2)).
  { destruct (Z.lt_trichotomy E1 E2) as [H|[H|H]]; [left; exact H| |exfalso].
    - right. split; [exact H|]. apply rne_mono; try lia.
      rewrite H in Hstar.
      assert (PQ : 0 < 2 ^ (E2 - c)) by (apply Z.pow_pos_nonneg; lia).
      nia.
    - specialize (Hdn1 ltac:(lia)).
      assert (PQ : 0 < 2 ^ (E2 - c)) by (apply Z.pow_pos_nonneg; lia).
      assert (HQ : 2 * 2 ^ (E2 - c) <= 2 ^ (E1 - c)).
      { replace (E1 - c) with ((E1 - E2) + (E2 - c)) by lia.
        rewrite Z.pow_add_r by lia.
        assert (2 ^ 1 <= 2 ^ (E1 - E2)) by (apply Z.pow_le_mono_r; lia).
        change (2 ^ 1) with 2 in *. nia. }
      clearbody K D1 D2. clear Q1 Q2 Hle N1 N2 F1 F2 G2.
      set (X := 2 ^ (E1 - c)) in *. set (Y := 2 ^ (E2 - c)) in *. clearbody X Y.
      assert (A2 * D1 * Y < 2 * K * D2 * D1 * Y).
      { apply Z.mul_lt_mono_pos_r; [lia|].
        apply Z.mul_lt_mono_pos_r; [lia|]. lia. }
      assert (K * D1 * D2 * (2 * Y) <= A1 * D2 * X).
      { transitivity (A1 * D2 * (2 * Y)).
        - apply Z.mul_le_mono_nonneg_r; [lia|].
          apply Z.mul_le_mono_nonneg_r; [lia|]. lia.
        - apply Z.mul_le_mono_nonneg_l; [nia|lia]. }
      nia. }
  set (M1 := rne A1 D1) in *. set (M2 := rne A2 D2) in *.
  clearbody M1 M2 K.
  destruct (Z.eqb_spec M1 (2 * K)) as [C1|C1];
    destruct (Z.eqb_spec M2 (2 * K)) as [C2|C2];
    apply pack_leb; lia.
Qed.

(** ** Signs *)

Lemma binary_round_aux_opp (s : bool) (m e : Z) (l : location) :
  binary_round_aux prec emax (negb s) m e l = SFopp (binary_round_aux prec emax s m e l).
Proof.
  unfold binary_round_aux.
  destruct (shr_fexp prec emax m e l) as [mrs1 e1].
  destruct (shr_fexp prec emax _ e1 loc_Exact) as [mrs2 e2].
  destruct (shr_m mrs2); [reflexivity| |reflexivity].
  destruct (e2 <=? emax - prec); reflexivity.
Qed.

Lemma mul_opp_r (x y : float) : mul x (SFopp y) = SFopp (mul x y).
Proof.
  destruct x as [sx|sx| |sx mx ex], y as [sy|sy| |sy my ey]; try reflexivity;
    unfold mul, SFmul, SFopp; rewrite ?xorb_negb_r_eq; try reflexivity.
  - destruct sx, sy; reflexivity.
  - destruct sx, sy; reflexivity.
  - destruct sx, sy; reflexivity.
  - destruct sx, sy; reflexivity.
  - destruct sx, sy; reflexivity.
  - destruct sx, sy; reflexivity.
  - replace (xorb sx (negb sy)) with (negb (xorb sx sy)) by (destruct sx, sy; reflexivity).
    apply binary_round_aux_opp.
Qed.

Lemma opp_involutive (x : float) : SFopp (SFopp x) = x.
Proof. destruct x as [s|s| |s m e]; simpl; rewrite ?negb_involutive; reflexivity. Qed.

Lemma leb_opp (x y : float) : leb (SFopp y) (SFopp x) = leb x y.
Proof.
  destruct x as [[]|[]| |[] mx ex], y as [[]|[]| |[] my ey]; try reflexivity;
    unfold leb, SFleb, SFopp, SFcompare, negb;
    rewrite (Z.compare_antisym ex ey);
    change (Pos.compare_cont Eq my mx) with (Pos.compare my mx);
    change (Pos.compare_cont Eq mx my) with (Pos.compare mx my);
    rewrite (Pos.compare_antisym mx my);
    destruct (ex ?= ey); destruct (mx ?= my)%positive; reflexivity.
Qed.

Lemma leb_sign (x y : float) :
  sign_bit x = true -> sign_bit y = false ->
  x <> S754_nan -> y <> S754_nan -> leb x y = true.
Proof.
  destruct x as [[]|[]| |[] mx ex], y as [[]|[]| |[] my ey];
    simpl; intros; try discriminate; try contradiction; reflexivity.
Qed.

(** ** Numbers of the format *)

Lemma bounded_digits (m : positive) (e : Z) :
  bounded prec emax m e = true ->
  Zdigits2 (Z.pos m) <= 53
  /\ ((-1074) < e -> Zdigits2 (Z.pos m) = 53)
  /\ (-1074) <= e <= 971.
Proof.
  intros H. apply bounded_spec in H. simpl Zdigits2. lia.
Qed.

Lemma bounded_range (m : positive) (e : Z) :
  bounded prec emax m e = true ->
  Z.pos m < 2 ^ 53 /\ ((-1074) < e -> 2 ^ 52 <= Z.pos m).
Proof.
  intros H. destruct (bounded_digits m e H) as (Hd & Hn & He).
  pose proof (Zdigits2_bounds (Z.pos m) ltac:(lia)) as [B1 B2].
  split.
  - assert (2 ^ Zdigits2 (Z.pos m) <= 2 ^ 53) by (apply Z.pow_le_mono_r; lia). lia.
  - intros HE. rewrite (Hn HE) in B1. exact B1.
Qed.

Lemma mul_enough (mq mp : positive) (e : Z) :
  Z.pos (digits2_pos mq) = 53 ->
  e <= fexp prec emax (Zdigits2 (Z.pos (mq * mp)) + e).
Proof.
  intros Hq. rewrite fexp_eq.
  pose proof (Zdigits2_bounds (Z.pos mq) ltac:(lia)) as [B1 _].
  simpl Zdigits2 in B1. rewrite Hq in B1. change (2 ^ (53 - 1)) with (2 ^ 52) in B1.
  assert (53 <= Zdigits2 (Z.pos (mq * mp))).
  { change 53 with (Zdigits2 (2 ^ 52)). apply Zdigits2_le.
    rewrite Pos2Z.inj_mul. split; [lia|]. nia. }
  lia.
Qed.

(** ** The price of a count at any rate *)

(** A positive normal number times a rate that is not negative: the
    product is not negative either, and a number of the format. *)
Lemma mul_amount (mq : positive) (eq : Z) (p : float) :
  Z.pos (digits2_pos mq) = 53 ->
  amount p = true ->
  amount (mul (S754_finite false mq eq) p) = true.
Proof.
  intros Hq Hp. destruct p as [[]|[]| |[] mp ep]; try discriminate Hp; try reflexivity.
  unfold mul, SFmul. simpl xorb.
  apply (round_amount _ _ _ (Z.pos (mq * mp)) 1).
  - apply located_exact. lia.
  - lia.
  - apply mul_enough, Hq.
Qed.

Lemma mul_sign (mq : positive) (eq : Z) (p : float) :
  Z.pos (digits2_pos mq) = 53 -> p <> S754_nan ->
  sign_bit (mul (S754_finite false mq eq) p) = sign_bit p
  /\ mul (S754_finite false mq eq) p <> S754_nan.
Proof.
  intros Hq Hp. destruct p as [s|s| |s mp ep]; try contradiction;
    try (split; [reflexivity|discriminate]).
  unfold mul, SFmul. simpl xorb. simpl sign_bit.
  destruct (round_parts s (Z.pos (mq * mp)) (eq + ep) loc_Exact (Z.pos (mq * mp)) 1)
    as (M & E & -> & HM & _).
  - apply located_exact. lia.
  - lia.
  - apply mul_enough, Hq.
  - apply pack_sign. lia.
Qed.

(** Rates that are not negative: the price keeps their order. *)
Lemma mul_rate_mono_pos (mq : positive) (eq : Z) (lo hi : float) :
  Z.pos (digits2_pos mq) = 53 ->
  amount lo = true -> amount hi = true ->
  leb lo hi = true ->
  leb (mul (S754_finite false mq eq) lo) (mul (S754_finite false mq eq) hi) = true.
Proof.
  intros Hq Hlo Hhi Hle.
  pose proof (mul_amount mq eq lo Hq Hlo) as Alo.
  pose proof (mul_amount mq eq hi Hq Hhi) as Ahi.
  destruct lo as [[]|[]| |[] m1 e1]; try discriminate Hlo.
  - (* the low rate is 0 *)
    change (mul (S754_finite false mq eq) (S754_zero false)) with zero.
    apply leb_zero_amount, Ahi.
  - (* the low rate is infinite: so is the high one *)
    destruct hi as [[]|[]| |[] m2 e2]; try discriminate Hhi; try discriminate Hle.
    reflexivity.
  - destruct hi as [[]|[]| |[] m2 e2]; try discriminate Hhi; try discriminate Hle.
    + (* the high rate is infinite *)
      change (mul (S754_finite false mq eq) (S754_infinity false)) with (S754_infinity false).
      destruct (mul (S754_finite false mq eq) (S754_finite false m1 e1)) as [[]|[]| |[] m e];
        try discriminate Alo; reflexivity.
    + (* two positive rates *)
      simpl in Hlo, Hhi.
      destruct (bounded_range m1 e1 Hlo) as [U1 _].
      destruct (bounded_range m2 e2 Hhi) as [_ L2].
      destruct (bounded_digits m1 e1 Hlo) as (_ & _ & R1).
      apply leb_finite_inv in Hle.
      unfold mul, SFmul. simpl xorb.
      apply (round_mono_gen _ _ _ (Z.pos (mq * m1)) 1 _ _ _ (Z.pos (mq * m2)) 1 (eq + e1)).
      * apply located_exact. lia.
      * lia.
      * apply mul_enough, Hq.
      * apply located_exact. lia.
      * lia.
      * apply mul_enough, Hq.
      * lia.
      * lia.
      * replace (eq + e1 - (eq + e1)) with 0 by lia.
        replace (eq + e2 - (eq + e1)) with (e2 - e1) by lia.
        rewrite !Pos2Z.inj_mul, Z.pow_0_r, !Z.mul_1_r.
        assert (Z.pos m1 <= Z.pos m2 * 2 ^ (e2 - e1)).
        { destruct Hle as [Hlt|[Heq Hm]].
          - specialize (L2 ltac:(lia)).
            assert (2 ^ 1 <= 2 ^ (e2 - e1)) by (apply Z.pow_le_mono_r; lia).
            change (2 ^ 1) with 2 in *. change (2 ^ 53) with (2 * 2 ^ 52) in *.
            set (X := 2 ^ (e2 - e1)) in *. nia.
          - rewrite Heq, Z.sub_diag, Z.pow_0_r. lia. }
        replace (Z.pos mq * Z.pos m2 * 2 ^ (e2 - e1))
          with (Z.pos mq * (Z.pos m2 * 2 ^ (e2 - e1))) by ring.
        apply Z.mul_le_mono_nonneg_l; lia.
Qed.

Lemma opp_amount_sign (x : float) :
  valid_float x = true -> sign_bit x = true -> x <> S754_nan ->
  (x = S754_zero true \/ amount (SFopp x) = true).
Proof.
  destruct x as [[]|[]| |[] m e]; simpl; intros Hv Hs Hn;
    try discriminate; try contradiction; auto.
Qed.

(** Rates of any sign. *)
Lemma mul_rate_mono (mq : positive) (eq : Z) (lo hi : float) :
  Z.pos (digits2_pos mq) = 53 ->
  valid_float lo = true -> valid_float hi = true ->
  leb lo hi = true ->
  leb (mul (S754_finite false mq eq) lo) (mul (S754_finite false mq eq) hi) = true.
Proof.
  intros Hq Vlo Vhi Hle.
  assert (Nlo : lo <> S754_nan) by (intros ->; discriminate Hle).
  assert (Nhi : hi <> S754_nan) by (intros ->; destruct lo as [|[]| |]; discriminate Hle).
  destruct (mul_sign mq eq lo Hq Nlo) as [Slo Mlo].
  destruct (mul_sign mq eq hi Hq Nhi) as [Shi Mhi].
  destruct (sign_bit lo) eqn:Sl; destruct (sign_bit hi) eqn:Sh.
  - (* both negative: the order of the opposites *)
    rewrite <- leb_opp, <- !mul_opp_r.
    apply mul_rate_mono_pos; [exact Hq| | |rewrite leb_opp; exact Hle].
    + destruct hi as [[]|[]| |[] m e]; try discriminate Sh; try contradiction; exact Vhi.
    + destruct lo as [[]|[]| |[] m e]; try discriminate Sl; try contradiction; exact Vlo.
  - apply leb_sign; assumption.
  - (* a rate that is not negative below a negative one: both are zero *)
    destruct lo as [[]|[]| |[] m1 e1]; try discriminate Sl; try contradiction;
      destruct hi as [[]|[]| |[] m2 e2]; try discriminate Sh; try contradiction;
      try discriminate Hle.
    reflexivity.
  - apply mul_rate_mono_pos; try assumption.
    + destruct lo as [[]|[]| |[] m e]; try discriminate Sl; try contradiction;
        first [reflexivity|exact Vlo].
    + destruct hi as [[]|[]| |[] m e]; try discriminate Sh; try contradiction;
        first [reflexivity|exact Vhi].
Qed.

(** ** Differences *)

Lemma shl_align_snd (m : positive) (e e' : Z) :
  e' < e -> snd (shl_align m e e') = e'.
Proof. intros H. unfold shl_align. destruct (e' - e) eqn:E; try lia. reflexivity. Qed.

(** [binary_round] first gives a short mantissa the digits that its
    exponent allows; what it returns is a number of the format. *)
Lemma binary_round_amount (m : positive) (e : Z) :
  amount (binary_round prec emax false m e) = true.
Proof.
  unfold binary_round.
  change (Z.pos (digits2_pos m)) with (Zdigits2 (Z.pos m)).
  set (e' := fexp prec emax (Zdigits2 (Z.pos m) + e)).
  destruct (Z.lt_ge_cases e' e) as [H|H].
  - pose proof (shl_align_fst m e e' ltac:(lia)) as F.
    pose proof (shl_align_snd m e e' H) as S.
    destruct (shl_align m e e') as [mz ez]. simpl in F, S. subst ez.
    apply (round_amount _ _ _ (Z.pos mz) 1); [apply located_exact; lia|lia|].
    rewrite F, Zdigits2_mul_pow2 by lia.
    replace (Zdigits2 (Z.pos m) + (e - e') + e') with (Zdigits2 (Z.pos m) + e) by lia.
    fold e'. lia.
  - rewrite shl_align_id by lia.
    apply (round_amount _ _ _ (Z.pos m) 1); [apply located_exact; lia|lia|].
    fold e'. lia.
Qed.

(** The difference of two amounts in order is an amount: it is not
    negative. *)
Lemma sub_amount (a b : float) :
  amount a = true -> amount b = true -> finite_float a = true ->
  leb b a = true -> amount (sub a b) = true.
Proof.
  intros Ha Hb Hf Hle.
  destruct a as [[]|[]| |[] ma ea]; try discriminate Ha; try discriminate Hf;
    destruct b as [[]|[]| |[] mb eb]; try discriminate Hb; try discriminate Hle;
    try reflexivity; try exact Ha.
  simpl in Ha, Hb.
  destruct (bounded_range ma ea Ha) as [_ La].
  destruct (bounded_range mb eb Hb) as [Ub _].
  destruct (bounded_digits mb eb Hb) as (_ & _ & Rb).
  apply leb_finite_inv in Hle.
  unfold sub, SFsub. simpl cond_Zopp.
  rewrite Z.min_r by lia.
  rewrite shl_align_fst by lia. rewrite shl_align_id by lia. simpl fst.
  assert (HM : Z.pos mb <= Z.pos ma * 2 ^ (ea - eb)).
  { destruct Hle as [Hlt|[Heq Hm]].
    - specialize (La ltac:(lia)).
      assert (2 ^ 1 <= 2 ^ (ea - eb)) by (apply Z.pow_le_mono_r; lia).
      change (2 ^ 1) with 2 in *. change (2 ^ 53) with (2 * 2 ^ 52) in *.
      set (X := 2 ^ (ea - eb)) in *. nia.
    - rewrite Heq, Z.sub_diag, Z.pow_0_r. lia. }
  destruct (Z.pos ma * 2 ^ (ea - eb) - Z.pos mb) as [|pM|pM] eqn:EM; try lia.
  - reflexivity.
  - unfold binary_normalize. apply binary_round_amount.
Qed.

Lemma sub_self_amount (a : float) :
  amount a = true -> finite_float a = true -> sub a a = zero.
Proof.
  destruct a as [[]|[]| |[] m e]; try discriminate; intros _ _; [reflexivity|].
  apply sub_self.
Qed.

(** ** The price of a token count *)

Lemma quotient_cases (t : Z) (q : float) :
  0 <= t -> int_truediv t 1000 = Ok q ->
  (t = 0 /\ q = zero)
  \/ (0 < t /\ exists (mq : positive) (eq : Z),
        q = S754_finite false mq eq
        /\ Z.pos (digits2_pos mq) = 53 /\ (-62) <= eq <= 971).
Proof.
  intros Ht E. destruct (Z.eq_dec t 0) as [->|Hne].
  - left. rewrite int_truediv_0 in E. injection E as <-. split; reflexivity.
  - right. split; [lia|].
    destruct (int_truediv_1000 t ltac:(lia) ltac:(right; eauto)) as (mq & eq & E' & Hd & He).
    rewrite E' in E. injection E as <-. eauto.
Qed.

Lemma mul_zero_finite (p : float) :
  finite_float p = true -> mul zero p = S754_zero (sign_bit p).
Proof. destruct p as [s|s| |s m e]; try discriminate; reflexivity. Qed.

(** At two rates in order the prices of a count are in order. *)
Lemma cost_rate_mono (t : Z) (q lo hi : float) :
  0 <= t -> int_truediv t 1000 = Ok q ->
  valid_float lo = true -> valid_float hi = true ->
  0 < t \/ (finite_float lo = true /\ finite_float hi = true) ->
  leb lo hi = true ->
  leb (mul q lo) (mul q hi) = true.
Proof.
  intros Ht E Vlo Vhi Hfin Hle.
  destruct (quotient_cases t q Ht E) as [[-> ->]|(Hpos & mq & eq & -> & Hd & _)].
  - destruct Hfin as [H|[Flo Fhi]]; [lia|].
    rewrite (mul_zero_finite lo Flo), (mul_zero_finite hi Fhi). reflexivity.
  - apply mul_rate_mono; assumption.
Qed.

(** At a rate that is a price the price of a count is an amount. *)
Lemma cost_amount (t : Z) (q p : float) :
  0 <= t -> int_truediv t 1000 = Ok q ->
  amount p = true -> finite_float p = true ->
  amount (mul q p) = true.
Proof.
  intros Ht E Hp Hf.
  destruct (quotient_cases t q Ht E) as [[-> ->]|(Hpos & mq & eq & -> & Hd & _)].
  - rewrite (mul_zero_finite p Hf).
    destruct p as [[]|[]| |[] m e]; try discriminate Hp; reflexivity.
  - apply mul_amount; assumption.
Qed.

Lemma amount_valid (p : float) : amount p = true -> valid_float p = true.
Proof.
  destruct p as [[]|[]| |[] m e]; try discriminate; intros H; try reflexivity.
  exact H.
Qed.

Lemma pack_valid (s : bool) (M E : Z) :
  0 <= M < 2 ^ 53 -> (-1074) <= E -> ((-1074) < E -> 2 ^ 52 <= M) ->
  valid_float (pack s M E) = true.
Proof.
  intros HM HE Hn.
  pose proof (pack_amount M E HM HE Hn) as H.
  unfold pack in *. destruct M as [|p|p]; try lia; [reflexivity|].
  destruct (E <=? emax - prec); [|reflexivity]. exact H.
Qed.

(** A positive normal number times a rate of the format is a number of
    the format. *)
Lemma mul_valid (mq : positive) (eq : Z) (p : float) :
  Z.pos (digits2_pos mq) = 53 ->
  valid_float p = true ->
  valid_float (mul (S754_finite false mq eq) p) = true.
Proof.
  intros Hq Hp. destruct p as [s|s| |s mp ep]; try reflexivity.
  unfold mul, SFmul. simpl xorb.
  destruct (round_parts s (Z.pos (mq * mp)) (eq + ep) loc_Exact (Z.pos (mq * mp)) 1)
    as (M & E & -> & HM & HE & Hn).
  - apply located_exact. lia.
  - lia.
  - apply mul_enough, Hq.
  - apply pack_valid; assumption.
Qed.

Lemma cost_valid (t : Z) (q p : float) :
  0 <= t -> int_truediv t 1000 = Ok q ->
  valid_float p = true ->
  valid_float (mul q p) = true.
Proof.
  intros Ht E Hp.
  destruct (quotient_cases t q Ht E) as [[-> ->]|(Hpos & mq & eq & -> & Hd & _)].
  - destruct p as [s|s| |s m e]; reflexivity.
  - apply mul_valid; assumption.
Qed.

(** The difference of two numbers of the format in order, of any sign,
    is not negative. *)
Lemma sub_nonneg (a b : float) :
  valid_float a = true -> valid_float b = true ->
  finite_float a = true ->
  leb b a = true ->
  leb zero (sub a b) = true.
Proof.
  intros Va Vb Fa Hle.
  destruct a as [sa|sa| |sa ma ea]; try discriminate Fa.
  - (* a is a zero *)
    destruct b as [sb|sb| |sb mb eb]; try discriminate Hle.
    + destruct sa, sb; reflexivity.
    + destruct sb; [reflexivity|discriminate Hle].
    + destruct sb; [reflexivity|discriminate Hle].
  - destruct b as [sb|sb| |sb mb eb]; try discriminate Hle.
    + (* b is a zero: a is positive *)
      destruct sa; [destruct sb; discriminate Hle|reflexivity].
    + destruct sb; [reflexivity|destruct sa; discriminate Hle].
    + simpl in Va, Vb.
      destruct (bounded_range ma ea Va) as [Ua La].
      destruct (bounded_range mb eb Vb) as [Ub Lb].
      destruct (bounded_digits ma ea Va) as (_ & _ & Ra).
      destruct (bounded_digits mb eb Vb) as (_ & _ & Rb).
      assert (Hres : forall M : Z, 0 <= M ->
                leb zero (binary_normalize prec emax M (Z.min ea eb) false) = true).
      { intros M HM. destruct M as [|pM|pM]; try lia; [reflexivity|].
        apply leb_zero_amount. unfold binary_normalize. apply binary_round_amount. }
      unfold sub, SFsub. apply Hres.
      set (ez := Z.min ea eb).
      rewrite !shl_align_fst by lia.
      assert (Pa : 0 < 2 ^ (ea - ez)) by (apply Z.pow_pos_nonneg; lia).
      assert (Pb : 0 < 2 ^ (eb - ez)) by (apply Z.pow_pos_nonneg; lia).
      assert (Hlex : forall (m1 m2 : positive) (e1 e2 : Z),
                Z.pos m1 < 2 ^ 53 -> ((-1074) < e2 -> 2 ^ 52 <= Z.pos m2) ->
                (-1074) <= e1 ->
                e1 < e2 \/ (e1 = e2 /\ (m1 <= m2)%positive) ->
                Z.pos m1 * 2 ^ (e1 - Z.min e2 e1) <= Z.pos m2 * 2 ^ (e2 - Z.min e2 e1)).
      { intros m1 m2 e1 e2 U1 L2 R1 [Hlt|[Heq Hm]].
        - rewrite Z.min_r by lia. rewrite Z.sub_diag, Z.pow_0_r, Z.mul_1_r.
          specialize (L2 ltac:(lia)).
          assert (2 ^ 1 <= 2 ^ (e2 - e1)) by (apply Z.pow_le_mono_r; lia).
          change (2 ^ 1) with 2 in *. change (2 ^ 53) with (2 * 2 ^ 52) in *.
          set (X := 2 ^ (e2 - e1)) in *. nia.
        - subst e2. rewrite Z.min_id, Z.sub_diag, Z.pow_0_r. lia. }
      destruct sa, sb; simpl cond_Zopp.
      * (* both negative: b is the larger in size *)
        rewrite <- (leb_opp (S754_finite true mb eb) (S754_finite true ma ea)) in Hle.
        simpl SFopp in Hle. apply leb_finite_inv in Hle.
        pose proof (Hlex ma mb ea eb Ua Lb ltac:(lia) Hle) as H.
        subst ez. rewrite (Z.min_comm ea eb). lia.
      * discriminate Hle.
      * subst ez. nia.
      * apply leb_finite_inv in Hle.
        pose proof (Hlex mb ma eb ea Ub La ltac:(lia) Hle) as H.
        subst ez. lia.
Qed.

Lemma sub_self_finite (a : float) : finite_float a = true -> sub a a = zero.
Proof.
  destruct a as [[]|[]| |s m e]; try discriminate; intros _; try reflexivity.
  apply sub_self.
Qed.

End General.

(** * The gateway *)

Section Gateway.

Context {tk : Tiktoken} {pr : Presidio}.

Lemma get_token_count_nonneg (text model : string) (t : Z) :
  get_token_count text model = Ok t -> 0 <= t.
Proof.
  unfold get_token_count.
  destruct (try_except _ _ _) as [enc|e]; simpl; [|discriminate].
  destruct (encode enc text) as [toks|e]; simpl; [|discriminate].
  intros [= <-]. unfold len. lia.
Qed.

Lemma routing_logic_low (cfg : config) (t : Z) (h q : float) :
  F64.int_truediv t 1000 = Ok q ->
  t < TOKEN_THRESHOLD cfg ->
  routing_logic cfg t h
  = Ok {| model_used := "gpt-4o-mini";
          est_cost_actual := F64.mul q (PRICE_MINI cfg);
          route_reason := "Low complexity (Token count < 50)";
          savings := F64.sub h (F64.mul q (PRICE_MINI cfg)) |}.
Proof.
  intros E Ht. unfold routing_logic.
  assert ((t <? TOKEN_THRESHOLD cfg) = true) as -> by lia.
  rewrite (est_cost_eq t q _ E). reflexivity.
Qed.

Lemma routing_logic_high (cfg : config) (t : Z) (h : float) :
  TOKEN_THRESHOLD cfg <= t ->
  routing_logic cfg t h
  = Ok {| model_used := "gpt-4o";
          est_cost_actual := h;
          route_reason := "High complexity";
          savings := F64.sub h h |}.
Proof.
  intros Ht. unfold routing_logic.
  assert ((t <? TOKEN_THRESHOLD cfg) = false) as -> by lia.
  reflexivity.
Qed.

Lemma routing_logic_ok (cfg : config) (t : Z) (h q : float) :
  F64.int_truediv t 1000 = Ok q ->
  exists r, routing_logic cfg t h = Ok r
            /\ savings r = F64.sub h (est_cost_actual r).
Proof.
  intros E. destruct (Z.lt_ge_cases t (TOKEN_THRESHOLD cfg)) as [Ht|Ht].
  - rewrite (routing_logic_low cfg t h q E Ht). eauto.
  - rewrite (routing_logic_high cfg t h Ht). eauto.
Qed.

Lemma sidebar_total (st : gmap string float) :
  exists total, sidebar st !! "total_savings" = Some total
                /\ (st !! "total_savings" = None -> total = F64.zero)
                /\ (forall v, st !! "total_savings" = Some v -> total = v /\ sidebar st = st).
Proof.
  unfold sidebar. destruct (st !! "total_savings") as [v|] eqn:E.
  - exists v. rewrite E. repeat split; congruence.
  - exists F64.zero. rewrite lookup_insert_eq. repeat split; congruence.
Qed.

Lemma truthy_ne (s : string) : s <> EmptyString -> truthy s = true.
Proof.
  intros Hs. unfold truthy. destruct (String.eqb_spec s EmptyString); [contradiction|reflexivity].
Qed.

(** A run on a submitted prompt whose token count fits a machine word
    goes through; this is what it leaves. *)
Lemma run_processed (cfg : config) (w : widgets) (st : gmap string float)
    (p : string) (t : Z) :
  prompt w = Some p -> p <> EmptyString ->
  get_token_count p "gpt-4o" = Ok t -> t < 2 ^ 63 ->
  exists (q : float) (r : routing) (total : float),
    F64.int_truediv t 1000 = Ok q
    /\ routing_logic cfg t (F64.mul q (PRICE_GPT4 cfg)) = Ok r
    /\ sidebar st !! "total_savings" = Some total
    /\ let a := {| tokens := t; est_cost_high := F64.mul q (PRICE_GPT4 cfg);
                   clean_prompt := fst (scan_and_redact p);
                   pii_count := snd (scan_and_redact p) |} in
       let shown := display_decision (compliance_mode w) p a r in
       run cfg w st
       = (<["total_savings" := F64.add total (savings r)]> (sidebar st),
          Ok (Some {| analysed := a; routed := r;
                      final_prompt := fst shown; notices := snd shown;
                      sent := execution_layer (api_key w) (model_used r) (fst shown) |})).
Proof.
  intros Hp Hne Ht Hb.
  pose proof (get_token_count_nonneg _ _ _ Ht) as H0.
  destruct (est_cost_ok t (PRICE_GPT4 cfg) ltac:(lia)) as (q & Eq & Ec).
  destruct (routing_logic_ok cfg t (F64.mul q (PRICE_GPT4 cfg)) q Eq) as (r & Er & _).
  destruct (sidebar_total st) as (total & Et & _).
  exists q, r, total. split; [exact Eq|]. split; [exact Er|]. split; [exact Et|].
  cbv zeta. unfold run. rewrite Hp, (truthy_ne p Hne).
  unfold gateway, analysis_layer. rewrite Ht. simpl mbind. rewrite Ec. simpl mbind.
  unfold scan_and_redact. cbn [fst snd mbind result_bind mret result_ret tokens est_cost_high].
  rewrite Er. run_step. unfold add_savings. rewrite Et.
  run_step.
  destruct (display_decision _ _ _ _) as [fp shown]. reflexivity.
Qed.

(** Every run ends in one of three ways: nothing was submitted, an
    exception ended it, or the prompt was processed. *)
Lemma run_cases (cfg : config) (w : widgets) (st : gmap string float) :
  run cfg w st = (sidebar st, Ok None)
  \/ (exists e, run cfg w st = (sidebar st, Raise e))
  \/ (exists (p : string) (t : Z) (q : float) (r : routing) (total : float),
        prompt w = Some p
        /\ get_token_count p "gpt-4o" = Ok t
        /\ F64.int_truediv t 1000 = Ok q
        /\ routing_logic cfg t (F64.mul q (PRICE_GPT4 cfg)) = Ok r
        /\ sidebar st !! "total_savings" = Some total
        /\ let a := {| tokens := t; est_cost_high := F64.mul q (PRICE_GPT4 cfg);
                       clean_prompt := fst (scan_and_redact p);
                       pii_count := snd (scan_and_redact p) |} in
           let shown := display_decision (compliance_mode w) p a r in
           run cfg w st
           = (<["total_savings" := F64.add total (savings r)]> (sidebar st),
              Ok (Some {| analysed := a; routed := r;
                          final_prompt := fst shown; notices := snd shown;
                          sent := execution_layer (api_key w) (model_used r) (fst shown) |}))).
Proof.
  destruct (sidebar_total st) as (total & Et & _).
  unfold run. destruct (prompt w) as [p|] eqn:Hp; [|left; reflexivity].
  destruct (truthy p); [|left; reflexivity].
  unfold gateway, analysis_layer.
  destruct (get_token_count p "gpt-4o") as [t|e] eqn:Ht;
    [|right; left; exists e; reflexivity].
  run_step.
  destruct (est_cost t (PRICE_GPT4 cfg)) as [h|e] eqn:Eh;
    [|right; left; exists e; reflexivity].
  destruct (est_cost_inv _ _ _ Eh) as (q & Eq & ->).
  run_step. unfold scan_and_redact.
  cbn [fst snd mbind result_bind mret result_ret tokens est_cost_high].
  destruct (routing_logic cfg t (F64.mul q (PRICE_GPT4 cfg))) as [r|e] eqn:Er;
    [|right; left; exists e; reflexivity].
  run_step. unfold add_savings. rewrite Et.
  run_step.
  right; right. exists p, t, q, r, total.
  repeat (split; [first [reflexivity|assumption]|]).
  cbv zeta. destruct (display_decision _ _ _ _) as [fp shown]. reflexivity.
Qed.

Lemma saving_amount_small :
  forallb saving_is_amount (map Z.of_nat (seq 0 50)) = true.
Proof. vm_compute. reflexivity. Qed.

(** Under the shipped configuration every saving is an amount: positive
    on the cheap route, [+0.0] on the expensive one. *)
Lemma saving_amount (t : Z) (q : float) (r : routing) :
  0 <= t ->
  F64.int_truediv t 1000 = Ok q ->
  routing_logic app_config t (F64.mul q (PRICE_GPT4 app_config)) = Ok r ->
  F64.amount (savings r) = true.
Proof.
  intros H0 Eq Er.
  destruct (Z.lt_ge_cases t 50) as [Hlt|Hge].
  - pose proof saving_amount_small as Hs.
    rewrite forallb_forall in Hs.
    specialize (Hs t). unfold saving_is_amount in Hs.
    rewrite (est_cost_eq t q _ Eq), Er in Hs. apply Hs.
    replace t with (Z.of_nat (Z.to_nat t)) by lia.
    apply in_map, in_seq. lia.
  - rewrite (routing_logic_high app_config t _ Hge) in Er.
    injection Er as <-. cbn [savings].
    destruct (int_truediv_1000 t ltac:(lia) ltac:(right; eauto))
      as (mq & eq & Eq' & Hd & He).
    rewrite Eq' in Eq. injection Eq as <-.
    destruct (mul_price mq 8646911284551352 eq (-58) Hd eq_refl He ltac:(lia))
      as (mf & ef & Em & _).
    change (PRICE_GPT4 app_config) with (S754_finite false 8646911284551352 (-58)).
    rewrite Em, sub_self. reflexivity.
Qed.

Lemma leb_refl_amount (a : float) : F64.amount a = true -> F64.leb a a = true.
Proof.
  destruct a as [[]|[]| |[] m e]; intros Ha; try discriminate Ha; try reflexivity.
  apply leb_refl_finite.
Qed.

Lemma compare_finite_lt (m1 m2 : positive) (e1 e2 : Z) :
  e1 < e2 ->
  F64.ltb (S754_finite false m1 e1) (S754_finite false m2 e2) = true.
Proof.
  intros He. unfold F64.ltb, SFltb, SFcompare.
  destruct (Z.compare_spec e1 e2); first [reflexivity|lia].
Qed.

(** One run never lowers the session total, and keeps it an amount. *)
Lemma run_total (w : widgets) (st : gmap string float) :
  (forall v, st !! "total_savings" = Some v -> F64.amount v = true) ->
  exists a b : float,
    total_savings (sidebar st) = Some a
    /\ total_savings (fst (run app_config w st)) = Some b
    /\ F64.amount b = true
    /\ F64.leb a b = true.
Proof.
  intros Hinv. unfold total_savings.
  destruct (sidebar_total st) as (total & Et & Hnone & Hsome).
  assert (Ha : F64.amount total = true).
  { destruct (st !! "total_savings") as [v|] eqn:E.
    - destruct (Hsome v eq_refl) as [-> _]. apply Hinv. reflexivity.
    - rewrite (Hnone eq_refl). reflexivity. }
  exists total.
  destruct (run_cases app_config w st)
    as [E|[(e & E)|(p & t & q & r & total' & _ & Ht & Eq & Er & Et' & E)]].
  - exists total. rewrite E. cbn [fst]. auto using leb_refl_amount.
  - exists total. rewrite E. cbn [fst]. auto using leb_refl_amount.
  - cbv zeta in E. rewrite E. cbn [fst]. rewrite lookup_insert_eq.
    rewrite Et in Et'. injection Et' as <-.
    pose proof (get_token_count_nonneg _ _ _ Ht) as H0.
    pose proof (saving_amount t q r H0 Eq Er) as Hs.
    destruct (add_amount total (savings r) Ha Hs) as [H1 H2].
    exists (F64.add total (savings r)). auto.
Qed.

Lemma session_total (runs : list widgets) (st : gmap string float) :
  (forall v, st !! "total_savings" = Some v -> F64.amount v = true) ->
  forall v, session app_config runs st !! "total_savings" = Some v ->
            F64.amount v = true.
Proof.
  revert st. induction runs as [|w runs IH]; intros st Hinv; [exact Hinv|].
  cbn [session]. apply IH. intros v Hv.
  destruct (run_total w st Hinv) as (a & b & _ & Hb & Hamt & _).
  unfold total_savings in Hb. congruence.
Qed.

Lemma routing_logic_savings (cfg : config) (t : Z) (h : float) (r : routing) :
  routing_logic cfg t h = Ok r -> savings r = F64.sub h (est_cost_actual r).
Proof.
  unfold routing_logic. destruct (t <? TOKEN_THRESHOLD cfg).
  - destruct (est_cost t (PRICE_MINI cfg)) as [c|e]; [|discriminate].
    run_step. intros [= <-]. reflexivity.
  - run_step. intros [= <-]. reflexivity.
Qed.

(** What a run decides does not depend on the session state. *)
Lemma run_snd_indep (cfg : config) (w : widgets) (st st2 : gmap string float) :
  snd (run cfg w st) = snd (run cfg w st2).
Proof.
  destruct (sidebar_total st) as (total & Et & _).
  destruct (sidebar_total st2) as (total2 & Et2 & _).
  unfold run. destruct (prompt w) as [p|]; [|reflexivity].
  destruct (truthy p); [|reflexivity].
  unfold gateway. destruct (analysis_layer cfg p) as [a|e]; [|reflexivity].
  run_step.
  destruct (routing_logic cfg (tokens a) (est_cost_high a)) as [r|e]; [|reflexivity].
  run_step. unfold add_savings. rewrite Et, Et2.
  run_step.
  destruct (display_decision _ _ _ _) as [fp shown]. reflexivity.
Qed.

Lemma run_inv (cfg : config) (w : widgets) (st st' : gmap string float) (d : decision) :
  run cfg w st = (st', Ok (Some d)) ->
  exists (p : string) (q : float) (total : float),
    prompt w = Some p
    /\ get_token_count p "gpt-4o" = Ok (tokens (analysed d))
    /\ F64.int_truediv (tokens (analysed d)) 1000 = Ok q
    /\ est_cost_high (analysed d) = F64.mul q (PRICE_GPT4 cfg)
    /\ routing_logic cfg (tokens (analysed d)) (est_cost_high (analysed d)) = Ok (routed d)
    /\ sidebar st !! "total_savings" = Some total
    /\ st' = <["total_savings" := F64.add total (savings (routed d))]> (sidebar st).
Proof.
  intros Hrun.
  destruct (run_cases cfg w st)
    as [E|[(e & E)|(p & t & q & r & total & Hp & Ht & Eq & Er & Et & E)]];
    try (rewrite E in Hrun; discriminate).
  cbv zeta in E. rewrite E in Hrun. injection Hrun as <- <-.
  exists p, q, total. cbn [analysed routed tokens est_cost_high]. auto 10.
Qed.

Lemma run_again (cfg : config) (w : widgets) (st st' st2 : gmap string float)
    (d : decision) :
  run cfg w st = (st', Ok (Some d)) ->
  exists total2,
    sidebar st2 !! "total_savings" = Some total2
    /\ run cfg w st2
       = (<["total_savings" := F64.add total2 (savings (routed d))]> (sidebar st2),
          Ok (Some d)).
Proof.
  intros Hrun.
  pose proof (run_snd_indep cfg w st st2) as Hsnd. rewrite Hrun in Hsnd. cbn [snd] in Hsnd.
  destruct (run_cases cfg w st2)
    as [E|[(e & E)|(p & t & q & r & total & Hp & Ht & Eq & Er & Et & E)]];
    try (rewrite E in Hsnd; discriminate).
  cbv zeta in E. rewrite E in Hsnd. cbn [snd] in Hsnd. injection Hsnd as ->.
  exists total. split; [exact Et|]. rewrite E. reflexivity.
Qed.

Lemma run_saving_amount (w : widgets) (st st' : gmap string float) (d : decision) :
  run app_config w st = (st', Ok (Some d)) ->
  F64.amount (savings (routed d)) = true.
Proof.
  intros Hrun.
  destruct (run_inv _ _ _ _ _ Hrun) as (p & q & total & _ & Ht & Eq & Eh & Er & _).
  rewrite Eh in Er.
  exact (saving_amount _ q _ (get_token_count_nonneg _ _ _ Ht) Eq Er).
Qed.

Lemma shipped_rates_ordered : rate_table_ordered app_config.
Proof. repeat split. Qed.

Lemma shipped_cost_finite (t : Z) (q : float) :
  0 <= t -> F64.int_truediv t 1000 = Ok q ->
  finite_float (F64.mul q (PRICE_GPT4 app_config)) = true.
Proof.
  intros Ht E.
  destruct (quotient_cases t q Ht E) as [[-> ->]|(Hpos & mq & eq & -> & Hd & He)].
  - reflexivity.
  - destruct (mul_price mq 8646911284551352 eq (-58) Hd eq_refl He ltac:(lia))
      as (mf & ef & Em & _).
    change (PRICE_GPT4 app_config) with (S754_finite false 8646911284551352 (-58)).
    rewrite Em. reflexivity.
Qed.

(** With an ordered rate table the saving is not negative, as long as
    the price on the expensive model has not overflowed to infinity. *)
Lemma saving_nonneg_ordered (cfg : config) (t : Z) (q : float) (r : routing) :
  rate_table_ordered cfg ->
  0 <= t ->
  F64.int_truediv t 1000 = Ok q ->
  routing_logic cfg t (F64.mul q (PRICE_GPT4 cfg)) = Ok r ->
  finite_float (F64.mul q (PRICE_GPT4 cfg)) = true ->
  F64.leb F64.zero (savings r) = true.
Proof.
  intros (Vlo & Vhi & Flo & Fhi & Hle) Ht Eq Er Hfin.
  pose proof (cost_valid t q _ Ht Eq Vhi) as Vh.
  destruct (Z.lt_ge_cases t (TOKEN_THRESHOLD cfg)) as [Hlt|Hge].
  - rewrite (routing_logic_low cfg t _ q Eq Hlt) in Er. injection Er as <-.
    cbn [savings].
    apply sub_nonneg; [exact Vh| |exact Hfin|].
    + exact (cost_valid t q _ Ht Eq Vlo).
    + apply (cost_rate_mono t); auto.
  - rewrite (routing_logic_high cfg t _ Hge) in Er. injection Er as <-.
    cbn [savings]. rewrite (sub_self_finite _ Hfin). reflexivity.
Qed.

(** When neither rate is negative, the saving is an amount. *)
Lemma saving_amount_ordered (cfg : config) (t : Z) (q : float) (r : routing) :
  rate_table_ordered cfg ->
  F64.amount (PRICE_MINI cfg) = true -> F64.amount (PRICE_GPT4 cfg) = true ->
  0 <= t ->
  F64.int_truediv t 1000 = Ok q ->
  routing_logic cfg t (F64.mul q (PRICE_GPT4 cfg)) = Ok r ->
  finite_float (F64.mul q (PRICE_GPT4 cfg)) = true ->
  F64.amount (savings r) = true.
Proof.
  intros (Vlo & Vhi & Flo & Fhi & Hle) Alo Ahi Ht Eq Er Hfin.
  pose proof (cost_amount t q _ Ht Eq Ahi Fhi) as Ah.
  destruct (Z.lt_ge_cases t (TOKEN_THRESHOLD cfg)) as [Hlt|Hge].
  - rewrite (routing_logic_low cfg t _ q Eq Hlt) in Er. injection Er as <-.
    cbn [savings].
    apply sub_amount; [exact Ah| |exact Hfin|].
    + exact (cost_amount t q _ Ht Eq Alo Flo).
    + apply (cost_rate_mono t); auto using amount_valid.
  - rewrite (routing_logic_high cfg t _ Hge) in Er. injection Er as <-.
    cbn [savings]. rewrite (sub_self_amount _ Ah Hfin). reflexivity.
Qed.

(** One processed prompt with a saving that is an amount never lowers
    the session total. *)
Lemma run_total_step (cfg : config) (w : widgets) (st st' : gmap string float)
    (d : decision) :
  (forall v, total_savings st = Some v -> F64.amount v = true) ->
  run cfg w st = (st', Ok (Some d)) ->
  F64.amount (savings (routed d)) = true ->
  exists a b : float,
    total_savings (sidebar st) = Some a
    /\ total_savings st' = Some b
    /\ F64.amount b = true
    /\ F64.leb a b = true.
Proof.
  intros Hinv Hrun Hs. unfold total_savings in *.
  destruct (run_inv _ _ _ _ _ Hrun) as (p & q & total & _ & _ & _ & _ & _ & Et & ->).
  destruct (sidebar_total st) as (total' & Et' & Hnone & Hsome).
  rewrite Et in Et'. injection Et' as <-.
  assert (Ha : F64.amount total = true).
  { destruct (st !! "total_savings") as [v|] eqn:E.
    - destruct (Hsome v eq_refl) as [-> _]. apply Hinv. reflexivity.
    - rewrite (Hnone eq_refl). reflexivity. }
  destruct (add_amount total (savings (routed d)) Ha Hs) as [H1 H2].
  exists total, (F64.add total (savings (routed d))).
  rewrite lookup_insert_eq. auto.
Qed.

(** C5 (amended).  A submitted prompt whose tokens are counted is
    processed, and what it books is this: the saving is the price of its
    tokens on the expensive model minus the actual cost, which is their
    price on the cheap model below the threshold and the expensive price
    itself from the threshold on; the session total grows by just that.
    With an ordered rate table, two finite rates of either sign with
    the cheap one at most the expensive one, the saving is never negative
    as long as the expensive price has not overflowed to infinity (when
    it has, the saving is no number); with the shipped rates it never
    overflows.
    Two prompts from a fresh session with savings [d1] and [d2] that are
    not negative leave the total [d1 + d2], in either order, and a prompt
    with such a saving never lowers the total; with the shipped rates the
    session total never goes down. *)
Theorem savings_ledger :
  (forall (cfg : config) (w : widgets) (st : gmap string float) (p : string) (t : Z),
      prompt w = Some p -> p <> EmptyString ->
      get_token_count p "gpt-4o" = Ok t -> t < 2 ^ 63 ->
      exists (st' : gmap string float) (d : decision),
        run cfg w st = (st', Ok (Some d)) /\ tokens (analysed d) = t)
  /\ (forall (cfg : config) (w : widgets) (st st' : gmap string float) (d : decision),
      run cfg w st = (st', Ok (Some d)) ->
      exists (p : string) (total : float),
        prompt w = Some p
        /\ get_token_count p "gpt-4o" = Ok (tokens (analysed d))
        /\ est_cost (tokens (analysed d)) (PRICE_GPT4 cfg)
           = Ok (est_cost_high (analysed d))
        /\ (tokens (analysed d) < TOKEN_THRESHOLD cfg ->
            model_used (routed d) = "gpt-4o-mini"
            /\ est_cost (tokens (analysed d)) (PRICE_MINI cfg)
               = Ok (est_cost_actual (routed d)))
        /\ (TOKEN_THRESHOLD cfg <= tokens (analysed d) ->
            model_used (routed d) = "gpt-4o"
            /\ est_cost_actual (routed d) = est_cost_high (analysed d))
        /\ savings (routed d)
           = F64.sub (est_cost_high (analysed d)) (est_cost_actual (routed d))
        /\ total_savings (sidebar st) = Some total
        /\ total_savings st' = Some (F64.add total (savings (routed d)))
        /\ (rate_table_ordered cfg ->
            finite_float (est_cost_high (analysed d)) = true ->
            F64.leb F64.zero (savings (routed d)) = true
            /\ (F64.amount (PRICE_MINI cfg) = true ->
                F64.amount (PRICE_GPT4 cfg) = true ->
                F64.amount (savings (routed d)) = true)))
  /\ (rate_table_ordered app_config
      /\ forall (w : widgets) (st st' : gmap string float) (d : decision),
           run app_config w st = (st', Ok (Some d)) ->
           finite_float (est_cost_high (analysed d)) = true
           /\ F64.amount (savings (routed d)) = true
           /\ F64.leb F64.zero (savings (routed d)) = true)
  /\ (forall (cfg : config) (w1 w2 : widgets) (s1 s2 : gmap string float)
             (d1 d2 : decision),
        run cfg w1 ∅ = (s1, Ok (Some d1)) ->
        run cfg w2 s1 = (s2, Ok (Some d2)) ->
        F64.amount (savings (routed d1)) = true ->
        F64.amount (savings (routed d2)) = true ->
        total_savings s2
        = Some (F64.add (savings (routed d1)) (savings (routed d2)))
        /\ total_savings (session cfg [w2; w1] ∅) = total_savings s2)
  /\ (forall (cfg : config) (w : widgets) (st st' : gmap string float) (d : decision),
        (forall v, total_savings st = Some v -> F64.amount v = true) ->
        run cfg w st = (st', Ok (Some d)) ->
        F64.amount (savings (routed d)) = true ->
        exists a b : float,
          total_savings (sidebar st) = Some a
          /\ total_savings st' = Some b
          /\ F64.amount b = true
          /\ F64.leb a b = true)
  /\ (forall (runs : list widgets) (w : widgets),
        exists a b : float,
          total_savings (sidebar (session app_config runs ∅)) = Some a
          /\ total_savings (fst (run app_config w (session app_config runs ∅))) = Some b
          /\ F64.leb a b = true).
Proof.
  split; [|split; [|split; [|split; [|split]]]].
  - intros cfg w st p t Hp Hne Ht Hb.
    destruct (run_processed cfg w st p t Hp Hne Ht Hb) as (q & r & total & _ & _ & _ & E).
    cbv zeta in E. rewrite E. eexists _, _. split; reflexivity.
  - intros cfg w st st' d Hrun.
    destruct (run_inv _ _ _ _ _ Hrun) as (p & q & total & Hp & Ht & Eq & Eh & Er & Et & ->).
    pose proof (get_token_count_nonneg _ _ _ Ht) as H0.
    exists p, total.
    split; [exact Hp|]. split; [exact Ht|].
    split; [rewrite Eh; exact (est_cost_eq _ q _ Eq)|].
    split.
    { intros Hlt. rewrite (routing_logic_low cfg _ _ q Eq Hlt) in Er.
      injection Er as Er. rewrite <- Er. cbn [model_used est_cost_actual].
      split; [reflexivity|exact (est_cost_eq _ q _ Eq)]. }
    split.
    { intros Hge. rewrite (routing_logic_high cfg _ _ Hge) in Er.
      injection Er as Er. rewrite <- Er. split; reflexivity. }
    split; [exact (routing_logic_savings _ _ _ _ Er)|].
    split; [exact Et|].
    split; [unfold total_savings; apply lookup_insert_eq|].
    intros Hord Hfin. rewrite Eh in Er, Hfin.
    split; [exact (saving_nonneg_ordered cfg _ q _ Hord H0 Eq Er Hfin)|].
    intros Alo Ahi.
    exact (saving_amount_ordered cfg _ q _ Hord Alo Ahi H0 Eq Er Hfin).
  - split; [exact shipped_rates_ordered|].
    intros w st st' d Hrun.
    destruct (run_inv _ _ _ _ _ Hrun) as (p & q & total & _ & Ht & Eq & Eh & _).
    pose proof (get_token_count_nonneg _ _ _ Ht) as H0.
    pose proof (run_saving_amount _ _ _ _ Hrun) as Hs.
    split; [rewrite Eh; exact (shipped_cost_finite _ q H0 Eq)|].
    split; [exact Hs|apply leb_zero_amount, Hs].
  - intros cfg w1 w2 s1 s2 d1 d2 H1 H2 A1 A2.
    assert (Z0 : sidebar (∅ : gmap string float) !! "total_savings" = Some F64.zero)
      by reflexivity.
    assert (Hfresh : forall (w : widgets) (s : gmap string float) (d : decision),
               run cfg w ∅ = (s, Ok (Some d)) ->
               F64.amount (savings (routed d)) = true ->
               s !! "total_savings" = Some (savings (routed d)) /\ sidebar s = s).
    { intros w s d Hr Ha.
      destruct (run_inv _ _ _ _ _ Hr) as (p & q & total & _ & _ & _ & _ & _ & Et & ->).
      rewrite Z0 in Et. injection Et as <-.
      rewrite (add_zero_l _ Ha).
      assert (L : <["total_savings" := savings (routed d)]> (sidebar (∅ : gmap string float))
                  !! "total_savings" = Some (savings (routed d)))
        by apply lookup_insert_eq.
      split; [exact L|]. unfold sidebar at 1. rewrite L. reflexivity. }
    assert (Hnext : forall (w : widgets) (s s' : gmap string float) (d : decision) (v : float),
               s !! "total_savings" = Some v -> sidebar s = s ->
               run cfg w s = (s', Ok (Some d)) ->
               total_savings s' = Some (F64.add v (savings (routed d)))).
    { intros w s s' d v Hv Hs Hr.
      destruct (run_inv _ _ _ _ _ Hr) as (p & q & total & _ & _ & _ & _ & _ & Et & ->).
      rewrite Hs, Hv in Et. injection Et as <-.
      unfold total_savings. apply lookup_insert_eq. }
    destruct (Hfresh _ _ _ H1 A1) as [T1 S1].
    pose proof (Hnext _ _ _ _ _ T1 S1 H2) as T2.
    split; [exact T2|].
    destruct (run_again cfg w2 s1 s2 ∅ d2 H2) as (z & Ez & R2).
    destruct (Hfresh _ _ _ R2 A2) as [T1' S1'].
    destruct (run_again cfg w1 ∅ s1 (fst (run cfg w2 ∅)) d1 H1)
      as (z' & Ez' & R1).
    cbn [session]. rewrite R2 in R1 |- *. cbn [fst] in R1 |- *.
    rewrite R1. cbn [fst].
    rewrite (Hnext _ _ _ _ _ T1' S1' R1), T2, add_comm. reflexivity.
  - exact run_total_step.
  - intros runs w.
    destruct (run_total w (session app_config runs ∅)) as (a & b & Ha & Hb & _ & Hle).
    + apply session_total. intros v Hv. rewrite lookup_empty in Hv. discriminate.
    + exists a, b. auto.
Qed.

(** C1 (amended).  The price on the expensive model is computed for every
    token count, also when the cheap model is chosen.  The price on the
    cheap model is computed only when the cheap model is chosen; on the
    expensive route the actual cost is the expensive price itself. *)
Theorem cost_per_route (cfg : config) (t : Z) :
  0 <= t < 2 ^ 63 ->
  exists (q : float) (r : routing),
    F64.int_truediv t 1000 = Ok q
    /\ est_cost t (PRICE_GPT4 cfg) = Ok (F64.mul q (PRICE_GPT4 cfg))
    /\ routing_logic cfg t (F64.mul q (PRICE_GPT4 cfg)) = Ok r
    /\ (t < TOKEN_THRESHOLD cfg ->
        model_used r = "gpt-4o-mini"
        /\ est_cost t (PRICE_MINI cfg) = Ok (est_cost_actual r))
    /\ (TOKEN_THRESHOLD cfg <= t ->
        model_used r = "gpt-4o"
        /\ costs_computed (F64.mul q (PRICE_GPT4 cfg)) r
           = [F64.mul q (PRICE_GPT4 cfg); F64.mul q (PRICE_GPT4 cfg)]).
Proof.
  intros Ht. destruct (est_cost_ok t (PRICE_GPT4 cfg) Ht) as (q & Eq & Eh).
  destruct (Z.lt_ge_cases t (TOKEN_THRESHOLD cfg)) as [Hlt|Hge].
  - eexists q, _. split; [exact Eq|]. split; [exact Eh|].
    split; [exact (routing_logic_low cfg t _ q Eq Hlt)|].
    split; [|lia]. intros _. split; [reflexivity|].
    exact (est_cost_eq t q _ Eq).
  - eexists q, _. split; [exact Eq|]. split; [exact Eh|].
    split; [exact (routing_logic_high cfg t _ Hge)|].
    split; [lia|]. intros _. split; reflexivity.
Qed.

(** C2 (amended).  With the threshold 50 a count below 50 goes to
    [gpt-4o-mini] with the reason "Low complexity (Token count < 50)",
    a count of 50 or more to [gpt-4o] with the reason "High complexity". *)
Theorem routing_threshold (t : Z) (h : float) :
  0 <= t ->
  exists r : routing,
    routing_logic app_config t h = Ok r
    /\ (t < 50 ->
        model_used r = "gpt-4o-mini"
        /\ route_reason r = "Low complexity (Token count < 50)")
    /\ (50 <= t ->
        model_used r = "gpt-4o" /\ route_reason r = "High complexity").
Proof.
  intros Ht. destruct (Z.lt_ge_cases t 50) as [Hlt|Hge].
  - destruct (est_cost_ok t (PRICE_MINI app_config) ltac:(lia)) as (q & Eq & _).
    eexists. split; [exact (routing_logic_low app_config t h q Eq Hlt)|].
    split; [|lia]. intros _. split; reflexivity.
  - eexists. split; [exact (routing_logic_high app_config t h Hge)|].
    split; [lia|]. intros _. split; reflexivity.
Qed.

Lemma len_pos {A : Type} (l : list A) : l <> [] -> 0 < len l.
Proof. destruct l; [contradiction|]. intros _. unfold len. simpl. lia. Qed.

(** C4.  In audit-only mode a prompt with findings goes on unchanged; the
    audit violation is logged and no redaction is reported. *)
Theorem audit_only_forwards_raw (cfg : config) (w : widgets)
    (st : gmap string float) (p : string) (t : Z) :
  prompt w = Some p -> p <> EmptyString ->
  get_token_count p "gpt-4o" = Ok t -> t < 2 ^ 63 ->
  compliance_mode w = AuditOnly ->
  analyze p entities "en" <> [] ->
  exists (st' : gmap string float) (d : decision),
    run cfg w st = (st', Ok (Some d))
    /\ final_prompt d = p
    /\ forwarded (sent d) = p
    /\ audit_flagged d = true
    /\ redacted d = false.
Proof.
  intros Hp Hne Ht Hb Hmode Hfound.
  destruct (run_processed cfg w st p t Hp Hne Ht Hb) as (q & r & total & _ & _ & _ & E).
  cbv zeta in E. rewrite E. eexists _, _. split; [reflexivity|].
  unfold display_decision, pii_check, scan_and_redact.
  cbn [fst snd clean_prompt pii_count]. rewrite Hmode.
  pose proof (len_pos _ Hfound) as Hlen.
  assert ((0 <? len (analyze p entities "en")) = true) as -> by lia.
  change (String.eqb AuditOnly Strict) with false. cbn [fst snd final_prompt sent].
  repeat split.
  unfold execution_layer. destruct (truthy (api_key w)); reflexivity.
Qed.

(** C6.  A prompt without findings has the finding count 0 and goes on
    unchanged, whatever the compliance mode. *)
Theorem no_pii_forwards_prompt (cfg : config) (w : widgets)
    (st : gmap string float) (p : string) (t : Z) :
  prompt w = Some p -> p <> EmptyString ->
  get_token_count p "gpt-4o" = Ok t -> t < 2 ^ 63 ->
  analyze p entities "en" = [] ->
  exists (st' : gmap string float) (d : decision),
    run cfg w st = (st', Ok (Some d))
    /\ pii_count (analysed d) = 0
    /\ final_prompt d = p
    /\ forwarded (sent d) = p
    /\ audit_flagged d = false
    /\ redacted d = false.
Proof.
  intros Hp Hne Ht Hb Hnone.
  destruct (run_processed cfg w st p t Hp Hne Ht Hb) as (q & r & total & _ & _ & _ & E).
  cbv zeta in E. rewrite E. eexists _, _. split; [reflexivity|].
  unfold display_decision, pii_check, scan_and_redact.
  cbn [fst snd clean_prompt pii_count analysed]. rewrite Hnone.
  change (0 <? len []) with false. cbn [fst snd final_prompt sent].
  repeat split.
  unfold execution_layer. destruct (truthy (api_key w)); reflexivity.
Qed.

(** C7 (amended).  For two rates in order, [lo <= hi], that are numbers
    of the format (of any sign; infinite ones when there is a token), the
    price of a token count at [hi] is at least its price at [lo], and
    every count below 2^63 has both prices.  For the shipped rates,
    [0.00015 < 0.03], the price on the expensive model is strictly more
    whenever there is a token; for two rates in general it need not be,
    since two rates that differ can round to the same price. *)
Theorem cost_monotone :
  (forall (lo hi : float) (t : Z),
      valid_float lo = true -> valid_float hi = true ->
      F64.leb lo hi = true ->
      0 <= t ->
      0 < t \/ (finite_float lo = true /\ finite_float hi = true) ->
      (t < 2 ^ 63 ->
       exists low high : float,
         est_cost t lo = Ok low /\ est_cost t hi = Ok high)
      /\ (forall low high : float,
            est_cost t lo = Ok low -> est_cost t hi = Ok high ->
            F64.leb low high = true))
  /\ (forall t : Z,
        0 <= t < 2 ^ 63 ->
        F64.ltb (PRICE_MINI app_config) (PRICE_GPT4 app_config) = true
        /\ exists low high : float,
             est_cost t (PRICE_MINI app_config) = Ok low
             /\ est_cost t (PRICE_GPT4 app_config) = Ok high
             /\ F64.leb low high = true
             /\ (0 < t -> F64.ltb low high = true)).
Proof.
  split.
  - intros lo hi t Vlo Vhi Hle Ht Hfin. split.
    + intros Hb.
      destruct (est_cost_ok t lo ltac:(lia)) as (q1 & _ & E1).
      destruct (est_cost_ok t hi ltac:(lia)) as (q2 & _ & E2).
      eauto.
    + intros low high E1 E2.
      destruct (est_cost_inv _ _ _ E1) as (q1 & Q1 & ->).
      destruct (est_cost_inv _ _ _ E2) as (q2 & Q2 & ->).
      rewrite Q1 in Q2. injection Q2 as <-.
      exact (cost_rate_mono t q1 lo hi Ht Q1 Vlo Vhi Hfin Hle).
  - intros t Ht. split; [reflexivity|].
    destruct (Z.eq_dec t 0) as [->|Hne].
    + exists F64.zero, F64.zero. repeat split. lia.
    + destruct (int_truediv_1000 t ltac:(lia) ltac:(left; lia))
        as (mq & eq & Eq & Hd & He).
      destruct (mul_price mq 5534023222112865 eq (-65) Hd eq_refl He ltac:(lia))
        as (ml & el & El & _ & Hel).
      destruct (mul_price mq 8646911284551352 eq (-58) Hd eq_refl He ltac:(lia))
        as (mh & eh & Eh & _ & Heh).
      exists (S754_finite false ml el), (S754_finite false mh eh).
      rewrite !(est_cost_eq t _ _ Eq).
      change (PRICE_MINI app_config) with (S754_finite false 5534023222112865 (-65)).
      change (PRICE_GPT4 app_config) with (S754_finite false 8646911284551352 (-58)).
      rewrite El, Eh. split; [reflexivity|]. split; [reflexivity|].
      split; [apply compare_finite_le; lia|].
      intros _. apply compare_finite_lt. lia.
Qed.

Lemma concat_nil_inv (x : string) (xs : list string) :
  String.concat EmptyString (x :: xs) = EmptyString -> x = EmptyString.
Proof.
  destruct xs as [|y ys]; simpl; [auto|].
  destruct x; [reflexivity|discriminate].
Qed.

(** C8 (amended).  For a model that tiktoken does not know, the
    [KeyError] of the lookup is handled and the count is taken with the
    encoding [cl100k_base]: it is the number of tokens when
    [get_encoding] and [encode] return, and 0 for the empty text when the
    encoding is lossless.  What these two calls raise is not handled: it
    comes out of [get_token_count], and nothing else does. *)
Theorem token_count_falls_back (text model : string) :
  encoding_for_model model = Raise KeyError ->
  (forall (enc : Encoding) (toks : list Z),
      get_encoding "cl100k_base" = Ok enc ->
      encode enc text = Ok toks ->
      get_token_count text model = Ok (len toks)
      /\ (lossless enc -> text = EmptyString -> len toks = 0))
  /\ (forall e : exn,
        get_encoding "cl100k_base" = Raise e ->
        get_token_count text model = Raise e)
  /\ (forall (enc : Encoding) (e : exn),
        get_encoding "cl100k_base" = Ok enc ->
        encode enc text = Raise e ->
        get_token_count text model = Raise e)
  /\ (forall e : exn,
        get_token_count text model = Raise e ->
        get_encoding "cl100k_base" = Raise e
        \/ exists enc : Encoding,
             get_encoding "cl100k_base" = Ok enc /\ encode enc text = Raise e).
Proof.
  intros Hunknown.
  assert (E : get_token_count text model
              = (enc ← get_encoding "cl100k_base"; toks ← encode enc text; mret (len toks))).
  { unfold get_token_count, try_except. rewrite Hunknown.
    destruct (decide (KeyError = KeyError)); [reflexivity|contradiction]. }
  rewrite E. split; [|split; [|split]].
  - intros enc toks He Ht. rewrite He. run_step. rewrite Ht. run_step.
    split; [reflexivity|]. intros Hl ->.
    destruct (Hl EmptyString toks Ht) as [Hjoin Hpieces].
    destruct toks as [|tok toks]; [reflexivity|].
    exfalso. apply Forall_cons in Hpieces as [Hne _]. apply Hne.
    exact (concat_nil_inv _ _ Hjoin).
  - intros e He. rewrite He. reflexivity.
  - intros enc e He Ht. rewrite He. run_step. rewrite Ht. reflexivity.
  - intros e. destruct (get_encoding "cl100k_base") as [enc|e0]; run_step.
    + destruct (encode enc text) as [toks|e1] eqn:Ht; run_step; [discriminate|].
      intros [= ->]. right. exists enc. split; [reflexivity|exact Ht].
    + intros [= ->]. left. reflexivity.
Qed.

(** C9.  The warn-cost threshold is never read: two configurations that
    differ only in it give the same run, session state and decision alike. *)
Theorem warn_cost_unused (cfg : config) (w1 w2 : float) (ws : widgets)
    (st : gmap string float) :
  run (set_WARN_COST w1 cfg) ws st = run (set_WARN_COST w2 cfg) ws st
  /\ run (set_WARN_COST w1 cfg) ws st = run cfg ws st.
Proof. split; reflexivity. Qed.

(** C10.  Two runs that differ only in the compliance mode leave the same
    session state and either both process the prompt, with the same
    analysis (token count, expensive price, redacted text, finding count)
    and the same routing (model, actual cost, reason, saving), or both
    skip it, or both end in the same exception. *)
Theorem mode_noninterference (cfg : config) (w : widgets) (st : gmap string float)
    (mode1 mode2 : string) :
  let out1 := run cfg (with_mode mode1 w) st in
  let out2 := run cfg (with_mode mode2 w) st in
  fst out1 = fst out2
  /\ match snd out1, snd out2 with
     | Ok (Some d1), Ok (Some d2) => analysed d1 = analysed d2 /\ routed d1 = routed d2
     | Ok None, Ok None => True
     | Raise e1, Raise e2 => e1 = e2
     | _, _ => False
     end.
Proof.
  destruct (sidebar_total st) as (total & Et & _).
  unfold run, with_mode. cbn [prompt compliance_mode api_key].
  destruct (prompt w) as [p|]; [|split; [reflexivity|exact I]].
  destruct (truthy p); [|split; [reflexivity|exact I]].
  unfold gateway. destruct (analysis_layer cfg p) as [a|e]; [|split; reflexivity].
  run_step.
  destruct (routing_logic cfg (tokens a) (est_cost_high a)) as [r|e]; [|split; reflexivity].
  run_step. unfold add_savings. rewrite Et.
  run_step. cbn [compliance_mode api_key].
  destruct (display_decision mode1 p a r) as [fp1 shown1].
  destruct (display_decision mode2 p a r) as [fp2 shown2].
  cbn [fst snd analysed routed]. repeat split.
Qed.

End Gateway.

(** * The model on concrete prompts *)

Lemma append_empty (x : string) : String.append x EmptyString = x.
Proof.
  induction x as [|c x IH]; [reflexivity|].
  change (String c (String.append x EmptyString) = String c x). f_equal. exact IH.
Qed.

Lemma concat_cons (x : string) (xs : list string) :
  String.concat EmptyString (x :: xs) = String.append x (String.concat EmptyString xs).
Proof.
  destruct xs as [|y ys]; [|reflexivity].
  symmetry. apply append_empty.
Qed.

Lemma fake_bytes_join (text : string) :
  String.concat EmptyString (map Fake.byte (Fake.bytes text)) = text.
Proof.
  unfold Fake.bytes. induction text as [|c text IH]; [reflexivity|].
  cbn [String.list_ascii_of_string map]. rewrite concat_cons, IH.
  unfold Fake.byte. rewrite N2Z.id, Ascii.ascii_N_embedding. reflexivity.
Qed.

Lemma fake_bytes_nonempty (text : string) :
  Forall (fun t => Fake.byte t <> EmptyString) (Fake.bytes text).
Proof.
  unfold Fake.bytes. induction text as [|c text IH]; constructor;
    [discriminate|exact IH].
Qed.

Lemma fake_lossless (name : string) : @lossless Fake.tiktoken name.
Proof.
  intros text toks. cbn [encode Fake.tiktoken].
  destruct (Fake.contains Fake.special_token text); [discriminate|].
  intros [= <-]. split; [apply fake_bytes_join|apply fake_bytes_nonempty].
Qed.

Lemma cost_per_route_witness :
  exists (q : float) (r : routing),
    F64.int_truediv 46 1000 = Ok q
    /\ est_cost 46 (PRICE_GPT4 app_config) = Ok (F64.mul q (PRICE_GPT4 app_config))
    /\ routing_logic app_config 46 (F64.mul q (PRICE_GPT4 app_config)) = Ok r
    /\ (46 < TOKEN_THRESHOLD app_config ->
        model_used r = "gpt-4o-mini"
        /\ est_cost 46 (PRICE_MINI app_config) = Ok (est_cost_actual r))
    /\ (TOKEN_THRESHOLD app_config <= 46 ->
        model_used r = "gpt-4o"
        /\ costs_computed (F64.mul q (PRICE_GPT4 app_config)) r
           = [F64.mul q (PRICE_GPT4 app_config); F64.mul q (PRICE_GPT4 app_config)]).
Proof. apply (cost_per_route app_config 46). lia. Defined.

(** At 50 tokens the expensive model is chosen and neither cost variable
    holds the price on the cheap model. *)
Lemma low_tier_cost_absent_at_50 :
  exists (h : float) (r : routing) (l : float),
    est_cost 50 (PRICE_GPT4 app_config) = Ok h
    /\ routing_logic app_config 50 h = Ok r
    /\ est_cost 50 (PRICE_MINI app_config) = Ok l
    /\ model_used r = "gpt-4o"
    /\ ~ In l (costs_computed h r).
Proof.
  eexists _, _, _.
  split; [vm_compute; reflexivity|].
  split; [vm_compute; reflexivity|].
  split; [vm_compute; reflexivity|].
  split; [reflexivity|].
  simpl. intros [Hin|[Hin|[]]]; discriminate Hin.
Qed.

Lemma routing_threshold_witness :
  exists r : routing,
    routing_logic app_config 49 F64.zero = Ok r
    /\ (49 < 50 ->
        model_used r = "gpt-4o-mini"
        /\ route_reason r = "Low complexity (Token count < 50)")
    /\ (50 <= 49 ->
        model_used r = "gpt-4o" /\ route_reason r = "High complexity").
Proof. apply (routing_threshold 49 F64.zero). lia. Defined.

(** The boundary: 49 tokens go to the cheap model, 50 to the expensive one. *)
Example routing_at_49_and_50 :
  (r ← routing_logic app_config 49 F64.zero; mret (model_used r)) = Ok "gpt-4o-mini"
  /\ (r ← routing_logic app_config 50 F64.zero; mret (model_used r)) = Ok "gpt-4o".
Proof. vm_compute. split; reflexivity. Qed.

(** At 49 tokens the cheap model is chosen, but the reason given is not
    the text "below complexity threshold". *)
Lemma routing_reason_differs_at_49 :
  exists (h : float) (r : routing),
    est_cost 49 (PRICE_GPT4 app_config) = Ok h
    /\ routing_logic app_config 49 h = Ok r
    /\ model_used r = "gpt-4o-mini"
    /\ route_reason r <> "below complexity threshold".
Proof.
  eexists _, _.
  split; [vm_compute; reflexivity|].
  split; [vm_compute; reflexivity|].
  split; [reflexivity|]. discriminate.
Qed.

Lemma audit_only_forwards_raw_witness :
  exists (st' : gmap string float) (d : decision),
    Fake.run_fake app_config (Fake.submit AuditOnly Fake.call_me) ∅ = (st', Ok (Some d))
    /\ final_prompt d = Fake.call_me
    /\ forwarded (sent d) = Fake.call_me
    /\ audit_flagged d = true
    /\ redacted d = false.
Proof.
  apply (@audit_only_forwards_raw Fake.tiktoken Fake.presidio app_config
           (Fake.submit AuditOnly Fake.call_me) ∅ Fake.call_me 46).
  - reflexivity.
  - discriminate.
  - reflexivity.
  - reflexivity.
  - reflexivity.
  - vm_compute. discriminate.
Defined.

Lemma no_pii_forwards_prompt_witness :
  exists (st' : gmap string float) (d : decision),
    Fake.run_fake app_config (Fake.submit Strict Fake.hello) ∅ = (st', Ok (Some d))
    /\ pii_count (analysed d) = 0
    /\ final_prompt d = Fake.hello
    /\ forwarded (sent d) = Fake.hello
    /\ audit_flagged d = false
    /\ redacted d = false.
Proof.
  apply (@no_pii_forwards_prompt Fake.tiktoken Fake.presidio app_config
           (Fake.submit Strict Fake.hello) ∅ Fake.hello 39).
  - reflexivity.
  - discriminate.
  - reflexivity.
  - reflexivity.
  - reflexivity.
Defined.

(** The shipped rates at 46 tokens, through both parts of the theorem. *)
Lemma cost_monotone_witness :
  (exists low high : float,
     est_cost 46 (PRICE_MINI app_config) = Ok low
     /\ est_cost 46 (PRICE_GPT4 app_config) = Ok high
     /\ F64.leb low high = true
     /\ (0 < 46 -> F64.ltb low high = true))
  /\ (forall low high : float,
        est_cost 46 (PRICE_MINI app_config) = Ok low ->
        est_cost 46 (PRICE_GPT4 app_config) = Ok high ->
        F64.leb low high = true).
Proof.
  split.
  - apply (proj2 cost_monotone 46). lia.
  - apply (proj1 cost_monotone (PRICE_MINI app_config) (PRICE_GPT4 app_config) 46);
      first [reflexivity|lia].
Defined.

(** Two rates that differ, 0.03 and the next float above it: at 7 tokens
    the two prices are the same float, so the price at the higher rate is
    not strictly more. *)
Lemma costs_equal_at_adjacent_rates :
  exists c : float,
    valid_float (S754_finite false 8646911284551353 (-58)) = true
    /\ F64.ltb (PRICE_GPT4 app_config) (S754_finite false 8646911284551353 (-58)) = true
    /\ est_cost 7 (PRICE_GPT4 app_config) = Ok c
    /\ est_cost 7 (S754_finite false 8646911284551353 (-58)) = Ok c
    /\ F64.ltb c c = false.
Proof.
  eexists. split; [reflexivity|]. split; [reflexivity|].
  split; [vm_compute; reflexivity|]. split; [vm_compute; reflexivity|].
  reflexivity.
Qed.

(** With an infinite rate and no token the price is no number at all. *)
Example cost_at_infinite_rate :
  est_cost 0 (S754_infinity false) = Ok S754_nan
  /\ F64.leb S754_nan S754_nan = false.
Proof. split; reflexivity. Qed.

(** Both rates 2^1023 and 2000 tokens: the price is infinite, the
    expensive model is chosen, and the saving, infinity minus infinity,
    is no number; it is not [>= 0]. *)
Lemma saving_nan_on_overflow :
  exists (h : float) (r : routing),
    rate_table_ordered steep_rates
    /\ est_cost 2000 (PRICE_GPT4 steep_rates) = Ok h
    /\ routing_logic steep_rates 2000 h = Ok r
    /\ h = S754_infinity false
    /\ est_cost_actual r = S754_infinity false
    /\ savings r = S754_nan
    /\ F64.leb F64.zero (savings r) = false.
Proof.
  eexists _, _. split; [repeat split|].
  split; [vm_compute; reflexivity|]. split; [vm_compute; reflexivity|].
  repeat split.
Qed.

(** The ledger on two concrete prompts under the shipped rates, through
    the theorem. *)
Lemma savings_ledger_witness :
  exists (st' : gmap string float) (d : decision),
    Fake.run_fake app_config (Fake.submit Strict Fake.call_me) ∅ = (st', Ok (Some d))
    /\ tokens (analysed d) = 46.
Proof.
  apply (proj1 (@savings_ledger Fake.tiktoken Fake.presidio) app_config
           (Fake.submit Strict Fake.call_me) ∅ Fake.call_me 46).
  - reflexivity.
  - discriminate.
  - reflexivity.
  - reflexivity.
Defined.

Lemma token_count_falls_back_witness :
  (forall (enc : @Encoding Fake.tiktoken) (toks : list Z),
      @get_encoding Fake.tiktoken "cl100k_base" = Ok enc ->
      @encode Fake.tiktoken enc Fake.call_me = Ok toks ->
      @get_token_count Fake.tiktoken Fake.call_me "text-davinci-003" = Ok (len toks)
      /\ (@lossless Fake.tiktoken enc -> Fake.call_me = EmptyString -> len toks = 0))
  /\ (forall e : exn,
        @get_encoding Fake.tiktoken "cl100k_base" = Raise e ->
        @get_token_count Fake.tiktoken Fake.call_me "text-davinci-003" = Raise e)
  /\ (forall (enc : @Encoding Fake.tiktoken) (e : exn),
        @get_encoding Fake.tiktoken "cl100k_base" = Ok enc ->
        @encode Fake.tiktoken enc Fake.call_me = Raise e ->
        @get_token_count Fake.tiktoken Fake.call_me "text-davinci-003" = Raise e)
  /\ (forall e : exn,
        @get_token_count Fake.tiktoken Fake.call_me "text-davinci-003" = Raise e ->
        @get_encoding Fake.tiktoken "cl100k_base" = Raise e
        \/ exists enc : @Encoding Fake.tiktoken,
             @get_encoding Fake.tiktoken "cl100k_base" = Ok enc
             /\ @encode Fake.tiktoken enc Fake.call_me = Raise e).
Proof.
  apply (@token_count_falls_back Fake.tiktoken Fake.call_me "text-davinci-003").
  reflexivity.
Defined.

(** The fallback at work: 46 tokens for the sample prompt, none for the
    empty text. *)
Example token_count_unknown_model :
  @get_token_count Fake.tiktoken Fake.call_me "text-davinci-003" = Ok 46
  /\ @get_token_count Fake.tiktoken EmptyString "text-davinci-003" = Ok 0.
Proof. vm_compute. split; reflexivity. Qed.

(** A text that holds a special token: the model is unknown, the
    fallback encoding is found, and [encode] raises; the [ValueError]
    comes out of [get_token_count]. *)
Lemma token_count_raises_on_special_token :
  @encoding_for_model Fake.tiktoken "no-such-model" = Raise KeyError
  /\ @get_encoding Fake.tiktoken "cl100k_base" = Ok "cl100k_base"
  /\ @get_token_count Fake.tiktoken "<|endoftext|>" "no-such-model" = Raise ValueError.
Proof. vm_compute. repeat split. Qed.

(** Two prompts from a fresh session, in both orders. *)
Example savings_two_orders :
  total_savings
    (@session Fake.tiktoken Fake.presidio app_config
       [Fake.submit Strict Fake.hello; Fake.submit AuditOnly Fake.call_me] ∅)
  = Some (S754_finite false 5850500175127445 (-61))
  /\ total_savings
       (@session Fake.tiktoken Fake.presidio app_config
          [Fake.submit AuditOnly Fake.call_me; Fake.submit Strict Fake.hello] ∅)
     = Some (S754_finite false 5850500175127445 (-61)).
Proof. vm_compute. split; reflexivity. Qed.

(** * More of the script *)

Section Coverage.

Context {tk : Tiktoken} {pr : Presidio}.

(** X1.  With findings, what goes on depends only on whether the mode is
    the string "Strict (Block & Redact)": under it the anonymized text is
    sent and the redaction reported; under any other string the raw
    prompt is sent and the audit violation logged. *)
Theorem pii_found_outcome (cfg : config) (w : widgets)
    (st : gmap string float) (p : string) (t : Z) :
  prompt w = Some p -> p <> EmptyString ->
  get_token_count p "gpt-4o" = Ok t -> t < 2 ^ 63 ->
  analyze p entities "en" <> [] ->
  exists (st' : gmap string float) (d : decision),
    run cfg w st = (st', Ok (Some d))
    /\ (compliance_mode w = Strict ->
        final_prompt d = anonymize p (analyze p entities "en")
        /\ forwarded (sent d) = anonymize p (analyze p entities "en")
        /\ redacted d = true
        /\ audit_flagged d = false)
    /\ (compliance_mode w <> Strict ->
        final_prompt d = p
        /\ forwarded (sent d) = p
        /\ redacted d = false
        /\ audit_flagged d = true).
Proof.
  intros Hp Hne Ht Hb Hfound.
  destruct (run_processed cfg w st p t Hp Hne Ht Hb) as (q & r & total & _ & _ & _ & E).
  cbv zeta in E. rewrite E. eexists _, _. split; [reflexivity|].
  unfold display_decision, pii_check, scan_and_redact.
  cbn [fst snd clean_prompt pii_count].
  pose proof (len_pos _ Hfound) as Hlen.
  assert ((0 <? len (analyze p entities "en")) = true) as -> by lia.
  assert (Hsent : forall s, forwarded (execution_layer (api_key w) (model_used r) s) = s).
  { intros s. unfold execution_layer. destruct (truthy (api_key w)); reflexivity. }
  destruct (String.eqb_spec (compliance_mode w) Strict) as [Hs|Hs];
    cbn [fst snd final_prompt sent]; rewrite Hsent.
  - split; [|contradiction]. intros _. repeat split.
  - split; [contradiction|]. intros _. repeat split.
Qed.

(** ** The script with its key box *)

Lemma has_nul_truthy (s : string) : has_nul s = true -> truthy s = true.
Proof. destruct s; [discriminate|reflexivity]. Qed.

Lemma sidebar_idem (st : gmap string float) : sidebar (sidebar st) = sidebar st.
Proof.
  destruct (sidebar_total st) as (total & Et & _).
  unfold sidebar at 1. rewrite Et. reflexivity.
Qed.

Lemma run_sidebar (cfg : config) (w : widgets) (st : gmap string float) :
  run cfg w (sidebar st) = run cfg w st.
Proof. unfold run. rewrite sidebar_idem. reflexivity. Qed.

(** A key with a NUL byte ends the script at line 63. *)
Lemma script_nul (cfg : config) (w : widgets) (ps : process) :
  has_nul (api_key w) = true ->
  script cfg w ps
  = ({| environ := environ ps; session_state := sidebar (session_state ps) |},
     Raise ValueError).
Proof.
  intros Hn. unfold script, key_box, setenv.
  rewrite (has_nul_truthy _ Hn), Hn. reflexivity.
Qed.

(** With any other key the script is [run], and the key, unless empty,
    is in the environment afterwards. *)
Lemma script_run (cfg : config) (w : widgets) (ps : process) :
  has_nul (api_key w) = false ->
  script cfg w ps
  = ({| environ := if truthy (api_key w)
                   then <["OPENAI_API_KEY" := api_key w]> (environ ps)
                   else environ ps;
        session_state := fst (run cfg w (session_state ps)) |},
     snd (run cfg w (session_state ps))).
Proof.
  intros Hn. unfold script, key_box, setenv. rewrite Hn, run_sidebar.
  destruct (truthy (api_key w)); destruct (run cfg w (session_state ps)); reflexivity.
Qed.

Lemma run_count_raises (cfg : config) (w : widgets) (st : gmap string float)
    (p : string) (e : exn) :
  prompt w = Some p -> p <> EmptyString ->
  get_token_count p "gpt-4o" = Raise e ->
  run cfg w st = (sidebar st, Raise e).
Proof.
  intros Hp Hne Ht. unfold run. rewrite Hp, (truthy_ne p Hne).
  unfold gateway, analysis_layer. rewrite Ht. reflexivity.
Qed.

(** Where an exception of the token count comes from: the lookup of the
    model (any exception but [KeyError]), the lookup of the fallback
    encoding after a [KeyError], or [encode] on the text. *)
Lemma get_token_count_raises (text model : string) (e : exn) :
  get_token_count text model = Raise e ->
  (encoding_for_model model = Raise e /\ e <> KeyError)
  \/ (encoding_for_model model = Raise KeyError
      /\ get_encoding "cl100k_base" = Raise e)
  \/ (exists enc : Encoding,
        (encoding_for_model model = Ok enc
         \/ (encoding_for_model model = Raise KeyError
             /\ get_encoding "cl100k_base" = Ok enc))
        /\ encode enc text = Raise e).
Proof.
  unfold get_token_count, try_except.
  destruct (encoding_for_model model) as [enc|e0].
  - run_step. destruct (encode enc text) as [toks|e1] eqn:Ht; run_step; [discriminate|].
    intros [= ->]. right. right. exists enc. split; [left; reflexivity|exact Ht].
  - destruct (decide (e0 = KeyError)) as [->|Hne].
    + destruct (get_encoding "cl100k_base") as [enc|e1] eqn:Hg; run_step.
      * destruct (encode enc text) as [toks|e2] eqn:Ht; run_step; [discriminate|].
        intros [= ->]. right. right. exists enc. split; [right; auto|exact Ht].
      * intros [= ->]. right. left. auto.
    + run_step. intros [= ->]. left. auto.
Qed.

(** X2.  An exception while the tokens of a submitted prompt are
    counted.  It comes from one of tiktoken's three calls: from the
    lookup of [gpt-4o] when it is no [KeyError], from the lookup of the
    fallback encoding after a [KeyError], or from [encode] on the prompt
    (line 26, outside the [try]).  It is not handled: the run of the
    script ends in it and books nothing.  The key, read before the
    prompt, is in the environment all the same unless the box was
    empty. *)
Theorem run_exception (cfg : config) (w : widgets) (ps : process)
    (p : string) (e : exn) :
  prompt w = Some p -> p <> EmptyString ->
  has_nul (api_key w) = false ->
  get_token_count p "gpt-4o" = Raise e ->
  script cfg w ps
  = ({| environ := if truthy (api_key w)
                   then <["OPENAI_API_KEY" := api_key w]> (environ ps)
                   else environ ps;
        session_state := sidebar (session_state ps) |},
     Raise e)
  /\ ((encoding_for_model "gpt-4o" = Raise e /\ e <> KeyError)
      \/ (encoding_for_model "gpt-4o" = Raise KeyError
          /\ get_encoding "cl100k_base" = Raise e)
      \/ (exists enc : Encoding,
            (encoding_for_model "gpt-4o" = Ok enc
             \/ (encoding_for_model "gpt-4o" = Raise KeyError
                 /\ get_encoding "cl100k_base" = Ok enc))
            /\ encode enc p = Raise e)).
Proof.
  intros Hp Hne Hn Ht. split; [|exact (get_token_count_raises _ _ _ Ht)].
  rewrite (script_run cfg w ps Hn), (run_count_raises cfg w _ p e Hp Hne Ht).
  reflexivity.
Qed.

Lemma length_append (s1 s2 : string) :
  String.length (String.append s1 s2) = (String.length s1 + String.length s2)%nat.
Proof.
  induction s1 as [|c s1 IH]; [reflexivity|].
  change (S (String.length (String.append s1 s2))
          = S (String.length s1 + String.length s2)%nat).
  f_equal. exact IH.
Qed.

Lemma pieces_length (pieces : list string) :
  Forall (fun s => s <> EmptyString) pieces ->
  (length pieces <= String.length (String.concat EmptyString pieces))%nat.
Proof.
  induction pieces as [|s pieces IH]; intros Hne; [simpl; lia|].
  apply Forall_cons in Hne as [Hs Hrest].
  rewrite concat_cons, length_append. specialize (IH Hrest).
  destruct s as [|c s]; [contradiction|]. simpl. lia.
Qed.

Lemma lossless_count (enc : Encoding) (text : string) (toks : list Z) :
  lossless enc ->
  encode enc text = Ok toks ->
  0 <= len toks <= Z.of_nat (String.length text)
  /\ (len toks = 0 <-> text = EmptyString).
Proof.
  intros Hl Ht. destruct (Hl text toks Ht) as [Hjoin Hpieces].
  assert (Hmap : Forall (fun s => s <> EmptyString)
                   (map (decode_single_token_bytes enc) toks)).
  { apply Forall_map. exact Hpieces. }
  pose proof (pieces_length _ Hmap) as Hlen.
  rewrite Hjoin, length_map in Hlen. unfold len.
  split; [lia|]. split.
  - intros H0. destruct toks as [|tok toks]; [|simpl in H0; lia].
    simpl in Hjoin. congruence.
  - intros ->. simpl in Hlen. lia.
Qed.

Lemma get_token_count_inv (text model : string) (t : Z) :
  get_token_count text model = Ok t ->
  exists (enc : Encoding) (toks : list Z),
    encode enc text = Ok toks /\ t = len toks.
Proof.
  unfold get_token_count.
  destruct (try_except _ _ _) as [enc|e]; run_step; [|discriminate].
  destruct (encode enc text) as [toks|e] eqn:Ht; run_step; [|discriminate].
  intros [= <-]. eauto.
Qed.

(** X3.  With lossless encodings (every token stands for at least one
    byte of the text) a token count is never more than the number of bytes
    of the text, and it is 0 for the empty text only. *)
Theorem token_count_bounds (text model : string) (t : Z) :
  (forall enc : Encoding, lossless enc) ->
  get_token_count text model = Ok t ->
  0 <= t <= Z.of_nat (String.length text)
  /\ (t = 0 <-> text = EmptyString).
Proof.
  intros Hl Ht. destruct (get_token_count_inv _ _ _ Ht) as (enc & toks & He & ->).
  exact (lossless_count enc text toks (Hl enc) He).
Qed.

(** X4.  When the encodings are lossless, a submitted prompt of fewer
    than 2^63 bytes whose tokens tiktoken can count is processed by the
    script, whatever the configuration and the state before, as long as
    the key has no NUL byte: the run ends in a decision with that count,
    which is at least 1 and at most the number of bytes, so that line 71
    cannot overflow. *)
Theorem prompt_is_processed (cfg : config) (w : widgets) (ps : process)
    (p : string) (t : Z) :
  (forall enc : Encoding, lossless enc) ->
  prompt w = Some p -> p <> EmptyString ->
  Z.of_nat (String.length p) < 2 ^ 63 ->
  has_nul (api_key w) = false ->
  get_token_count p "gpt-4o" = Ok t ->
  exists (ps' : process) (d : decision),
    script cfg w ps = (ps', Ok (Some d))
    /\ tokens (analysed d) = t
    /\ 1 <= t <= Z.of_nat (String.length p).
Proof.
  intros Hl Hp Hne Hlen Hn Ht.
  destruct (get_token_count_inv _ _ _ Ht) as (enc & toks & He & Et).
  destruct (lossless_count enc p toks (Hl enc) He) as [Hr Hz].
  rewrite <- Et in Hr, Hz.
  assert (Hb : t < 2 ^ 63) by lia.
  destruct (run_processed cfg w (session_state ps) p t Hp Hne Ht Hb)
    as (q & r & total & _ & _ & _ & E).
  cbv zeta in E. rewrite (script_run cfg w ps Hn), E. cbn [fst snd].
  eexists _, _. split; [reflexivity|]. cbn [analysed tokens].
  split; [reflexivity|].
  assert (t <> 0) by (intros H0; apply Hne, Hz, H0). lia.
Qed.

Lemma sidebar_other (st : gmap string float) (k : string) :
  k <> "total_savings" -> sidebar st !! k = st !! k.
Proof.
  intros Hk. unfold sidebar. destruct (st !! "total_savings"); [reflexivity|].
  apply lookup_insert_ne. congruence.
Qed.

Lemma run_state (cfg : config) (w : widgets) (st : gmap string float) :
  fst (run cfg w st) = sidebar st
  \/ exists v : float, fst (run cfg w st) = <["total_savings" := v]> (sidebar st).
Proof.
  destruct (run_cases cfg w st)
    as [E|[(e & E)|(p & t & q & r & total & _ & _ & _ & _ & _ & E)]].
  - left. rewrite E. reflexivity.
  - left. rewrite E. reflexivity.
  - right. cbv zeta in E. rewrite E. eauto.
Qed.

Lemma sidebar_present (st : gmap string float) (v : float) :
  st !! "total_savings" = Some v -> sidebar st = st.
Proof. intros Hv. unfold sidebar. rewrite Hv. reflexivity. Qed.

Lemma run_session_frame (cfg : config) (w : widgets) (st : gmap string float) :
  (forall k : string,
      k <> "total_savings" -> fst (run cfg w st) !! k = st !! k)
  /\ is_Some (total_savings (fst (run cfg w st)))
  /\ (prompt w = None -> is_Some (total_savings st) ->
      run cfg w st = (st, Ok None)).
Proof.
  split; [|split].
  - intros k Hk. destruct (run_state cfg w st) as [->|[v ->]].
    + apply sidebar_other, Hk.
    + rewrite lookup_insert_ne by congruence. apply sidebar_other, Hk.
  - unfold total_savings. destruct (sidebar_total st) as (total & Et & _).
    destruct (run_state cfg w st) as [->|[v ->]].
    + rewrite Et. eauto.
    + rewrite lookup_insert_eq. eauto.
  - intros Hp [v Hv]. unfold total_savings in Hv.
    destruct (sidebar_total st) as (total & _ & _ & Hsome).
    destruct (Hsome v Hv) as [_ Hs].
    unfold run. rewrite Hp, Hs. reflexivity.
Qed.

(** X5.  What a run of the script can touch.  In the session state one
    entry only, [total_savings], which is there afterwards; in the
    environment one variable only, [OPENAI_API_KEY], and not even that
    when the key box is empty.  A run without a submitted prompt, on a
    session that has its total, leaves the session state as it was: it
    ends without a decision, or, on a key with a NUL byte, with the
    [ValueError] of line 63. *)
Theorem run_frame (cfg : config) (w : widgets) (ps : process) :
  (forall k : string,
      k <> "total_savings" ->
      session_state (fst (script cfg w ps)) !! k = session_state ps !! k)
  /\ (forall name : string,
        name <> "OPENAI_API_KEY" ->
        environ (fst (script cfg w ps)) !! name = environ ps !! name)
  /\ is_Some (total_savings (session_state (fst (script cfg w ps))))
  /\ (api_key w = EmptyString -> environ (fst (script cfg w ps)) = environ ps)
  /\ (prompt w = None -> is_Some (total_savings (session_state ps)) ->
      session_state (fst (script cfg w ps)) = session_state ps
      /\ snd (script cfg w ps)
         = (if has_nul (api_key w) then Raise ValueError else Ok None)).
Proof.
  destruct (run_session_frame cfg w (session_state ps)) as (Hk & Ht & Hnone).
  destruct (has_nul (api_key w)) eqn:Hn.
  - rewrite (script_nul cfg w ps Hn). cbn [fst snd session_state environ].
    split; [intros k Hne; apply sidebar_other, Hne|].
    split; [reflexivity|].
    split; [unfold total_savings; destruct (sidebar_total (session_state ps))
                                    as (total & -> & _); eauto|].
    split; [reflexivity|].
    intros _ [v Hv]. split; [|reflexivity].
    exact (sidebar_present _ v Hv).
  - rewrite (script_run cfg w ps Hn). cbn [fst snd session_state environ].
    split; [exact Hk|].
    split; [intros name Hne; destruct (truthy (api_key w)); [|reflexivity];
            apply lookup_insert_ne; congruence|].
    split; [exact Ht|].
    split; [intros ->; reflexivity|].
    intros Hp Hs. rewrite (Hnone Hp Hs). split; reflexivity.
Qed.

Lemma add_zero_r (a : float) : F64.amount a = true -> F64.add a F64.zero = a.
Proof. destruct a as [[]|[]| |[] m e]; intros Ha; try discriminate Ha; reflexivity. Qed.

Lemma high_cost_finite (t : Z) (q : float) :
  0 < t -> F64.int_truediv t 1000 = Ok q ->
  exists (mf : positive) (ef : Z),
    F64.mul q (PRICE_GPT4 app_config) = S754_finite false mf ef
    /\ F64.amount (S754_finite false mf ef) = true.
Proof.
  intros Ht Eq.
  destruct (int_truediv_1000 t Ht ltac:(right; eauto)) as (mq & eq & Eq' & Hd & He).
  rewrite Eq' in Eq. injection Eq as <-.
  destruct (mul_price mq 8646911284551352 eq (-58) Hd eq_refl He ltac:(lia))
    as (mf & ef & Em & Ha & _).
  exists mf, ef. split; [exact Em|exact Ha].
Qed.

(** X6.  Under the shipped configuration a prompt of 50 tokens or more
    goes to [gpt-4o], saves exactly [+0.0], and leaves the session total
    as it was, in every session reached from a fresh one. *)
Theorem expensive_route_books_nothing (runs : list widgets) (w : widgets)
    (st' : gmap string float) (d : decision) :
  run app_config w (session app_config runs ∅) = (st', Ok (Some d)) ->
  50 <= tokens (analysed d) ->
  model_used (routed d) = "gpt-4o"
  /\ savings (routed d) = F64.zero
  /\ total_savings st' = total_savings (sidebar (session app_config runs ∅)).
Proof.
  intros Hrun Hlong.
  destruct (run_inv _ _ _ _ _ Hrun) as (p & q & total & _ & _ & Eq & Eh & Er & Et & ->).
  rewrite (routing_logic_high app_config _ _ Hlong) in Er.
  destruct (high_cost_finite (tokens (analysed d)) q ltac:(lia) Eq) as (mf & ef & Em & _).
  injection Er as Er. rewrite <- Er. cbn [model_used savings].
  rewrite Eh, Em, sub_self.
  split; [reflexivity|]. split; [reflexivity|].
  unfold total_savings. rewrite lookup_insert_eq, Et. f_equal.
  apply add_zero_r.
  destruct (session app_config runs ∅ !! "total_savings") as [v|] eqn:Ev.
  - destruct (sidebar_total (session app_config runs ∅)) as (total' & Et' & _ & Hsome).
    destruct (Hsome v Ev) as [-> _]. rewrite Et in Et'. injection Et' as ->.
    apply (session_total runs ∅); [|exact Ev].
    intros v0 Hv0. rewrite lookup_empty in Hv0. discriminate.
  - destruct (sidebar_total (session app_config runs ∅)) as (total' & Et' & Hnone & _).
    rewrite Et in Et'. injection Et' as ->. rewrite (Hnone Ev). reflexivity.
Qed.

Lemma cheap_route_small :
  forallb cheap_route_check (map Z.of_nat (seq 0 50)) = true.
Proof. vm_compute. reflexivity. Qed.

(** X7.  Under the shipped configuration the actual cost of a processed
    prompt is never above the price on the expensive model, and the
    saving is positive exactly when the prompt has between 1 and 49
    tokens. *)
Theorem saving_positive_iff (w : widgets) (st st' : gmap string float) (d : decision) :
  run app_config w st = (st', Ok (Some d)) ->
  F64.leb (est_cost_actual (routed d)) (est_cost_high (analysed d)) = true
  /\ (F64.ltb F64.zero (savings (routed d)) = true
      <-> 0 < tokens (analysed d) < 50).
Proof.
  intros Hrun.
  destruct (run_inv _ _ _ _ _ Hrun) as (p & q & total & _ & Ht & Eq & Eh & Er & _).
  pose proof (get_token_count_nonneg _ _ _ Ht) as H0.
  set (t := tokens (analysed d)) in *.
  destruct (Z.lt_ge_cases t 50) as [Hlt|Hge].
  - pose proof cheap_route_small as Hs. rewrite forallb_forall in Hs.
    specialize (Hs t). unfold cheap_route_check in Hs.
    rewrite (est_cost_eq t q _ Eq), <- Eh, Er in Hs.
    assert (Hin : In t (map Z.of_nat (seq 0 50))).
    { replace t with (Z.of_nat (Z.to_nat t)) by lia. apply in_map, in_seq. lia. }
    apply Hs, andb_true_iff in Hin as [Hle Hpos]. split; [exact Hle|].
    apply Bool.eqb_prop in Hpos. rewrite Hpos. lia.
  - rewrite (routing_logic_high app_config _ _ Hge) in Er.
    destruct (high_cost_finite t q ltac:(lia) Eq) as (mf & ef & Em & Ha).
    injection Er as Er. rewrite <- Er. cbn [est_cost_actual savings].
    rewrite Eh, Em, sub_self. split; [apply leb_refl_finite|].
    split; [discriminate|lia].
Qed.






End Coverage.

Section Ordered.

Context {tk : Tiktoken} {pr : Presidio}.

(** X11.  Of two processed prompts under the shipped configuration, the
    one with more tokens never has the lower estimate: neither the price
    on [gpt-4o] nor the actual cost of the route taken, also when the two
    prompts are routed to different models. *)
Theorem longer_prompt_costs_more (w1 w2 : widgets) (st1 st2 st1' st2' : gmap string float)
    (d1 d2 : decision) :
  run app_config w1 st1 = (st1', Ok (Some d1)) ->
  run app_config w2 st2 = (st2', Ok (Some d2)) ->
  tokens (analysed d1) <= tokens (analysed d2) ->
  costs_ordered d1 d2.
Proof.
  intros R1 R2 Hle.
  destruct (run_inv _ _ _ _ _ R1) as (p1 & q1 & tot1 & _ & T1 & Q1 & H1 & Er1 & _).
  destruct (run_inv _ _ _ _ _ R2) as (p2 & q2 & tot2 & _ & T2 & Q2 & H2 & Er2 & _).
  pose proof (get_token_count_nonneg _ _ _ T1) as N1.
  set (t1 := tokens (analysed d1)) in *. set (t2 := tokens (analysed d2)) in *.
  destruct (cost_order t1 t2 q1 q2 8646911284551352 (-58) eq_refl ltac:(lia)
              ltac:(lia) Q1 Q2) as (Ah1 & Ah2 & Lh).
  destruct (cost_order t1 t2 q1 q2 5534023222112865 (-65) eq_refl ltac:(lia)
              ltac:(lia) Q1 Q2) as (Al1 & Al2 & Ll).
  change (S754_finite false 8646911284551352 (-58)) with (PRICE_GPT4 app_config) in *.
  change (S754_finite false 5534023222112865 (-65)) with (PRICE_MINI app_config) in *.
  unfold costs_ordered. rewrite H1, H2. split; [exact Lh|].
  rewrite H1 in Er1. rewrite H2 in Er2.
  destruct (Z.lt_ge_cases t1 50) as [S1|S1]; destruct (Z.lt_ge_cases t2 50) as [S2|S2];
    try lia.
  - rewrite (routing_logic_low app_config t1 _ q1 Q1 S1) in Er1.
    rewrite (routing_logic_low app_config t2 _ q2 Q2 S2) in Er2.
    injection Er1 as <-. injection Er2 as <-. exact Ll.
  - rewrite (routing_logic_low app_config t1 _ q1 Q1 S1) in Er1.
    rewrite (routing_logic_high app_config t2 _ S2) in Er2.
    injection Er1 as <-. injection Er2 as <-. cbn [est_cost_actual].
    apply (leb_trans_amount _ (F64.mul q1 (PRICE_GPT4 app_config)));
      try assumption.
    apply (mini_le_gpt4 t1); [lia|exact Q1].
  - rewrite (routing_logic_high app_config t1 _ S1) in Er1.
    rewrite (routing_logic_high app_config t2 _ S2) in Er2.
    injection Er1 as <-. injection Er2 as <-. exact Lh.
Qed.

End Ordered.

(** * The properties above on concrete prompts *)

Lemma pii_found_outcome_witness :
  exists (st' : gmap string float) (d : decision),
    Fake.run_fake app_config (Fake.submit Strict Fake.call_me) ∅ = (st', Ok (Some d))
    /\ (Strict = Strict ->
        final_prompt d = "Call me at ###-#### about the Project X budget"
        /\ forwarded (sent d) = "Call me at ###-#### about the Project X budget"
        /\ redacted d = true
        /\ audit_flagged d = false)
    /\ (Strict <> Strict ->
        final_prompt d = Fake.call_me
        /\ forwarded (sent d) = Fake.call_me
        /\ redacted d = false
        /\ audit_flagged d = true).
Proof.
  apply (@pii_found_outcome Fake.tiktoken Fake.presidio app_config
           (Fake.submit Strict Fake.call_me) ∅ Fake.call_me 46).
  - reflexivity.
  - discriminate.
  - reflexivity.
  - reflexivity.
  - vm_compute. discriminate.
Defined.

(** A prompt that holds a special token, sent with a key: [encode]
    raises, the run ends, and the key is in the environment. *)
Lemma run_exception_witness :
  @script Fake.tiktoken Fake.presidio app_config
    (with_key "sk-test" (Fake.submit Strict "<|endoftext|>")) Stub.fresh
  = ({| environ := <["OPENAI_API_KEY" := "sk-test"]> ∅;
        session_state := sidebar ∅ |},
     Raise ValueError)
  /\ ((@encoding_for_model Fake.tiktoken "gpt-4o" = Raise ValueError
       /\ ValueError <> KeyError)
      \/ (@encoding_for_model Fake.tiktoken "gpt-4o" = Raise KeyError
          /\ @get_encoding Fake.tiktoken "cl100k_base" = Raise ValueError)
      \/ (exists enc : @Encoding Fake.tiktoken,
            (@encoding_for_model Fake.tiktoken "gpt-4o" = Ok enc
             \/ (@encoding_for_model Fake.tiktoken "gpt-4o" = Raise KeyError
                 /\ @get_encoding Fake.tiktoken "cl100k_base" = Ok enc))
            /\ @encode Fake.tiktoken enc "<|endoftext|>" = Raise ValueError)).
Proof.
  apply (@run_exception Fake.tiktoken Fake.presidio app_config
           (with_key "sk-test" (Fake.submit Strict "<|endoftext|>")) Stub.fresh
           "<|endoftext|>" ValueError).
  - reflexivity.
  - discriminate.
  - reflexivity.
  - reflexivity.
Defined.

(** A key that is one NUL byte: the run ends at line 63 although a
    prompt was submitted; with the key [sk-test] the same prompt is
    processed. *)
Example nul_key_ends_the_run :
  snd (@script Fake.tiktoken Fake.presidio app_config
         (with_key Stub.nul_key (Fake.submit Strict Fake.hello)) Stub.fresh)
  = Raise ValueError
  /\ exists (ps' : process) (d : decision),
       @script Fake.tiktoken Fake.presidio app_config
         (with_key "sk-test" (Fake.submit Strict Fake.hello)) Stub.fresh
       = (ps', Ok (Some d))
       /\ tokens (analysed d) = 39
       /\ environ ps' !! "OPENAI_API_KEY" = Some "sk-test".
Proof.
  split; [reflexivity|].
  eexists _, _. split; [vm_compute; reflexivity|]. split; reflexivity.
Qed.

Lemma token_count_bounds_witness :
  0 <= 46 <= Z.of_nat (String.length Fake.call_me)
  /\ (46 = 0 <-> Fake.call_me = EmptyString).
Proof.
  apply (@token_count_bounds Fake.tiktoken Fake.call_me "gpt-4o" 46).
  - exact fake_lossless.
  - reflexivity.
Defined.

Lemma prompt_is_processed_witness :
  exists (ps' : process) (d : decision),
    @script Fake.tiktoken Fake.presidio app_config (Fake.submit Strict Fake.hello) Stub.fresh
    = (ps', Ok (Some d))
    /\ tokens (analysed d) = 39
    /\ 1 <= 39 <= Z.of_nat (String.length Fake.hello).
Proof.
  apply (@prompt_is_processed Fake.tiktoken Fake.presidio app_config
           (Fake.submit Strict Fake.hello) Stub.fresh Fake.hello 39).
  - exact fake_lossless.
  - reflexivity.
  - discriminate.
  - reflexivity.
  - reflexivity.
  - reflexivity.
Defined.

Lemma expensive_route_books_nothing_witness :
  exists (st' : gmap string float) (d : decision),
    Fake.run_fake app_config (Fake.submit Strict Stub.long_prompt) ∅ = (st', Ok (Some d))
    /\ model_used (routed d) = "gpt-4o"
    /\ savings (routed d) = F64.zero
    /\ total_savings st' = total_savings (sidebar ∅).
Proof.
  eexists _, _. split; [vm_compute; reflexivity|].
  eapply (@expensive_route_books_nothing Fake.tiktoken Fake.presidio []
            (Fake.submit Strict Stub.long_prompt)).
  - vm_compute. reflexivity.
  - vm_compute. discriminate.
Defined.

Lemma saving_positive_iff_witness :
  exists (st' : gmap string float) (d : decision),
    Fake.run_fake app_config (Fake.submit Strict Fake.call_me) ∅ = (st', Ok (Some d))
    /\ F64.leb (est_cost_actual (routed d)) (est_cost_high (analysed d)) = true
    /\ (F64.ltb F64.zero (savings (routed d)) = true
        <-> 0 < tokens (analysed d) < 50).
Proof.
  eexists _, _. split; [vm_compute; reflexivity|].
  eapply (@saving_positive_iff Fake.tiktoken Fake.presidio
            (Fake.submit Strict Fake.call_me) ∅).
  vm_compute. reflexivity.
Defined.

Lemma est_cost_monotone_witness :
  (46 < 2 ^ 63 ->
   exists c1 c2 : float,
     est_cost 39 (PRICE_MINI app_config) = Ok c1
     /\ est_cost 46 (PRICE_MINI app_config) = Ok c2)
  /\ (forall c1 c2 : float,
        est_cost 39 (PRICE_MINI app_config) = Ok c1 ->
        est_cost 46 (PRICE_MINI app_config) = Ok c2 ->
        F64.amount c1 = true /\ F64.amount c2 = true /\ F64.leb c1 c2 = true).
Proof.
  apply (est_cost_monotone 39 46 5534023222112865 (-65)).
  - reflexivity.
  - lia.
  - lia.
Defined.

Lemma longer_prompt_costs_more_witness :
  exists (st1' st2' : gmap string float) (d1 d2 : decision),
    Fake.run_fake app_config (Fake.submit Strict Fake.call_me) ∅ = (st1', Ok (Some d1))
    /\ Fake.run_fake app_config (Fake.submit AuditOnly Stub.long_prompt) ∅
       = (st2', Ok (Some d2))
    /\ costs_ordered d1 d2.
Proof.
  eexists _, _, _, _.
  split; [vm_compute; reflexivity|]. split; [vm_compute; reflexivity|].
  eapply (@longer_prompt_costs_more Fake.tiktoken Fake.presidio
            (Fake.submit Strict Fake.call_me) (Fake.submit AuditOnly Stub.long_prompt) ∅ ∅).
  - vm_compute. reflexivity.
  - vm_compute. reflexivity.
  - vm_compute. discriminate.
Defined.
